(** * task-master / init.py: the file generator of the reception simulator

    A shallow embedding of [src/init.py] and the properties of its duration
    parser ([_parse_tiempo]) and of its pacing loop ([run_simulator]).

    Conventions of the embedding
    - A Python [str] is a Rocq [string]; a character is read as the code point
      of the same number (0..255, the Latin-1 block of Unicode).  The
      character classes of [re] ([\d], [\s], [\w]) and [str.lower] are the
      ones CPython uses on these code points.
    - A Python [int] is a [Z]; the cap CPython puts on the number of digits
      [int()] accepts is not modelled.
    - A Python float is a value of an abstract type with the operations the
      loop uses (class [PyFloat]); conversions and divisions do not overflow.
    - A Python exception is a value of [exn]; a function that may raise
      returns [exn + A].
    - The outside (clocks, random generator, file system, timer, signals) is
      an oracle [Env]; the state of the process and of the log files, and
      the effects the process has had, are a [World].  The creation of an
      artifact may raise, in [open] or once the file is made, and so may
      [time.sleep], which refuses a duration its timer cannot hold.  The
      calls to the clocks, to [os.makedirs] and to the log handlers do not
      raise.
    - A file is known by its path, a string: two names of one file are two
      files here.
    - [while True] is run for a bounded number of cycles ([fuel]); an
      execution that needs more ends in [OutOfFuel]. *)

From Stdlib Require Import ZArith List String Ascii Bool Lia.
From Stdlib Require Import Decimal DecimalString DecimalZ DecimalPos QArith Lqa.
Import ListNotations.
Local Open Scope string_scope.
Local Open Scope Z_scope.

(** ** Exceptions *)

Inductive exn : Type :=
| ValueError (msg : string)
| RuntimeError (msg : string)
| OSError (msg : string)
| OverflowError (msg : string).

(** [str(e)] *)
Definition str_exn (e : exn) : string :=
  match e with
  | ValueError m | RuntimeError m | OSError m | OverflowError m => m
  end.

(** The two pre-flight errors of the spec are the two [ValueError]s of the
    source, told apart by their message. *)
Definition InvalidFormat : exn :=
  ValueError "Formato inválido: use '10min', '1hr 30m', etc.".
Definition InvalidCount : exn :=
  ValueError "cantidad must be > 0".

(** What [time.sleep] raises on a duration of more than 2^63 nanoseconds. *)
Definition SleepOverflow : exn :=
  OverflowError "timestamp too large to convert to C _PyTime_t".

(** ** Characters and strings as Python sees them *)

Module PyStr.

Definition code (c : ascii) : Z := Z.of_N (N_of_ascii c).

Definition between (lo hi : Z) (c : ascii) : bool :=
  (lo <=? code c) && (code c <=? hi).

(** [\d]: the decimal digits; below 256 only 0..9. *)
Definition is_digit (c : ascii) : bool := between 48 57 c.

(** [\s]: [str.isspace]; below 256 these are TAB..CR, FS..US, space,
    NEL (133) and NBSP (160). *)
Definition is_space (c : ascii) : bool :=
  between 9 13 c || between 28 32 c || (code c =? 133) || (code c =? 160).

(** [\w]: [str.isalnum] or underscore. *)
Definition is_word (c : ascii) : bool :=
  is_digit c || between 65 90 c || between 97 122 c || (code c =? 95)
  || (code c =? 170) || between 178 179 c || (code c =? 181)
  || between 185 186 c || between 188 190 c
  || between 192 214 c || between 216 246 c || between 248 255 c.

(** [str.lower] on one character. *)
Definition lower_char (c : ascii) : ascii :=
  if between 65 90 c || between 192 214 c || between 216 222 c
  then ascii_of_N (N_of_ascii c + 32)
  else c.

Definition lower (s : list ascii) : list ascii := map lower_char s.

(** [s.replace(" ", "")]: only U+0020 is removed. *)
Definition remove_spaces (s : list ascii) : list ascii :=
  filter (fun c => negb (code c =? 32)) s.

(** [int(v)] on a string of decimal digits. *)
Definition int_of_digits (v : list ascii) : Z :=
  fold_left (fun acc c => 10 * acc + (code c - 48)) v 0.

End PyStr.

(** ** [re.findall(rf"(\d+)\s*{key}\b", s)] *)

Module Regex.
Import PyStr.

Definition opt_word (c : option ascii) : bool :=
  match c with Some c => is_word c | None => false end.

(** [\b] between the character before and the character after. *)
Definition word_boundary (prev next : option ascii) : bool :=
  xorb (opt_word prev) (opt_word next).

(** The literal [key] followed by [\b]; [prev] is the character before
    the position.  Returns the number of characters consumed. *)
Fixpoint lit_then_boundary (key : list ascii) (prev : option ascii)
         (s : list ascii) : option nat :=
  match key with
  | [] => if word_boundary prev (hd_error s) then Some 0%nat else None
  | k :: key' =>
      match s with
      | c :: s' =>
          if Ascii.eqb k c
          then option_map S (lit_then_boundary key' (Some c) s')
          else None
      | [] => None
      end
  end.

(** Length of the longest prefix in a class. *)
Fixpoint run_length (p : ascii -> bool) (s : list ascii) : nat :=
  match s with
  | c :: s' => if p c then S (run_length p s') else 0%nat
  | [] => 0%nat
  end.

(** [\s*], greedy: first all [j] spaces, then one less, down to none. *)
Fixpoint try_spaces (key : list ascii) (prev : option ascii)
         (r : list ascii) (j : nat) : option nat :=
  let prev' := match j with
               | O => prev
               | S j' => nth_error r j'
               end in
  match lit_then_boundary key prev' (skipn j r) with
  | Some n => Some (j + n)%nat
  | None =>
      match j with
      | O => None
      | S j' => try_spaces key prev r j'
      end
  end.

(** [(\d+)], greedy: first all [k] digits, then one less, down to one. *)
Fixpoint try_digits (key : list ascii) (s : list ascii) (k : nat)
  : option (list ascii * nat) :=
  match k with
  | O => None
  | S k' =>
      let r := skipn k s in
      match try_spaces key (nth_error s k') r (run_length is_space r) with
      | Some n => Some (firstn k s, (k + n)%nat)
      | None => try_digits key s k'
      end
  end.

(** A match that starts at the head of [s]: the captured group and the
    length of the whole match. *)
Definition match_here (key : list ascii) (s : list ascii)
  : option (list ascii * nat) :=
  try_digits key s (run_length is_digit s).

(** The scan of [findall]: leftmost match, then on from its end; [skip]
    counts the characters of the last match still to pass. *)
Fixpoint findall_from (key : list ascii) (skip : nat) (s : list ascii)
  : list (list ascii) :=
  match s with
  | [] => []
  | _ :: s' =>
      match skip with
      | S k => findall_from key k s'
      | O =>
          match match_here key s with
          | Some (v, n) => v :: findall_from key (Nat.pred n) s'
          | None => findall_from key 0 s'
          end
      end
  end.

Definition findall (key : string) (s : list ascii) : list (list ascii) :=
  findall_from (list_ascii_of_string key) 0 s.

End Regex.

(** ** [_parse_tiempo] *)

(** [patterns], in the insertion order of the dict. *)
Definition patterns : list (string * Z) :=
  [("hr", 3600); ("h", 3600); ("min", 60); ("m", 60)].

(** [tiempo_str.lower().replace(" ", "")] *)
Definition normalize (tiempo_str : string) : list ascii :=
  PyStr.remove_spaces (PyStr.lower (list_ascii_of_string tiempo_str)).

(** The two nested [for] loops that accumulate [total_seconds]. *)
Definition add_matches (s : list ascii) (total : Z) (p : string * Z) : Z :=
  fold_left (fun t v => t + PyStr.int_of_digits v * snd p)
            (Regex.findall (fst p) s) total.

Definition total_of (s : list ascii) : Z :=
  fold_left (add_matches s) patterns 0.

Definition _parse_tiempo (tiempo_str : string) : exn + Z :=
  let s := normalize tiempo_str in
  let total_seconds := total_of s in
  if total_seconds =? 0 then inl InvalidFormat else inr total_seconds.

(** The tokens the patterns recognize in a string: captured quantity and
    multiplier, in the order the loops visit them. *)
Definition tokens (tiempo_str : string) : list (list ascii * Z) :=
  flat_map (fun p => map (fun v => (v, snd p))
                         (Regex.findall (fst p) (normalize tiempo_str)))
           patterns.

Definition token_seconds (t : list ascii * Z) : Z :=
  PyStr.int_of_digits (fst t) * snd t.

Definition sum_seconds (l : list (list ascii * Z)) : Z :=
  fold_right (fun t acc => token_seconds t + acc) 0 l.

(** A string of word characters: what an expression of letters, digits and
    spaces is once the spaces are removed. *)
Definition all_word (s : list ascii) : Prop :=
  Forall (fun c => PyStr.is_word c = true) s.


(** ** Python floats

    The pacing loop computes with floats.  Their arithmetic is kept
    abstract: the loop is embedded over any type with the operations it
    uses, and the properties below hold whatever these operations compute.
    [truediv] is [/] on two ints, [of_int] the conversion of an int operand
    in mixed arithmetic, [flt] is [<] (and [a > b] is [flt b a]). *)

Class PyFloat (F : Type) : Type := {
  of_int : Z -> F;
  truediv : Z -> Z -> F;
  fadd : F -> F -> F;
  fsub : F -> F -> F;
  fmul : F -> F -> F;
  flt : F -> F -> bool;
  flt_irrefl : forall x, flt x x = false
}.

(** ** Module constants *)

Definition EXTENSIONS : list string :=
  [".payf"; ".deb"; ".transfer"; ".credit"; ".cash"].
Definition MAX_SIZE : Z := 5 * 1024.

(** [os.path.join(a, b)] on POSIX for a relative [b]. *)
Definition ends_with_slash (a : string) : bool :=
  match List.rev (list_ascii_of_string a) with
  | c :: _ => Ascii.eqb c "/"%char
  | [] => false
  end.

Definition path_join (a b : string) : string :=
  if String.eqb a "" then b
  else if ends_with_slash a then a ++ b
  else a ++ "/" ++ b.

(** [str(n)] for an int. *)
Definition str_int (n : Z) : string :=
  NilZero.string_of_int (Z.to_int n).

(** Control flow of the loop body: fall through to the next iteration, or
    [return] from [run_simulator]. *)
Inductive Flow : Type := Continue | Return.

(** How an execution of [run_simulator] bounded by [fuel] cycles ends. *)
Inductive Outcome : Type := Returned | OutOfFuel.

(** A row of the error sink: [f"{ts},error_creating_file,{i},{str(e)}"]. *)
Record ErrorRow : Type := {
  err_ts : string;
  err_index : Z;
  err_description : string
}.

(** How [with open(full, "wb") as f: f.write(...)] fails: in [open], and
    then there is no file, or later, in the write or when the file is
    closed, and then the file is there, made by [open], without its
    content. *)
Inductive IOFailure : Type :=
| OpenFails (e : exn)
| WriteFails (e : exn).


(** ** Log files

    The files a logger writes to, by path ([None]: no such file), with
    their lines. *)

Definition Files (A : Type) : Type := string -> option (list A).

Definition rows {A} (l : option (list A)) : list A :=
  match l with Some c => c | None => [] end.

(** [open(p, "a")]: the file is made when it is not there. *)
Definition open_append {A} (p : string) (fs : Files A) : Files A :=
  fun q => if String.eqb q p then Some (rows (fs q)) else fs q.

(** One handler writes a line at the end of its file. *)
Definition append_line {A} (l : A) (fs : Files A) (p : string) : Files A :=
  fun q => if String.eqb q p then Some (rows (fs q) ++ [l])%list else fs q.

(** A logger passes a record to each of its handlers, in the order they
    were added. *)
Definition handle {A} (l : A) (handlers : list string) (fs : Files A)
  : Files A :=
  fold_left (append_line l) handlers fs.

Section Simulator.

Context {F : Type} {PF : PyFloat F}.

(** [max(a, b)] of Python: the first argument unless the second is
    greater. *)
Definition pymax (a b : F) : F := if flt a b then b else a.

Definition ERROR_PROBABILITY : F := truediv 1 100.

(** A line of the metrics sink: the header, or
    [f"{ts},{filename},{ext},{size},{elapsed:.3f}"]. *)
Inductive MetricsLine : Type :=
| Header
| EventRow (ts filename ext : string) (size : Z) (elapsed : F).

(** What the process does to the outside and its reads of the flag, in the
    order it does them.  [MetricsWrite] and [ErrorsWrite] are the records
    given to the two loggers, [OpenWrite] is [open(full, "wb")], which
    makes the file or empties it, [WriteFile] the bytes written to it,
    [Sleep] a call of [time.sleep]. *)
Inductive Effect : Type :=
| Makedirs (path : string)
| OpenAppend (path : string)
| MetricsWrite (l : MetricsLine)
| ErrorsWrite (r : ErrorRow)
| OpenWrite (full : string)
| WriteFile (full : string) (size : Z)
| Monotonic (t : F)
| Sleep (d : F)
| ReadStop (b : bool).

(** What the outside answers.  [ticks] of the world numbers the calls to
    the clocks, the random generator and the file system; [checks]
    numbers the reads of [stop_requested]. *)
Record Env : Type := {
  monotonic_at : nat -> F;          (* time.monotonic() *)
  utcnow_at : nat -> string;        (* datetime.utcnow().isoformat() *)
  time_ms_at : nat -> Z;            (* int(time.time() * 1000) *)
  getpid : Z;                       (* os.getpid() *)
  random_at : nat -> Z;             (* raw output of the generator *)
  io_error_at : nat -> option IOFailure;
                                    (* open/write of an artifact fails *)
  sleep_error : F -> option exn;    (* time.sleep refuses the duration *)
  signal_at : nat -> bool           (* SIGINT/SIGTERM arrives before this
                                       read of the flag *)
}.

(** The state of the process and of its log files: the file handlers of
    the two loggers, in the order they were added, the metrics and error
    files, the global flag, the counters and the effects so far. *)
Record World : Type := {
  metrics_handlers : list string;
  errors_handlers : list string;
  metrics_log : Files MetricsLine;
  errors_log : Files ErrorRow;
  stop_requested : bool;
  ticks : nat;
  checks : nat;
  trace : list Effect
}.

Definition emit_effect (e : Effect) (w : World) : World :=
  {| metrics_handlers := metrics_handlers w;
     errors_handlers := errors_handlers w;
     metrics_log := metrics_log w; errors_log := errors_log w;
     stop_requested := stop_requested w; ticks := ticks w;
     checks := checks w; trace := trace w ++ [e] |}.

Definition set_metrics (hs : list string) (m : Files MetricsLine)
           (w : World) : World :=
  {| metrics_handlers := hs; errors_handlers := errors_handlers w;
     metrics_log := m; errors_log := errors_log w;
     stop_requested := stop_requested w; ticks := ticks w;
     checks := checks w; trace := trace w |}.

Definition set_errors (hs : list string) (m : Files ErrorRow)
           (w : World) : World :=
  {| metrics_handlers := metrics_handlers w; errors_handlers := hs;
     metrics_log := metrics_log w; errors_log := m;
     stop_requested := stop_requested w; ticks := ticks w;
     checks := checks w; trace := trace w |}.

Definition next_tick (w : World) : World :=
  {| metrics_handlers := metrics_handlers w;
     errors_handlers := errors_handlers w;
     metrics_log := metrics_log w; errors_log := errors_log w;
     stop_requested := stop_requested w; ticks := S (ticks w);
     checks := checks w; trace := trace w |}.

Definition next_check (w : World) : World :=
  {| metrics_handlers := metrics_handlers w;
     errors_handlers := errors_handlers w;
     metrics_log := metrics_log w; errors_log := errors_log w;
     stop_requested := stop_requested w; ticks := ticks w;
     checks := S (checks w); trace := trace w |}.

(** [_handle_signal]: [stop_requested = True]. *)
Definition _handle_signal (w : World) : World :=
  {| metrics_handlers := metrics_handlers w;
     errors_handlers := errors_handlers w;
     metrics_log := metrics_log w; errors_log := errors_log w;
     stop_requested := true; ticks := ticks w;
     checks := checks w; trace := trace w |}.

(** *** The monad: state, and exceptions that keep the state *)

Definition M (A : Type) : Type := World -> (exn + A) * World.

Definition ret {A} (a : A) : M A := fun w => (inr a, w).

Definition bind {A B} (c : M A) (k : A -> M B) : M B :=
  fun w =>
    match c w with
    | (inr a, w') => k a w'
    | (inl e, w') => (inl e, w')
    end.

Definition raise {A} (e : exn) : M A := fun w => (inl e, w).

(** [try: c  except Exception as e: h e] *)
Definition try_except {A} (c : M A) (h : exn -> M A) : M A :=
  fun w =>
    match c w with
    | (inl e, w') => h e w'
    | (inr a, w') => (inr a, w')
    end.

Definition lift {A} (r : exn + A) : M A := fun w => (r, w).

Definition emit (e : Effect) : M unit := fun w => (inr tt, emit_effect e w).

Definition tick : M nat := fun w => (inr (ticks w), next_tick w).

End Simulator.

Arguments MetricsLine F : clear implicits.
Arguments Effect F : clear implicits.
Arguments Env F : clear implicits.
Arguments World F : clear implicits.
Arguments M F A : clear implicits.

Declare Scope py_scope.
Delimit Scope py_scope with py.
Notation "x <- c ;; k" := (bind c (fun x => k))
  (at level 61, c at next level, right associativity) : py_scope.
Notation "' p <- c ;; k" := (bind c (fun x => let p := x in k))
  (at level 61, p pattern, c at next level, right associativity) : py_scope.
Notation "c ;; k" := (bind c (fun _ => k))
  (at level 61, right associativity) : py_scope.
Local Open Scope py_scope.

(** ** The functions of [init.py] *)

Section Program.

Context {F : Type} {PF : PyFloat F} (env : Env F).

(** *** Calls to the outside *)

(** [time.monotonic()] *)
Definition monotonic : M F F :=
  n <- tick ;;
  let t := monotonic_at env n in
  emit (Monotonic t) ;;
  ret t.

(** [time.sleep(d)]: the call raises when the timer refuses [d], and
    returns once [d] has passed otherwise. *)
Definition sleep (d : F) : M F unit :=
  emit (Sleep d) ;;
  match sleep_error env d with
  | Some e => raise e
  | None => ret tt
  end.

(** [datetime.utcnow().isoformat()] *)
Definition utcnow_isoformat : M F string :=
  n <- tick ;; ret (utcnow_at env n).

(** The generator of [random]: each call draws one raw output. *)
Definition random_raw : M F Z :=
  n <- tick ;; ret (random_at env n).

(** [random.random()]: a multiple of 2^-53 in the interval from 0 to 1. *)
Definition random_random : M F F :=
  r <- random_raw ;; ret (truediv (r mod 2 ^ 53) (2 ^ 53)).

(** [random.randint(a, b)]: a <= N <= b. *)
Definition randint (a b : Z) : M F Z :=
  r <- random_raw ;; ret (a + r mod (b - a + 1)).

(** [random.choice(seq)] *)
Definition choice (seq : list string) : M F string :=
  r <- random_raw ;;
  ret (nth (Z.to_nat (r mod Z.of_nat (List.length seq))) seq "").

(** [random.getrandbits(k)] *)
Definition getrandbits (k : Z) : M F Z :=
  r <- random_raw ;; ret (r mod 2 ^ k).

(** [with open(full, "wb") as f: f.write(os.urandom(size))]: [open] makes
    the file, or empties it, before anything is written. *)
Definition write_random_bytes (full : string) (size : Z) : M F unit :=
  n <- tick ;;
  match io_error_at env n with
  | Some (OpenFails e) => raise e
  | Some (WriteFails e) => emit (OpenWrite full) ;; raise e
  | None => emit (OpenWrite full) ;; emit (WriteFile full size)
  end.

(** [logging.FileHandler(path)] and [addHandler] on the metrics / errors
    logger: the file is opened for appending, hence made when absent, and
    the logger has one handler more. *)
Definition open_metrics_handler (path : string) : M F unit :=
  fun w =>
    (inr tt,
     emit_effect (OpenAppend path)
       (set_metrics (metrics_handlers w ++ [path])%list
                    (open_append path (metrics_log w)) w)).

Definition open_errors_handler (path : string) : M F unit :=
  fun w =>
    (inr tt,
     emit_effect (OpenAppend path)
       (set_errors (errors_handlers w ++ [path])%list
                   (open_append path (errors_log w)) w)).

(** [logger.info(line)]: every handler of the logger writes the line. *)
Definition logger_info (l : MetricsLine F) : M F unit :=
  fun w =>
    (inr tt,
     emit_effect (MetricsWrite l)
       (set_metrics (metrics_handlers w)
                    (handle l (metrics_handlers w) (metrics_log w)) w)).

(** [err_logger.warning(row)] *)
Definition err_logger_warning (r : ErrorRow) : M F unit :=
  fun w =>
    (inr tt,
     emit_effect (ErrorsWrite r)
       (set_errors (errors_handlers w)
                   (handle r (errors_handlers w) (errors_log w)) w)).

(** A read of the global [stop_requested]; a signal that arrived since the
    last read has run [_handle_signal] first. *)
Definition read_stop_requested : M F bool :=
  fun w =>
    let w1 := if signal_at env (checks w) then _handle_signal w else w in
    (inr (stop_requested w1),
     emit_effect (ReadStop (stop_requested w1)) (next_check w1)).

(** *** [_ensure_dirs] *)

Definition _ensure_dirs (base_path : string) : M F (string * string) :=
  let input_path := path_join base_path "input" in
  let logs_path := path_join base_path "logs" in
  emit (Makedirs input_path) ;;
  emit (Makedirs logs_path) ;;
  ret (input_path, logs_path).

(** *** [_setup_logging] *)

Definition _setup_logging (logs_path : string) : M F unit :=
  let metrics_file := path_join logs_path "metrics.log" in
  let errors_file := path_join logs_path "errors.log" in
  open_metrics_handler metrics_file ;;
  open_errors_handler errors_file ;;
  fun w =>
    match metrics_log w metrics_file with
    | Some (_ :: _) => (inr tt, w)
    | _ => logger_info Header w
    end.

(** *** [_random_size] *)

Definition _random_size (max_size : Z) : M F Z :=
  if 1 <? max_size then randint 1 max_size else ret 1.

(** *** [_create_file] *)

Definition _create_file (path ext : string) (size : Z)
  : M F (string * string) :=
  timestamp <- (n <- tick ;; ret (time_ms_at env n)) ;;
  let pid := getpid env in
  bits <- getrandbits 20 ;;
  let unique := str_int timestamp ++ "-" ++ str_int pid ++ "-"
                ++ str_int bits in
  let filename := unique ++ ext in
  let full := path_join path filename in
  write_random_bytes full size ;;
  ret (filename, full).

(** *** [run_simulator] *)

(** The [try] block of one event. *)
Definition event_try (input_path : string) (start_cycle : F)
  : M F unit :=
  x <- random_random ;;
  (if flt x ERROR_PROBABILITY
   then raise (RuntimeError "Error simulado: fallo de escritura en disco")
   else ret tt) ;;
  size <- _random_size MAX_SIZE ;;
  ext <- choice EXTENSIONS ;;
  ' (filename, fullpath) <- _create_file input_path ext size ;;
  now <- monotonic ;;
  let elapsed := fsub now start_cycle in
  ts <- utcnow_isoformat ;;
  logger_info (EventRow (ts ++ "Z") filename ext size elapsed).

(** Its [except Exception as e] handler. *)
Definition event_except (i : Z) (e : exn) : M F unit :=
  ts <- utcnow_isoformat ;;
  err_logger_warning
    {| err_ts := ts ++ "Z"; err_index := i;
       err_description := str_exn e |}.

Definition attempt (input_path : string) (start_cycle : F) (i : Z)
  : M F unit :=
  try_except (event_try input_path start_cycle) (event_except i).

(** The body of [for i in range(cantidad)]. *)
Definition event_iteration (input_path : string) (interval start_cycle : F)
           (i : Z) : M F Flow :=
  stop <- read_stop_requested ;;
  if (stop : bool) then ret Return else
  attempt input_path start_cycle i ;;
  let sleep_until := fadd start_cycle (fmul (of_int (i + 1)) interval) in
  now <- monotonic ;;
  let to_sleep := fsub sleep_until now in
  (if flt (of_int 0) to_sleep then sleep to_sleep else ret tt) ;;
  stop <- read_stop_requested ;;
  if (stop : bool) then ret Return else ret Continue.

(** [for i in range(n)] from index [i], with the early [return]. *)
Fixpoint for_range (n : nat) (i : Z) (body : Z -> M F Flow) : M F Flow :=
  match n with
  | O => ret Continue
  | S n' =>
      r <- body i ;;
      match r with
      | Return => ret Return
      | Continue => for_range n' (i + 1) body
      end
  end.

(** One pass of [while True] up to the [break]: the cycle. *)
Definition cycle (input_path : string) (interval : F) (cantidad : Z)
  : M F (F * Flow) :=
  start_cycle <- monotonic ;;
  r <- for_range (Z.to_nat cantidad) 0
                 (event_iteration input_path interval start_cycle) ;;
  ret (start_cycle, r).

(** [while True], for at most [fuel] cycles. *)
Fixpoint while_true (fuel : nat) (input_path : string) (interval : F)
         (total_seconds cantidad : Z) (loop : bool) : M F Outcome :=
  match fuel with
  | O => ret OutOfFuel
  | S fuel' =>
      ' (start_cycle, r) <- cycle input_path interval cantidad ;;
      match r with
      | Return => ret Returned
      | Continue =>
          if negb loop then ret Returned else
          now <- monotonic ;;
          let elapsed_cycle := fsub now start_cycle in
          let idle := pymax (of_int 0)
                            (fsub (of_int total_seconds) elapsed_cycle) in
          (if flt (of_int 0) idle then sleep idle else ret tt) ;;
          while_true fuel' input_path interval total_seconds cantidad loop
      end
  end.

(** [interval], as the two assignments compute it. *)
Definition interval_of (total_seconds cantidad : Z) : F :=
  let interval := if 0 <? cantidad
                  then truediv total_seconds cantidad
                  else of_int total_seconds in
  pymax interval (of_int 0).

Definition run_simulator (fuel : nat) (tiempo : string) (cantidad : Z)
           (base_path : string) (loop : bool) : M F Outcome :=
  ' (input_path, logs_path) <- _ensure_dirs base_path ;;
  _setup_logging logs_path ;;
  total_seconds <- lift (_parse_tiempo tiempo) ;;
  if cantidad <=? 0 then raise InvalidCount else
  let interval := interval_of total_seconds cantidad in
  while_true fuel input_path interval total_seconds cantidad loop.

End Program.

(** ** Exact arithmetic as an instance, to run the model *)

Definition Qlt_bool (a b : Q) : bool := negb (Qle_bool b a).

Lemma Qlt_bool_irrefl (x : Q) : Qlt_bool x x = false.
Proof.
  unfold Qlt_bool. apply negb_false_iff, Qle_bool_iff, Qle_refl.
Qed.

#[export] Instance PyFloat_Q : PyFloat Q := {|
  of_int := inject_Z;
  truediv := fun a b => Qdiv (inject_Z a) (inject_Z b);
  fadd := Qplus;
  fsub := Qminus;
  fmul := Qmult;
  flt := Qlt_bool;
  flt_irrefl := Qlt_bool_irrefl
|}.

(** The timer of CPython holds 2^63 - 1 nanoseconds: [time.sleep] raises
    [OverflowError] on a longer duration. *)
Definition timer_limit : Q := 9223372036854775807 # 1000000000.

Definition timer_error (d : Q) : option exn :=
  if Qlt_bool timer_limit d then Some SleepOverflow else None.

(** A world before the first call in a process: the loggers have no
    handler, there is no log file, the flag is down. *)
Definition fresh_world {F : Type} : World F :=
  {| metrics_handlers := []; errors_handlers := [];
     metrics_log := fun _ => None; errors_log := fun _ => None;
     stop_requested := false; ticks := 0; checks := 0; trace := [] |}.

(** An outside where no creation fails and no signal arrives: the clock
    advances one second per reading, every raw random output is [r]. *)
Definition quiet_env (r : Z) : Env Q :=
  {| monotonic_at := fun n => inject_Z (Z.of_nat n);
     utcnow_at := fun _ => "2024-01-01T00:00:00";
     time_ms_at := fun _ => 1704067200000;
     getpid := 4242;
     random_at := fun _ => r;
     io_error_at := fun _ => None;
     sleep_error := timer_error;
     signal_at := fun _ => false |}.

(** An outside for a burst of events: the clock advances by 10 microseconds
    per reading, the wall clock stays within one millisecond, every raw
    random output is 2^52 (so [random.random()] is 0.5 and the 20 bits are
    0), no creation fails, and a signal arrives before read number [c] of
    the flag. *)
Definition burst_env (c : nat) : Env Q :=
  {| monotonic_at := fun n => Z.of_nat n # 100000;
     utcnow_at := fun _ => "2024-01-01T00:00:00";
     time_ms_at := fun _ => 1704067200000;
     getpid := 4242;
     random_at := fun _ => 2 ^ 52;
     io_error_at := fun _ => None;
     sleep_error := timer_error;
     signal_at := fun n => Nat.eqb n c |}.

(** ** Observations on a trace *)

Section Observations.

Context {F : Type}.

(** An Event or Error record given to its logger. *)
Definition is_record (e : Effect F) : bool :=
  match e with
  | MetricsWrite (EventRow _ _ _ _ _) => true
  | ErrorsWrite _ => true
  | _ => false
  end.

(** The file of an artifact made. *)
Definition is_creation (e : Effect F) : bool :=
  match e with
  | OpenWrite _ => true
  | _ => false
  end.

(** The content of an artifact written. *)
Definition is_written (e : Effect F) : bool :=
  match e with
  | WriteFile _ _ => true
  | _ => false
  end.

Definition n_records (t : list (Effect F)) : nat :=
  List.length (filter is_record t).

Definition n_created (t : list (Effect F)) : nat :=
  List.length (filter is_creation t).

Definition n_written (t : list (Effect F)) : nat :=
  List.length (filter is_written t).

(** Size and tag of what is emitted. *)
Definition size_ok (size : Z) : Prop := 1 <= size <= MAX_SIZE.

Definition tagged (name : string) : Prop :=
  exists stem ext, In ext EXTENSIONS /\ name = stem ++ ext.

Definition effect_ok (e : Effect F) : Prop :=
  match e with
  | OpenWrite full => tagged full
  | WriteFile full size => size_ok size /\ tagged full
  | MetricsWrite (EventRow _ filename ext size _) =>
      size_ok size /\ In ext EXTENSIONS /\
      exists stem, filename = stem ++ ext
  | _ => True
  end.

End Observations.

(** ** Notions used to state the properties of the loop *)

(** The identifier [_create_file] builds: [f"{timestamp}-{pid}-{bits}{ext}"]. *)
Definition identifier (timestamp pid bits : Z) (ext : string) : string :=
  (str_int timestamp ++ "-" ++ str_int pid ++ "-" ++ str_int bits) ++ ext.

Fixpoint digits_only (s : string) : bool :=
  match s with
  | EmptyString => true
  | String c s' => PyStr.is_digit c && digits_only s'
  end.

(** The path an artifact was written to. *)
Definition creation_paths {F : Type} (t : list (Effect F)) : list string :=
  flat_map (fun e => match e with WriteFile full _ => [full] | _ => [] end) t.

(** The two log files of a base directory. *)
Definition metrics_file_of (base_path : string) : string :=
  path_join (path_join base_path "logs") "metrics.log".

Definition errors_file_of (base_path : string) : string :=
  path_join (path_join base_path "logs") "errors.log".

(** The number of handlers a logger has on the file [q]. *)
Definition copies (q : string) (handlers : list string) : nat :=
  List.length (filter (String.eqb q) handlers).

(** What these handlers write of the records [ls]: each record once per
    handler. *)
Definition copied {A} (k : nat) (ls : list A) : list A :=
  flat_map (fun l => repeat l k) ls.

Section Notions.

Context {F : Type} {PF : PyFloat F} (env : Env F).

(** What the next read of the flag returns. *)
Definition flag_at (w : World F) : bool :=
  stop_requested w || signal_at env (checks w).

(** The try block that starts in [w] takes the branch of the simulated
    failure: its first call to the outside is [random.random()]. *)
Definition simulated_failure (w : World F) : bool :=
  flt (truediv (random_at env (ticks w) mod 2 ^ 53) (2 ^ 53))
      ERROR_PROBABILITY.

(** The way, if any, in which the creation of the artifact fails in the
    try block that starts in [w]: the sixth call to the outside, after
    [random], [randint], [choice], [time] and [getrandbits]. *)
Definition creation_failure (w : World F) : option IOFailure :=
  io_error_at env (5 + ticks w).

(** How the try block that starts in [w] fails, if it does: the exception
    it raises, and whether [open] has made the file of the artifact by
    then. *)
Definition try_failure (w : World F) : option (exn * bool) :=
  if simulated_failure w
  then Some (RuntimeError "Error simulado: fallo de escritura en disco",
             false)
  else match creation_failure w with
       | Some (OpenFails e) => Some (e, false)
       | Some (WriteFails e) => Some (e, true)
       | None => None
       end.

(** The effects of a successful event. *)
Definition event_effects (input_path : string) (delta : list (Effect F))
  : Prop :=
  exists full filename ext size t ts elapsed,
    delta = [OpenWrite full; WriteFile full size; Monotonic t;
             MetricsWrite (EventRow ts filename ext size elapsed)]
    /\ size_ok size /\ In ext EXTENSIONS
    /\ (exists stem, filename = (stem ++ ext)%string)
    /\ full = path_join input_path filename.

(** The effects of an event that fails: the Error record, after the file
    that [open] has made when the failure came later. *)
Definition error_effects (input_path : string) (i : Z)
           (delta : list (Effect F)) : Prop :=
  exists ts description,
    let row := {| err_ts := ts; err_index := i;
                  err_description := description |} in
    delta = [ErrorsWrite row]
    \/ exists filename,
         tagged filename
         /\ delta = [OpenWrite (path_join input_path filename);
                     ErrorsWrite row].

(** The effects of an event whose try block raises [e]: one Error record
    with the index of the event and [str(e)]. *)
Definition failure_effects (input_path : string) (i : Z) (e : exn)
           (made : bool) (delta : list (Effect F)) : Prop :=
  exists ts,
    let row := {| err_ts := ts; err_index := i;
                  err_description := str_exn e |} in
    if made
    then exists filename,
           tagged filename
           /\ delta = [OpenWrite (path_join input_path filename);
                       ErrorsWrite row]
    else delta = [ErrorsWrite row].


(** The effects an attempt can have. *)
Definition any_attempt (input_path : string) (i : Z) (d : list (Effect F))
  : Prop :=
  error_effects input_path i d \/ event_effects input_path d.

(** The flag is up, or goes up by the read number [c] from here. *)
Definition flagged_by (w : World F) (c : nat) : Prop :=
  stop_requested w = true \/ signal_at env (checks w + c) = true.

(** What [_ensure_dirs] and [_setup_logging] leave behind. *)
Definition setup_effects (base_path : string) (w : World F)
  : list (Effect F) :=
  [Makedirs (path_join base_path "input");
   Makedirs (path_join base_path "logs");
   OpenAppend (metrics_file_of base_path);
   OpenAppend (errors_file_of base_path)]
  ++ match metrics_log w (metrics_file_of base_path) with
     | Some (_ :: _) => []
     | _ => [MetricsWrite Header]
     end.

Definition setup_world (base_path : string) (w : World F) : World F :=
  snd ((' (input_path, logs_path) <- _ensure_dirs base_path ;;
        _setup_logging logs_path) w).

(** The execution that ends in [w'] with [o] was ended by [time.sleep]:
    the last thing it did is a call of [time.sleep] on a duration the
    timer refuses, and [o] is what that call raised. *)
Definition sleep_raised {A} (o : exn + A) (w' : World F) : Prop :=
  exists e d t,
    o = inl e /\ sleep_error env d = Some e /\ trace w' = (t ++ [Sleep d])%list.

End Notions.

Local Open Scope list_scope.

(** ** The schedule of the spec

    [interval] is the quotient of the total time by the number of events,
    and 0 when that is below 0.  The event [i] of a cycle, counted from 0,
    is to be over [i + 1] intervals after the start of the cycle: when it
    is over, the clock is read, and what is left until then is slept, if
    anything is left. *)

Section Schedule.

Context {F : Type} {PF : PyFloat F} (env : Env F).

Definition spec_interval (total_seconds cantidad : Z) : F :=
  let quotient := truediv total_seconds cantidad in
  if flt quotient (of_int 0) then of_int 0 else quotient.

(** What the attempt of the event [i] can do. *)
Variable att : Z -> list (Effect F) -> Prop.
Variables start_cycle interval : F.

Definition sleep_until (i : Z) : F :=
  fadd start_cycle (fmul (of_int (i + 1)) interval).

Definition pause (i : Z) (now : F) : list (Effect F) :=
  if flt (of_int 0) (fsub (sleep_until i) now)
  then [Sleep (fsub (sleep_until i) now)]
  else [].

(** What the events of a cycle from the event [i] on, [n] of them, do, and
    how they end: all done ([Continue]), the flag found up at the start of
    an event or after its pause ([Return]), or a pause that [time.sleep]
    refuses. *)
Inductive paced : Z -> nat -> list (Effect F) -> exn + Flow -> Prop :=
| paced_done (i : Z) : paced i 0 [] (inr Continue)
| paced_stopped (i : Z) (n : nat) :
    paced i (S n) [ReadStop true] (inr Return)
| paced_refused (i : Z) (n : nat) (d : list (Effect F)) (now : F)
                (e : exn) :
    att i d ->
    flt (of_int 0) (fsub (sleep_until i) now) = true ->
    sleep_error env (fsub (sleep_until i) now) = Some e ->
    paced i (S n)
          (ReadStop false :: d
           ++ [Monotonic now; Sleep (fsub (sleep_until i) now)])
          (inl e)
| paced_interrupted (i : Z) (n : nat) (d : list (Effect F)) (now : F) :
    att i d ->
    paced i (S n)
          (ReadStop false :: d
           ++ Monotonic now :: pause i now ++ [ReadStop true])
          (inr Return)
| paced_event (i : Z) (n : nat) (d : list (Effect F)) (now : F)
              (rest : list (Effect F)) (o : exn + Flow) :
    att i d ->
    paced (i + 1) n rest o ->
    paced i (S n)
          (ReadStop false :: d
           ++ Monotonic now :: pause i now ++ ReadStop false :: rest)
          o.

End Schedule.

(** ** Notions used to state further properties *)

(** A character that is neither a word character nor white space. *)
Definition separator (c : ascii) : Prop :=
  PyStr.is_word c = false /\ PyStr.is_space c = false.

(** An outside like [quiet_env] in which every creation of an artifact
    fails in the write: the disk is full. *)
Definition failing_env (r : Z) : Env Q :=
  {| monotonic_at := fun n => inject_Z (Z.of_nat n);
     utcnow_at := fun _ => "2024-01-01T00:00:00";
     time_ms_at := fun _ => 1704067200000;
     getpid := 4242;
     random_at := fun _ => r;
     io_error_at :=
       fun _ => Some (WriteFails (OSError "No space left on device"));
     sleep_error := timer_error;
     signal_at := fun _ => false |}.

(** An outside like [quiet_env] in which every creation of an artifact
    fails in [open]: the directory cannot be written to. *)
Definition closed_env (r : Z) : Env Q :=
  {| monotonic_at := fun n => inject_Z (Z.of_nat n);
     utcnow_at := fun _ => "2024-01-01T00:00:00";
     time_ms_at := fun _ => 1704067200000;
     getpid := 4242;
     random_at := fun _ => r;
     io_error_at := fun _ => Some (OpenFails (OSError "Permission denied"));
     sleep_error := timer_error;
     signal_at := fun _ => false |}.

Section Shapes.

Context {F : Type} {PF : PyFloat F}.

(** The records given to the metrics logger, and to the error logger, in a
    trace. *)
Definition metrics_lines (t : list (Effect F)) : list (MetricsLine F) :=
  flat_map (fun e => match e with MetricsWrite l => [l] | _ => [] end) t.

Definition error_rows (t : list (Effect F)) : list ErrorRow :=
  flat_map (fun e => match e with ErrorsWrite r => [r] | _ => [] end) t.

Definition is_event_row (l : MetricsLine F) : bool :=
  match l with EventRow _ _ _ _ _ => true | Header => false end.

(** [w'] is [w] after the effects [d]: the trace has grown by [d], the
    loggers have the handlers they had, and every log file has grown by
    the records of [d] for its logger, each written once by each handler
    on the file. *)
Definition extends (w w' : World F) (d : list (Effect F)) : Prop :=
  trace w' = trace w ++ d
  /\ metrics_handlers w' = metrics_handlers w
  /\ errors_handlers w' = errors_handlers w
  /\ (forall q, rows (metrics_log w' q)
                = rows (metrics_log w q)
                  ++ copied (copies q (metrics_handlers w)) (metrics_lines d))
  /\ (forall q, rows (errors_log w' q)
                = rows (errors_log w q)
                  ++ copied (copies q (errors_handlers w)) (error_rows d)).

(** What one step of the loop adds to the trace: a read of the flag, a
    reading of the clock, a sleep of a positive time, or the effects of the
    attempt of an event whose index is from [lo] up to [hi]; [att] says what
    the effects of an attempt can be. *)
Inductive chunk (att : Z -> list (Effect F) -> Prop) (lo hi : Z)
  : list (Effect F) -> Prop :=
| chunk_read (b : bool) : chunk att lo hi [ReadStop b]
| chunk_clock (t : F) : chunk att lo hi [Monotonic t]
| chunk_sleep (d : F) : flt (of_int 0) d = true -> chunk att lo hi [Sleep d]
| chunk_attempt (i : Z) (d : list (Effect F)) :
    lo <= i < hi -> att i d -> chunk att lo hi d.

Inductive shaped (att : Z -> list (Effect F) -> Prop) (lo hi : Z)
  : list (Effect F) -> Prop :=
| shaped_nil : shaped att lo hi []
| shaped_cons (d1 d2 : list (Effect F)) :
    chunk att lo hi d1 -> shaped att lo hi d2 -> shaped att lo hi (d1 ++ d2).

(** [w'] comes after [w]: the world has grown by steps of the loop. *)
Definition grows (att : Z -> list (Effect F) -> Prop) (lo hi : Z)
           (w w' : World F) : Prop :=
  exists delta, shaped att lo hi delta /\ extends w w' delta.

End Shapes.

Section Outsides.

Context {F : Type} {PF : PyFloat F} (env : Env F).

(** An outside in which no attempt fails: [random.random()] never falls
    below [ERROR_PROBABILITY] and no creation fails. *)
Definition never_fails : Prop :=
  forall n,
    flt (truediv (random_at env n mod 2 ^ 53) (2 ^ 53)) ERROR_PROBABILITY
    = false
    /\ io_error_at env n = None.



(** An outside in which no signal ever arrives. *)
Definition no_signal : Prop := forall n, signal_at env n = false.

End Outsides.

Section RunNotions.

Context {F : Type} {PF : PyFloat F}.

(** The metrics file [p] once [_setup_logging] has run for it: what it
    was, or, when it was missing or empty, the header row, as each handler
    on the file has written it. *)
Definition metrics_after_setup (w : World F) (p : string)
  : list (MetricsLine F) :=
  match metrics_log w p with
  | Some (l :: ls) => l :: ls
  | _ => repeat Header (S (copies p (metrics_handlers w)))
  end.

(** [time.sleep] is given a positive time. *)
Definition sleep_positive (e : Effect F) : Prop :=
  match e with
  | Sleep d => flt (of_int 0) d = true
  | _ => True
  end.

(** The position of a record among the records of a trace, and the index
    an Error record carries. *)
Definition records (t : list (Effect F)) : list (Effect F) :=
  filter is_record t.

End RunNotions.

(** * Properties

    ** The duration parser *)

Section ParserFacts.

Import PyStr Regex.

Lemma sum_seconds_cons t (l : list (list ascii * Z)) :
  sum_seconds (t :: l) = token_seconds t + sum_seconds l.
Proof. reflexivity. Qed.

Lemma fold_left_add_matches (s : list ascii) (p : string * Z) (total : Z) :
  add_matches s total p
  = total + sum_seconds (map (fun v => (v, snd p)) (findall (fst p) s)).
Proof.
  unfold add_matches.
  generalize (findall (fst p) s) as l. intros l. revert total.
  induction l as [|v l IH]; intros total; cbn [fold_left map].
  - cbn. lia.
  - rewrite IH, sum_seconds_cons. unfold token_seconds. cbn [fst snd]. lia.
Qed.

Lemma sum_seconds_app (l1 l2 : list (list ascii * Z)) :
  sum_seconds (l1 ++ l2) = sum_seconds l1 + sum_seconds l2.
Proof.
  induction l1 as [|t l1 IH]; [reflexivity|].
  cbn [List.app]. rewrite !sum_seconds_cons, IH. lia.
Qed.

Lemma total_of_tokens (tiempo_str : string) :
  total_of (normalize tiempo_str) = sum_seconds (tokens tiempo_str).
Proof.
  unfold total_of, tokens.
  set (s := normalize tiempo_str).
  assert (G : forall ps acc,
             fold_left (add_matches s) ps acc
             = acc + sum_seconds
                       (flat_map (fun p => map (fun v => (v, snd p))
                                               (findall (fst p) s)) ps)).
  { induction ps as [|p ps IH]; intros acc; simpl.
    - lia.
    - rewrite IH, fold_left_add_matches, sum_seconds_app. lia. }
  rewrite G. lia.
Qed.

(** The captured group is made of digits. *)

Lemma run_length_firstn (p : ascii -> bool) (s : list ascii) (k : nat) :
  (k <= run_length p s)%nat -> Forall (fun c => p c = true) (firstn k s).
Proof.
  revert k. induction s as [|c s IH]; intros k Hk.
  - rewrite firstn_nil. constructor.
  - destruct k as [|k]; [constructor|].
    simpl in *. destruct (p c) eqn:E; [|lia].
    constructor; [assumption | apply IH; lia].
Qed.

Lemma try_digits_prefix (key s : list ascii) (k : nat) v n :
  try_digits key s k = Some (v, n) ->
  exists k', (k' <= k)%nat /\ v = firstn k' s.
Proof.
  induction k as [|k IH]; simpl; [discriminate|].
  destruct (try_spaces _ _ _ _).
  - intros [= <- _]. exists (S k). split; [lia | reflexivity].
  - intros H. destruct (IH H) as (k' & Hk' & ->). exists k'. split; [lia | reflexivity].
Qed.

Lemma match_here_digits (key s : list ascii) v n :
  match_here key s = Some (v, n) -> Forall (fun c => is_digit c = true) v.
Proof.
  unfold match_here. intros H.
  destruct (try_digits_prefix _ _ _ _ _ H) as (k' & Hk' & ->).
  now apply run_length_firstn.
Qed.

Lemma findall_from_digits (key : list ascii) (s : list ascii) (skip : nat) :
  Forall (Forall (fun c => is_digit c = true)) (findall_from key skip s).
Proof.
  revert skip. induction s as [|c s IH]; intros skip; simpl.
  - constructor.
  - destruct skip as [|k]; [|apply IH].
    destruct (match_here key (c :: s)) as [[v n]|] eqn:E; [|apply IH].
    constructor; [eapply match_here_digits; eassumption | apply IH].
Qed.

Lemma int_of_digits_nonneg (v : list ascii) :
  Forall (fun c => is_digit c = true) v -> 0 <= int_of_digits v.
Proof.
  unfold int_of_digits.
  assert (G : forall acc, 0 <= acc ->
            Forall (fun c => is_digit c = true) v ->
            0 <= fold_left (fun a c => 10 * a + (code c - 48)) v acc).
  { induction v as [|c v IH]; intros acc Hacc Hv; cbn [fold_left]; [assumption|].
    inversion Hv as [|? ? Hc Hv']; subst.
    apply IH; [|assumption].
    unfold is_digit, between in Hc. apply andb_true_iff in Hc.
    destruct Hc as [H1 H2]. apply Z.leb_le in H1, H2. lia. }
  apply G. lia.
Qed.

(** Every token carries a multiplier of the table and a quantity made of
    digits. *)
Lemma tokens_shape (tiempo_str : string) :
  Forall (fun t => (snd t = 3600 \/ snd t = 60)
                   /\ Forall (fun c => is_digit c = true) (fst t))
         (tokens tiempo_str).
Proof.
  unfold tokens. apply Forall_forall. intros t Ht.
  apply in_flat_map in Ht. destruct Ht as (p & Hp & Ht).
  apply in_map_iff in Ht. destruct Ht as (v & <- & Hv). simpl. split.
  - unfold patterns in Hp. simpl in Hp.
    destruct Hp as [<-|[<-|[<-|[<-|[]]]]]; simpl; auto.
  - pose proof (findall_from_digits (list_ascii_of_string (fst p))
                                    (normalize tiempo_str) 0) as G.
    rewrite Forall_forall in G. apply G. exact Hv.
Qed.

Lemma token_seconds_60 t :
  (snd t = 3600 \/ snd t = 60) ->
  Forall (fun c => is_digit c = true) (fst t) ->
  exists k, 0 <= k /\ token_seconds t = 60 * k
            /\ (k = 0 <-> int_of_digits (fst t) = 0).
Proof.
  intros Hm Hd. apply int_of_digits_nonneg in Hd. unfold token_seconds.
  destruct Hm as [-> | ->].
  - exists (60 * int_of_digits (fst t)). lia.
  - exists (int_of_digits (fst t)). lia.
Qed.

Lemma sum_seconds_60 (tiempo_str : string) :
  exists k, 0 <= k /\ sum_seconds (tokens tiempo_str) = 60 * k
            /\ (k = 0 <-> Forall (fun t => int_of_digits (fst t) = 0)
                                 (tokens tiempo_str)).
Proof.
  pose proof (tokens_shape tiempo_str) as G.
  induction G as [|t l [Hm Hd] _ IH].
  - exists 0. split; [lia|]. split; [reflexivity|]. split; [constructor | reflexivity].
  - destruct IH as (k & Hk & Hs & Hz).
    destruct (token_seconds_60 t Hm Hd) as (k1 & Hk1 & Hs1 & Hz1).
    exists (k1 + k). split; [lia|]. split.
    + rewrite sum_seconds_cons, Hs, Hs1. lia.
    + split.
      * intros E. constructor; [apply Hz1 | apply Hz]; lia.
      * intros E. inversion E as [|? ? E1 E2]; subst.
        apply Hz1 in E1. apply Hz in E2. lia.
Qed.

Lemma parse_by_tokens (tiempo_str : string) :
  _parse_tiempo tiempo_str
  = if sum_seconds (tokens tiempo_str) =? 0 then inl InvalidFormat
    else inr (sum_seconds (tokens tiempo_str)).
Proof.
  unfold _parse_tiempo. cbv zeta. now rewrite total_of_tokens.
Qed.

(** *** Expressions whose tokens are separated by spaces only *)

Lemma word_not_space (c : ascii) : is_word c = true -> is_space c = false.
Proof.
  destruct c as [[] [] [] [] [] [] [] []]; vm_compute; congruence.
Qed.

Lemma all_word_no_space_run (s : list ascii) :
  all_word s -> run_length is_space s = 0%nat.
Proof.
  intros [|c l Hc _]; [reflexivity|].
  cbn [run_length]. now rewrite (word_not_space c Hc).
Qed.

Lemma all_word_skipn (s : list ascii) (k : nat) :
  all_word s -> all_word (skipn k s).
Proof.
  revert s. induction k as [|k IH]; intros s H; [exact H|].
  destruct H as [|c l _ Hl]; [constructor | apply IH, Hl].
Qed.

Lemma all_word_nth (s : list ascii) (k : nat) :
  all_word s -> (k < List.length s)%nat -> opt_word (nth_error s k) = true.
Proof.
  revert k. induction s as [|c s IH]; intros k H L; [simpl in L; lia|].
  inversion H as [|? ? Hc Hs]; subst.
  destruct k as [|k]; [exact Hc|]. apply IH; [exact Hs | simpl in L; lia].
Qed.

(** After a word character, in a string of word characters, the literal and
    its word boundary match only the whole rest of the string. *)
Lemma lit_then_boundary_whole (key : list ascii) :
  forall prev s n,
    opt_word prev = true -> all_word s ->
    lit_then_boundary key prev s = Some n ->
    s = key /\ n = List.length key.
Proof.
  induction key as [|k key IH]; intros prev s n P W; cbn [lit_then_boundary].
  - unfold word_boundary. rewrite P.
    destruct W as [|c l Hc _]; cbn [hd_error opt_word xorb negb].
    + intros [= <-]. auto.
    + rewrite Hc. discriminate.
  - destruct W as [|c l Hc Hl]; [discriminate|].
    destruct (Ascii.eqb_spec k c) as [->|_]; [|discriminate].
    destruct (lit_then_boundary key (Some c) l) as [m|] eqn:E; [|discriminate].
    intros [= <-]. destruct (IH (Some c) l m Hc Hl E) as [-> ->]. auto.
Qed.

Lemma try_digits_whole (key s : list ascii) (k : nat) v n :
  all_word s -> (k <= List.length s)%nat ->
  try_digits key s k = Some (v, n) ->
  exists k', (k' <= List.length s)%nat /\ skipn k' s = key
             /\ n = (k' + List.length key)%nat.
Proof.
  intros W. induction k as [|k IH]; intros L; cbn [try_digits]; [discriminate|].
  rewrite (all_word_no_space_run _ (all_word_skipn s (S k) W)).
  cbn [try_spaces].
  destruct (lit_then_boundary key (nth_error s k) (skipn 0 (skipn (S k) s)))
    as [m|] eqn:E.
  - intros [= _ <-].
    change (skipn 0 (skipn (S k) s)) with (skipn (S k) s) in E.
    assert (P : opt_word (nth_error s k) = true)
      by (apply all_word_nth; [exact W | lia]).
    destruct (lit_then_boundary_whole key _ _ _ P (all_word_skipn s (S k) W) E)
      as [E' ->].
    exists (S k). split; [exact L|]. split; [exact E' | lia].
  - intros H. apply IH; [lia | exact H].
Qed.

Lemma run_length_le (p : ascii -> bool) (s : list ascii) :
  (run_length p s <= List.length s)%nat.
Proof.
  induction s as [|c s IH]; cbn [run_length List.length]; [lia|].
  destruct (p c); lia.
Qed.

Lemma match_here_whole (key s : list ascii) v n :
  all_word s -> match_here key s = Some (v, n) ->
  n = List.length s /\ exists pre, s = pre ++ key.
Proof.
  intros W H. unfold match_here in H.
  destruct (try_digits_whole key s _ v n W (run_length_le _ s) H)
    as (k' & L & E & ->).
  split.
  - rewrite <- E, length_skipn. lia.
  - exists (firstn k' s). rewrite <- E. symmetry. apply firstn_skipn.
Qed.

Lemma findall_from_skip_all (key s : list ascii) (skip : nat) :
  (List.length s <= skip)%nat -> findall_from key skip s = [].
Proof.
  revert skip. induction s as [|c s IH]; intros skip L; [reflexivity|].
  cbn [findall_from]. destruct skip as [|k]; [simpl in L; lia|].
  apply IH. simpl in L. lia.
Qed.

(** In a string of word characters a pattern finds at most one token, and
    then the string ends with the unit of the pattern. *)
Lemma findall_from_one (key s : list ascii) (skip : nat) :
  all_word s ->
  (List.length (findall_from key skip s) <= 1)%nat
  /\ (findall_from key skip s <> [] -> exists pre, s = pre ++ key).
Proof.
  revert skip. induction s as [|c s IH]; intros skip W; cbn [findall_from].
  - split; [simpl; lia | congruence].
  - assert (Ws : all_word s) by (inversion W; assumption).
    destruct skip as [|k].
    + destruct (match_here key (c :: s)) as [[v n]|] eqn:E.
      * destruct (match_here_whole key (c :: s) v n W E) as (-> & pre & P).
        cbn [List.length Nat.pred].
        rewrite findall_from_skip_all by lia.
        split; [simpl; lia|]. intros _. exists pre. exact P.
      * destruct (IH 0%nat Ws) as [L P]. split; [exact L|].
        intros N. destruct (P N) as (pre & ->). now exists (c :: pre).
    + destruct (IH k Ws) as [L P]. split; [exact L|].
      intros N. destruct (P N) as (pre & ->). now exists (c :: pre).
Qed.

Lemma findall_last_char (key : string) (s : list ascii) (c : ascii) :
  all_word s ->
  hd_error (List.rev (list_ascii_of_string key)) = Some c ->
  findall key s <> [] -> hd_error (List.rev s) = Some c.
Proof.
  intros W K N. unfold findall in N.
  destruct (proj2 (findall_from_one _ s 0 W) N) as (pre & ->).
  rewrite rev_app_distr.
  destruct (List.rev (list_ascii_of_string key)); [discriminate|].
  exact K.
Qed.

(** Once the spaces are removed, an expression made of letters, digits and
    spaces is a string of word characters: at most one of its tokens is
    recognized, whatever their number. *)
Lemma spaced_expression_one_token (tiempo_str : string) :
  all_word (normalize tiempo_str) ->
  (List.length (tokens tiempo_str) <= 1)%nat.
Proof.
  intros W. unfold tokens, patterns.
  cbn [flat_map fst snd]. rewrite !length_app, !length_map. cbn [List.length].
  pose proof (proj1 (findall_from_one (list_ascii_of_string "hr") _ 0 W)) as L1.
  pose proof (proj1 (findall_from_one (list_ascii_of_string "h") _ 0 W)) as L2.
  pose proof (proj1 (findall_from_one (list_ascii_of_string "min") _ 0 W)) as L3.
  pose proof (proj1 (findall_from_one (list_ascii_of_string "m") _ 0 W)) as L4.
  pose proof (findall_last_char "hr" _ "r"%char W eq_refl) as E1.
  pose proof (findall_last_char "h" _ "h"%char W eq_refl) as E2.
  pose proof (findall_last_char "min" _ "n"%char W eq_refl) as E3.
  pose proof (findall_last_char "m" _ "m"%char W eq_refl) as E4.
  unfold findall in *.
  destruct (findall_from (list_ascii_of_string "hr") 0 _) as [|a1 l1];
    destruct (findall_from (list_ascii_of_string "h") 0 _) as [|a2 l2];
    destruct (findall_from (list_ascii_of_string "min") 0 _) as [|a3 l3];
    destruct (findall_from (list_ascii_of_string "m") 0 _) as [|a4 l4];
    cbn [List.length] in *; try lia;
    try (specialize (E1 ltac:(discriminate)));
    try (specialize (E2 ltac:(discriminate)));
    try (specialize (E3 ltac:(discriminate)));
    try (specialize (E4 ltac:(discriminate)));
    congruence.
Qed.

Example spaced_expression_one_token_example :
  all_word (normalize "1hr 30m").
Proof. repeat constructor. Qed.

End ParserFacts.

(** C1.  The parser adds [quantity * multiplier] over the tokens its patterns
    find, but the spaces are removed before the patterns are tried and each
    pattern ends in a word boundary: a token followed by the digits of the
    next token is not found.  So "1hr 30m" is read as 30 minutes and
    "2h 2h" as 2 hours; "45min" is 2700, and with a separator that is not a
    space the sum is the expected one.  [spaced_expression_one_token] gives
    the reach of this: of the tokens of an expression of letters, digits and
    spaces, at most one is counted. *)
Theorem parse_tiempo_spaced_tokens :
  _parse_tiempo "1hr 30m" = inr 1800
  /\ _parse_tiempo "2h 2h" = inr 7200
  /\ _parse_tiempo "45min" = inr 2700
  /\ _parse_tiempo "1hr,30m" = inr 5400
  /\ _parse_tiempo "2h,2h" = inr 14400.
Proof. vm_compute. repeat split. Qed.

(** C6.  The result of the parser is a function of the tokens its patterns
    recognize, the text around them is ignored and is no error by itself:
    the parser raises [InvalidFormat] when the total of the tokens is zero
    and returns the total otherwise.  Hence a string without any token
    raises, and a string with tokens raises exactly when every quantity is
    zero ("abc 0m" raises as "0m" does). *)
Theorem parse_tiempo_invalid_iff_zero_total (tiempo_str : string) :
  _parse_tiempo tiempo_str
  = (if sum_seconds (tokens tiempo_str) =? 0 then inl InvalidFormat
     else inr (sum_seconds (tokens tiempo_str)))
  /\ (tokens tiempo_str = [] -> _parse_tiempo tiempo_str = inl InvalidFormat)
  /\ (_parse_tiempo tiempo_str = inl InvalidFormat
      <-> Forall (fun t => PyStr.int_of_digits (fst t) = 0)
                 (tokens tiempo_str)).
Proof.
  pose proof (parse_by_tokens tiempo_str) as P.
  split; [exact P|]. split.
  - intros E. rewrite P, E. reflexivity.
  - destruct (sum_seconds_60 tiempo_str) as (k & Hk & Hs & Hz).
    rewrite P, Hs. destruct (Z.eqb_spec (60 * k) 0) as [E|E].
    + split; [intros _; apply Hz; lia | intros _; reflexivity].
    + split; [discriminate|]. intros A. apply Hz in A. lia.
Qed.

Lemma parse_tiempo_invalid_iff_zero_total_witness :
  _parse_tiempo "abc" = inl InvalidFormat
  /\ _parse_tiempo "abc 0m" = inl InvalidFormat.
Proof.
  split.
  - apply (proj1 (proj2 (parse_tiempo_invalid_iff_zero_total "abc"))).
    reflexivity.
  - apply (proj2 (proj2 (proj2 (parse_tiempo_invalid_iff_zero_total "abc 0m")))).
    vm_compute. repeat constructor.
Defined.

(** C10.  Whenever the parser returns, the result is a multiple of 60 and at
    least 60. *)
Theorem parse_tiempo_whole_minutes (tiempo_str : string) (n : Z) :
  _parse_tiempo tiempo_str = inr n -> (60 | n) /\ 60 <= n.
Proof.
  rewrite parse_by_tokens.
  destruct (sum_seconds_60 tiempo_str) as (k & Hk & Hs & _). rewrite Hs.
  destruct (Z.eqb_spec (60 * k) 0) as [E|E]; [discriminate|].
  intros H. assert (Hn : n = 60 * k) by congruence.
  split; [exists k; lia | lia].
Qed.

Lemma parse_tiempo_whole_minutes_witness :
  _parse_tiempo "45min" = inr 2700 /\ ((60 | 2700) /\ 60 <= 2700).
Proof.
  split; [reflexivity|].
  apply (parse_tiempo_whole_minutes "45min"). reflexivity.
Defined.

(** ** The pacing loop *)

(** Unfolds the calls to the outside and the monad. *)
Ltac exec :=
  cbv [random_random random_raw _random_size randint choice _create_file
       getrandbits write_random_bytes monotonic sleep utcnow_isoformat
       logger_info err_logger_warning open_metrics_handler
       open_errors_handler read_stop_requested
       bind ret tick raise emit lift try_except].

Ltac proj :=
  cbn [metrics_handlers errors_handlers ticks checks trace metrics_log
       errors_log stop_requested next_tick next_check emit_effect
       set_metrics set_errors _handle_signal fst snd].

Ltac step :=
  cbv beta iota; change (1 <? MAX_SIZE) with true; cbv beta iota; proj.

(** *** Log files and handlers *)

Section LogFacts.

Context {A : Type}.

Lemma open_append_same (p : string) (fs : Files A) :
  open_append p fs p = Some (rows (fs p)).
Proof. unfold open_append. now rewrite String.eqb_refl. Qed.

Lemma open_append_rows (p : string) (fs : Files A) (q : string) :
  rows (open_append p fs q) = rows (fs q).
Proof. unfold open_append. destruct (String.eqb q p); reflexivity. Qed.

Lemma append_line_rows (l : A) (fs : Files A) (p q : string) :
  rows (append_line l fs p q)
  = rows (fs q) ++ (if String.eqb q p then [l] else []).
Proof.
  unfold append_line. destruct (String.eqb q p); cbn [rows];
    [reflexivity | now rewrite app_nil_r].
Qed.

Lemma copies_cons (q p : string) (hs : list string) :
  copies q (p :: hs)
  = ((if String.eqb q p then 1 else 0) + copies q hs)%nat.
Proof.
  unfold copies. cbn [filter]. destruct (String.eqb q p); reflexivity.
Qed.

Lemma copies_app (q : string) (hs hs' : list string) :
  copies q (hs ++ hs') = (copies q hs + copies q hs')%nat.
Proof. unfold copies. now rewrite filter_app, length_app. Qed.

Lemma copies_last (p : string) (hs : list string) :
  copies p (hs ++ [p]) = S (copies p hs).
Proof.
  rewrite copies_app, copies_cons, String.eqb_refl. unfold copies at 2.
  cbn. lia.
Qed.

Lemma copies_none (q : string) (hs : list string) :
  ~ In q hs -> copies q hs = 0%nat.
Proof.
  induction hs as [|p hs IH]; intros N; [reflexivity|].
  rewrite copies_cons. destruct (String.eqb_spec q p) as [->|_].
  - exfalso. apply N. left. reflexivity.
  - apply IH. intros H. apply N. right. exact H.
Qed.

(** Each handler on the file writes the record once. *)
Lemma handle_rows (l : A) (hs : list string) :
  forall (fs : Files A) (q : string),
    rows (handle l hs fs q) = rows (fs q) ++ repeat l (copies q hs).
Proof.
  induction hs as [|p hs IH]; intros fs q.
  - cbn. now rewrite app_nil_r.
  - change (handle l (p :: hs) fs) with (handle l hs (append_line l fs p)).
    rewrite IH, append_line_rows, copies_cons, <- app_assoc.
    destruct (String.eqb q p); reflexivity.
Qed.

Lemma copied_app (k : nat) (a b : list A) :
  copied k (a ++ b) = copied k a ++ copied k b.
Proof. apply flat_map_app. Qed.

Lemma copied_one (k : nat) (l : A) : copied k [l] = repeat l k.
Proof. cbn. apply app_nil_r. Qed.

Lemma copied_once (ls : list A) : copied 1 ls = ls.
Proof.
  induction ls as [|l ls IH]; [reflexivity|].
  unfold copied in *. cbn in *. now rewrite IH.
Qed.

Lemma copied_length (k : nat) (ls : list A) :
  List.length (copied k ls) = (k * List.length ls)%nat.
Proof.
  induction ls as [|l ls IH]; [cbn; lia|].
  unfold copied in *. cbn [flat_map List.length].
  rewrite length_app, repeat_length, IH. lia.
Qed.

Lemma copied_Forall (P : A -> Prop) (k : nat) (ls : list A) :
  Forall P ls -> Forall P (copied k ls).
Proof.
  induction 1 as [|l ls Hl _ IH]; [constructor|].
  unfold copied in *. cbn [flat_map]. apply Forall_app. split; [|exact IH].
  apply Forall_forall. intros x Hx. apply repeat_spec in Hx. now subst.
Qed.

Lemma copied_In (k : nat) (ls : list A) (x : A) :
  In x (copied k ls) -> In x ls.
Proof.
  unfold copied. intros H. apply in_flat_map in H.
  destruct H as (l & Hl & Hx). apply repeat_spec in Hx. now subst.
Qed.

End LogFacts.

(** *** What is added to a world *)

Section ShapeFacts.

Context {F : Type} {PF : PyFloat F}.
Variable att : Z -> list (Effect F) -> Prop.

Lemma n_records_app (t1 t2 : list (Effect F)) :
  n_records (t1 ++ t2) = (n_records t1 + n_records t2)%nat.
Proof. unfold n_records. now rewrite filter_app, length_app. Qed.

Lemma n_created_app (t1 t2 : list (Effect F)) :
  n_created (t1 ++ t2) = (n_created t1 + n_created t2)%nat.
Proof. unfold n_created. now rewrite filter_app, length_app. Qed.

Lemma n_written_app (t1 t2 : list (Effect F)) :
  n_written (t1 ++ t2) = (n_written t1 + n_written t2)%nat.
Proof. unfold n_written. now rewrite filter_app, length_app. Qed.

Lemma metrics_lines_app (a b : list (Effect F)) :
  metrics_lines (a ++ b) = metrics_lines a ++ metrics_lines b.
Proof. apply flat_map_app. Qed.

Lemma error_rows_app (a b : list (Effect F)) :
  error_rows (a ++ b) = error_rows a ++ error_rows b.
Proof. apply flat_map_app. Qed.

Lemma extends_refl (w : World F) : extends w w [].
Proof.
  unfold extends. cbn. rewrite app_nil_r.
  repeat split; intros q; now rewrite app_nil_r.
Qed.

Lemma extends_trans (w1 w2 w3 : World F) (d1 d2 : list (Effect F)) :
  extends w1 w2 d1 -> extends w2 w3 d2 -> extends w1 w3 (d1 ++ d2).
Proof.
  intros (T1 & M1 & E1 & L1 & R1) (T2 & M2 & E2 & L2 & R2).
  unfold extends. rewrite T2, T1, M2, M1, E2, E1, app_assoc.
  repeat split; intros q.
  - rewrite L2, L1, M1, metrics_lines_app, copied_app. symmetry; apply app_assoc.
  - rewrite R2, R1, E1, error_rows_app, copied_app. symmetry; apply app_assoc.
Qed.

(** An effect that is no record leaves the log files as they are. *)
Lemma extends_silent (w w' : World F) (e : Effect F) :
  metrics_lines [e] = [] -> error_rows [e] = [] ->
  trace w' = trace w ++ [e] ->
  metrics_handlers w' = metrics_handlers w ->
  errors_handlers w' = errors_handlers w ->
  metrics_log w' = metrics_log w -> errors_log w' = errors_log w ->
  extends w w' [e].
Proof.
  intros M E T Hm He Lm Le. unfold extends.
  rewrite T, Hm, He, Lm, Le, M, E. cbn.
  repeat split; intros q; now rewrite app_nil_r.
Qed.

Lemma extends_counters (w w' w'' : World F) (d : list (Effect F)) :
  extends w w' d ->
  trace w'' = trace w' ->
  metrics_handlers w'' = metrics_handlers w' ->
  errors_handlers w'' = errors_handlers w' ->
  metrics_log w'' = metrics_log w' -> errors_log w'' = errors_log w' ->
  extends w w'' d.
Proof.
  intros (T & M & E & L & R) T' M' E' L' R'. unfold extends.
  rewrite T', M', E', L', R'. repeat split; assumption.
Qed.

Lemma shaped_app lo hi (d1 d2 : list (Effect F)) :
  shaped att lo hi d1 -> shaped att lo hi d2 -> shaped att lo hi (d1 ++ d2).
Proof.
  induction 1 as [|c d1 C _ IH]; intros H2; [exact H2|].
  rewrite <- app_assoc. constructor; [exact C | apply IH, H2].
Qed.

Lemma shaped_one lo hi (d : list (Effect F)) :
  chunk att lo hi d -> shaped att lo hi d.
Proof.
  intros C. rewrite <- (app_nil_r d). constructor; [exact C | constructor].
Qed.

Lemma chunk_widen lo hi lo' hi' (d : list (Effect F)) :
  lo' <= lo -> hi <= hi' -> chunk att lo hi d -> chunk att lo' hi' d.
Proof.
  intros L H [b|t|s P|i x B A]; try (constructor; assumption).
  apply (chunk_attempt att lo' hi' i); [lia | exact A].
Qed.

Lemma shaped_widen lo hi lo' hi' (d : list (Effect F)) :
  lo' <= lo -> hi <= hi' -> shaped att lo hi d -> shaped att lo' hi' d.
Proof.
  intros L H. induction 1 as [|c d C _ IH]; constructor;
    [eapply chunk_widen; eassumption | exact IH].
Qed.

Lemma grows_refl lo hi (w : World F) : grows att lo hi w w.
Proof. exists []. split; [constructor | apply extends_refl]. Qed.

Lemma grows_trans lo hi (w1 w2 w3 : World F) :
  grows att lo hi w1 w2 -> grows att lo hi w2 w3 -> grows att lo hi w1 w3.
Proof.
  intros (d1 & S1 & X1) (d2 & S2 & X2).
  exists (d1 ++ d2). split; [now apply shaped_app|].
  eapply extends_trans; eassumption.
Qed.

Lemma grows_widen lo hi lo' hi' (w w' : World F) :
  lo' <= lo -> hi <= hi' -> grows att lo hi w w' -> grows att lo' hi' w w'.
Proof.
  intros L H (d & S & R). exists d. split; [|exact R].
  eapply shaped_widen; eassumption.
Qed.

Lemma grows_chunk lo hi (w w' : World F) (d : list (Effect F)) :
  chunk att lo hi d -> extends w w' d -> grows att lo hi w w'.
Proof. intros C X. exists d. split; [now apply shaped_one | exact X]. Qed.

(** A property of every effect of a step is a property of every effect the
    loop adds. *)
Lemma shaped_Forall (P : Effect F -> Prop) lo hi (d : list (Effect F)) :
  (forall b, P (ReadStop b)) -> (forall t, P (Monotonic t)) ->
  (forall s, flt (of_int 0) s = true -> P (Sleep s)) ->
  (forall i x, lo <= i < hi -> att i x -> Forall P x) ->
  shaped att lo hi d -> Forall P d.
Proof.
  intros R C S A. induction 1 as [|c d Ch _ IH]; [constructor|].
  apply Forall_app. split; [|exact IH].
  destruct Ch as [b|t|s Ps|i x B X]; try (repeat constructor; auto).
  eapply A; eassumption.
Qed.

(** Two counts that add up over traces and agree on every step agree on what
    the loop adds. *)
Lemma shaped_count (f g : list (Effect F) -> nat) lo hi
      (d : list (Effect F)) :
  (forall a b, f (a ++ b) = (f a + f b)%nat) ->
  (forall a b, g (a ++ b) = (g a + g b)%nat) ->
  (forall c, chunk att lo hi c -> f c = g c) ->
  shaped att lo hi d -> f d = g d.
Proof.
  intros Fa Ga Ch. induction 1 as [|c d C _ IH].
  - pose proof (Fa [] []) as X. pose proof (Ga [] []) as Y.
    cbn [List.app] in X, Y. lia.
  - rewrite Fa, Ga, IH, (Ch c C). reflexivity.
Qed.

Lemma shaped_mono (att' : Z -> list (Effect F) -> Prop) lo hi
      (d : list (Effect F)) :
  (forall i x, att i x -> att' i x) ->
  shaped att lo hi d -> shaped att' lo hi d.
Proof.
  intros M. induction 1 as [|c d C _ IH]; constructor; [|exact IH].
  destruct C as [b|t|s P|i x B X]; try (constructor; assumption).
  apply (chunk_attempt att' lo hi i); [exact B | apply M, X].
Qed.

End ShapeFacts.

(** *** The calls to the outside *)

Section CallFacts.

Context {F : Type} {PF : PyFloat F} (env : Env F).

Lemma read_stop_requested_spec (w : World F) :
  exists w',
    read_stop_requested env w = (inr (flag_at env w), w')
    /\ extends w w' [ReadStop (flag_at env w)]
    /\ checks w' = S (checks w)
    /\ stop_requested w' = flag_at env w
    /\ ticks w' = ticks w.
Proof.
  unfold flag_at. exec.
  destruct (signal_at env (checks w)); proj.
  - rewrite orb_true_r. eexists. split; [reflexivity|].
    split; [apply extends_silent; reflexivity|]. proj. repeat split.
  - rewrite orb_false_r. eexists. split; [reflexivity|].
    split; [apply extends_silent; reflexivity|]. proj. repeat split.
Qed.

Lemma read_stop_requested_down (w : World F) :
  flag_at env w = false ->
  read_stop_requested env w
  = (inr false, emit_effect (ReadStop false) (next_check w)).
Proof.
  unfold flag_at, read_stop_requested. intros H.
  apply orb_false_iff in H. destruct H as [H1 H2]. now rewrite H2, H1.
Qed.

(** The reading of the clock and the sleep that follows it, in the events
    and between the cycles. *)
Lemma pace_spec (target : F -> F) (w : World F) :
  let now := monotonic_at env (ticks w) in
  let wm := emit_effect (Monotonic now) (next_tick w) in
  (now <- monotonic env ;;
   (if flt (of_int 0) (target now) then sleep env (target now) else ret tt)) w
  = if flt (of_int 0) (target now)
    then (match sleep_error env (target now) with
          | Some e => inl e
          | None => inr tt
          end, emit_effect (Sleep (target now)) wm)
    else (inr tt, wm).
Proof.
  cbv zeta. cbv [monotonic sleep bind ret tick emit raise].
  destruct (flt (of_int 0) _); [|reflexivity].
  destruct (sleep_error env _); reflexivity.
Qed.

Lemma extends_clock (w : World F) (t : F) :
  extends w (emit_effect (Monotonic t) (next_tick w)) [Monotonic t].
Proof. apply extends_silent; reflexivity. Qed.

Lemma extends_sleep (w : World F) (d : F) :
  extends w (emit_effect (Sleep d) w) [Sleep d].
Proof. apply extends_silent; reflexivity. Qed.

Lemma sleep_raised_last {A} (e : exn) (d : F) (w : World F) :
  sleep_error env d = Some e ->
  sleep_raised env (@inl exn A e) (emit_effect (Sleep d) w).
Proof. intros H. exists e, d, (trace w). repeat split. exact H. Qed.

Lemma sleep_raised_inr {A} (a : A) (w : World F) :
  ~ sleep_raised env (inr a) w.
Proof. intros (e & d & t & H & _). discriminate. Qed.

Lemma sleep_raised_map {A B} (o : exn + A) (e : exn) (w : World F) :
  o = inl e -> sleep_raised env o w -> sleep_raised env (@inl exn B e) w.
Proof.
  intros -> (e' & d & t & H & S & T). exists e', d, t. repeat split; auto.
  congruence.
Qed.

(** *** The try block *)

Lemma random_size_ok (r : Z) : size_ok (1 + r mod (MAX_SIZE - 1 + 1)).
Proof.
  unfold size_ok, MAX_SIZE.
  pose proof (Z.mod_pos_bound r (5 * 1024 - 1 + 1)). lia.
Qed.

Lemma random_choice_in (r : Z) :
  In (nth (Z.to_nat (r mod Z.of_nat (List.length EXTENSIONS))) EXTENSIONS "")
     EXTENSIONS.
Proof.
  apply nth_In.
  pose proof (Z.mod_pos_bound r (Z.of_nat (List.length EXTENSIONS))) as B.
  simpl List.length in *. lia.
Qed.

Lemma event_try_simulated input start (w : World F) :
  simulated_failure env w = true ->
  event_try env input start w
  = (inl (RuntimeError "Error simulado: fallo de escritura en disco"),
     next_tick w).
Proof.
  unfold simulated_failure, event_try. intros H. exec. proj.
  rewrite H. reflexivity.
Qed.

(** [open] fails: nothing is left of the attempt. *)
Lemma event_try_open_error input start (w : World F) (e : exn) :
  simulated_failure env w = false ->
  creation_failure env w = Some (OpenFails e) ->
  exists w1,
    event_try env input start w = (inl e, w1)
    /\ extends w w1 [] /\ checks w1 = checks w
    /\ stop_requested w1 = stop_requested w.
Proof.
  unfold simulated_failure, event_try. intros H E. exec. proj.
  rewrite H. step. unfold creation_failure in E. cbn [Nat.add] in E.
  rewrite E. step.
  eexists. split; [reflexivity|]. proj.
  split; [|split; reflexivity].
  eapply extends_counters; [apply extends_refl|..]; reflexivity.
Qed.

(** The write fails: the file that [open] has made is left. *)
Lemma event_try_write_error input start (w : World F) (e : exn) :
  simulated_failure env w = false ->
  creation_failure env w = Some (WriteFails e) ->
  exists w1 filename,
    event_try env input start w = (inl e, w1)
    /\ tagged filename
    /\ extends w w1 [OpenWrite (path_join input filename)]
    /\ checks w1 = checks w
    /\ stop_requested w1 = stop_requested w.
Proof.
  unfold simulated_failure, event_try. intros H E. exec. proj.
  rewrite H. step. unfold creation_failure in E. cbn [Nat.add] in E.
  rewrite E. step.
  eexists. eexists. split; [reflexivity|]. proj.
  split; [eexists; eexists; split; [apply random_choice_in | reflexivity]|].
  split; [|split; reflexivity].
  apply extends_silent; reflexivity.
Qed.

Lemma event_try_success input start (w : World F) :
  simulated_failure env w = false ->
  creation_failure env w = None ->
  exists w1 delta,
    event_try env input start w = (inr tt, w1)
    /\ event_effects input delta /\ extends w w1 delta
    /\ checks w1 = checks w
    /\ stop_requested w1 = stop_requested w.
Proof.
  unfold simulated_failure, event_try. intros H E. exec. proj.
  rewrite H. step. unfold creation_failure in E. cbn [Nat.add] in E.
  rewrite E. step.
  eexists. eexists. split; [reflexivity|]. proj.
  split; [|split; [|split; reflexivity]].
  - unfold event_effects. do 7 eexists.
    split; [reflexivity|].
    split; [apply random_size_ok|].
    split; [apply random_choice_in|].
    split; [eexists; reflexivity | reflexivity].
  - unfold extends. proj. rewrite <- !app_assoc. cbn [List.app].
    split; [reflexivity|]. split; [reflexivity|]. split; [reflexivity|].
    split; intros q.
    + rewrite handle_rows. cbn. now rewrite app_nil_r.
    + cbn. now rewrite app_nil_r.
Qed.

(** *** One event: the try block and its handler *)

Lemma event_except_spec (i : Z) (e : exn) (w : World F) :
  let row := {| err_ts := (utcnow_at env (ticks w) ++ "Z")%string;
                err_index := i; err_description := str_exn e |} in
  exists w1,
    event_except env i e w = (inr tt, w1)
    /\ extends w w1 [ErrorsWrite row]
    /\ checks w1 = checks w /\ stop_requested w1 = stop_requested w.
Proof.
  cbv zeta. unfold event_except. exec. proj.
  eexists. split; [reflexivity|]. proj.
  split; [|split; reflexivity].
  unfold extends. proj.
  split; [reflexivity|]. split; [reflexivity|]. split; [reflexivity|].
  split; intros q.
  - cbn. now rewrite app_nil_r.
  - rewrite handle_rows. cbn. now rewrite app_nil_r.
Qed.


(** Each attempt returns.  When the try block fails it leaves one Error
    record, with the index of the event and [str(e)], after the file of
    the artifact when [open] has made it; it leaves the artifact, a clock
    reading and an Event record otherwise. *)
Lemma attempt_cases input start (i : Z) (w : World F) :
  exists w1 d,
    attempt env input start i w = (inr tt, w1)
    /\ match try_failure env w with
       | Some (e, made) => failure_effects input i e made d
       | None => event_effects input d
       end
    /\ extends w w1 d
    /\ checks w1 = checks w
    /\ stop_requested w1 = stop_requested w.
Proof.
  unfold attempt, try_except, try_failure.
  destruct (simulated_failure env w) eqn:Sim.
  - rewrite (event_try_simulated input start w Sim).
    destruct (event_except_spec i
                (RuntimeError "Error simulado: fallo de escritura en disco")
                (next_tick w)) as (w1 & -> & X & C & St).
    exists w1. eexists. split; [reflexivity|].
    split; [|split; [|split; assumption]].
    + exists (utcnow_at env (ticks (next_tick w)) ++ "Z")%string.
      reflexivity.
    + eapply extends_counters in X; [exact X|..]; reflexivity.
  - destruct (creation_failure env w) as [[e|e]|] eqn:E.
    + destruct (event_try_open_error input start w e Sim E)
        as (w0 & -> & X0 & C0 & S0).
      destruct (event_except_spec i e w0) as (w1 & -> & X & C & St).
      exists w1. eexists. split; [reflexivity|].
      split; [|split; [|split; congruence]].
      * exists (utcnow_at env (ticks w0) ++ "Z")%string. reflexivity.
      * apply (extends_trans _ _ _ _ _ X0 X).
    + destruct (event_try_write_error input start w e Sim E)
        as (w0 & fn & -> & T & X0 & C0 & S0).
      destruct (event_except_spec i e w0) as (w1 & -> & X & C & St).
      exists w1. eexists. split; [reflexivity|].
      split; [|split; [|split; congruence]].
      * exists (utcnow_at env (ticks w0) ++ "Z")%string, fn.
        split; [exact T | reflexivity].
      * apply (extends_trans _ _ _ _ _ X0 X).
    + destruct (event_try_success input start w Sim E)
        as (w1 & d & -> & D & X & C & St).
      exists w1, d. split; [reflexivity|]. split; [exact D|].
      split; [exact X|]. split; assumption.
Qed.

Lemma failure_effects_error input (i : Z) (e : exn) (made : bool)
      (d : list (Effect F)) :
  failure_effects input i e made d -> error_effects input i d.
Proof.
  intros (ts & H). exists ts, (str_exn e). cbv zeta in *.
  destruct made; [right; exact H | left; exact H].
Qed.

Lemma attempt_any input start (i : Z) (w : World F) :
  exists w1 d,
    attempt env input start i w = (inr tt, w1)
    /\ any_attempt input i d
    /\ extends w w1 d
    /\ checks w1 = checks w
    /\ stop_requested w1 = stop_requested w.
Proof.
  destruct (attempt_cases input start i w) as (w1 & d & A & C & R).
  exists w1, d. split; [exact A|]. split; [|exact R].
  unfold any_attempt.
  destruct (try_failure env w) as [[e made]|]; [left | right; exact C].
  eapply failure_effects_error. exact C.
Qed.

Lemma attempt_succeeds input start (i : Z) (w : World F) :
  never_fails env ->
  exists w1 d,
    attempt env input start i w = (inr tt, w1)
    /\ event_effects input d
    /\ extends w w1 d
    /\ checks w1 = checks w
    /\ stop_requested w1 = stop_requested w.
Proof.
  intros N.
  destruct (attempt_cases input start i w) as (w1 & d & A & C & R).
  exists w1, d. split; [exact A|]. split; [|exact R].
  unfold try_failure, simulated_failure, creation_failure in C.
  rewrite (proj1 (N (ticks w))), (proj2 (N (5 + ticks w)%nat)) in C. exact C.
Qed.


End CallFacts.

(** *** The loop, whatever the attempts do *)

Section Loop.

Context {F : Type} {PF : PyFloat F} (env : Env F).
Variable att : Z -> list (Effect F) -> Prop.
Variable input : string.

(** What is assumed of the attempts: each one returns, what it adds to the
    world is as [att] says, and it leaves the flag alone. *)
Hypothesis attempts :
  forall start i (w : World F),
  exists w1 d,
    attempt env input start i w = (inr tt, w1)
    /\ att i d
    /\ extends w w1 d
    /\ checks w1 = checks w
    /\ stop_requested w1 = stop_requested w.

(** **** One iteration of the event loop *)

Lemma event_iteration_stopped interval start (i : Z) (w : World F) :
  flag_at env w = true ->
  exists w',
    event_iteration env input interval start i w = (inr Return, w')
    /\ extends w w' [ReadStop true]
    /\ checks w' = S (checks w)
    /\ stop_requested w' = true.
Proof.
  intros H. unfold event_iteration, bind.
  destruct (read_stop_requested_spec env w) as (w0 & -> & X0 & C0 & S0 & _).
  rewrite H in *. exists w0. repeat split; try assumption; apply X0.
Qed.

(** The flag is down: the event is attempted, the clock is read, what is
    left of the time of the event is slept, and the flag is read again;
    the iteration ends there when [time.sleep] raises. *)
Lemma event_iteration_runs interval start (i : Z) (w : World F) :
  flag_at env w = false ->
  exists w1 d o w',
    attempt env input start i (emit_effect (ReadStop false) (next_check w))
    = (inr tt, w1)
    /\ att i d
    /\ extends w w1 (ReadStop false :: d)
    /\ event_iteration env input interval start i w = (o, w')
    /\ let now := monotonic_at env (ticks w1) in
       let to_sleep := fsub (sleep_until start interval i) now in
       let stop := signal_at env (S (checks w)) in
       (exists e,
           flt (of_int 0) to_sleep = true
           /\ sleep_error env to_sleep = Some e
           /\ o = inl e
           /\ extends w1 w' [Monotonic now; Sleep to_sleep])
       \/ (o = inr (if stop then Return else Continue)
           /\ extends w1 w'
                      (Monotonic now :: pause start interval i now
                       ++ [ReadStop stop])
           /\ checks w' = S (S (checks w))
           /\ stop_requested w' = stop).
Proof.
  intros H.
  pose proof (read_stop_requested_down env w H) as R0.
  destruct (read_stop_requested_spec env w) as (w0 & R0' & X0 & C0 & S0 & _).
  rewrite R0 in R0'. injection R0' as Fl <-. rewrite H in *.
  destruct (attempts start i (emit_effect (ReadStop false) (next_check w)))
    as (w1 & d & A & D & X1 & C1 & S1).
  exists w1, d.
  assert (X01 : extends w w1 (ReadStop false :: d))
    by (apply (extends_trans _ _ _ _ _ X0 X1)).
  unfold event_iteration.
  unfold bind at 1. rewrite R0. cbv iota beta.
  unfold bind at 1. rewrite A. cbv iota beta.
  cbv [monotonic sleep bind ret tick emit raise]. unfold pause, sleep_until.
  set (now := monotonic_at env (ticks w1)).
  set (to_sleep := fsub (fadd start (fmul (of_int (i + 1)) interval)) now).
  set (wm := emit_effect (Monotonic now) (next_tick w1)).
  assert (Xm : extends w1 wm [Monotonic now]) by apply extends_clock.
  destruct (flt (of_int 0) to_sleep) eqn:Fp; cbv iota beta.
  - destruct (sleep_error env to_sleep) as [e|] eqn:Se; cbv iota beta.
    + eexists. eexists. split; [reflexivity|]. split; [exact D|].
      split; [exact X01|]. split; [reflexivity|].
      left. exists e. split; [reflexivity|]. split; [reflexivity|].
      split; [reflexivity|].
      apply (extends_trans _ _ _ _ _ Xm (extends_sleep wm to_sleep)).
    + set (ws := emit_effect (Sleep to_sleep) wm).
      destruct (read_stop_requested_spec env ws)
        as (w' & -> & X3 & C3 & S3 & _).
      assert (Fs : flag_at env ws = signal_at env (S (checks w))).
      { unfold flag_at. subst ws wm. proj. now rewrite S1, C1, S0, C0. }
      rewrite Fs in *.
      exists (inr (if signal_at env (S (checks w)) then Return else Continue)),
        w'.
      split; [reflexivity|]. split; [exact D|]. split; [exact X01|].
      split; [destruct (signal_at env (S (checks w))); reflexivity|].
      right. split; [reflexivity|]. split; [|split].
      * apply (extends_trans _ _ _ _ _ Xm
                 (extends_trans _ _ _ _ _ (extends_sleep wm to_sleep) X3)).
      * rewrite C3. subst ws wm. proj. now rewrite C1, C0.
      * exact S3.
  - destruct (read_stop_requested_spec env wm)
      as (w' & -> & X3 & C3 & S3 & _).
    assert (Fs : flag_at env wm = signal_at env (S (checks w))).
    { unfold flag_at. subst wm. proj. now rewrite S1, C1, S0, C0. }
    rewrite Fs in *.
    exists (inr (if signal_at env (S (checks w)) then Return else Continue)),
      w'.
    split; [reflexivity|]. split; [exact D|]. split; [exact X01|].
    split; [destruct (signal_at env (S (checks w))); reflexivity|].
    right. split; [reflexivity|]. split; [|split].
    + apply (extends_trans _ _ _ _ _ Xm X3).
    + rewrite C3. subst wm. proj. now rewrite C1, C0.
    + exact S3.
Qed.

(** **** The shape of what the loop adds *)

Lemma event_iteration_grows lo hi interval start i (w : World F) :
  lo <= i < hi ->
  exists o w',
    event_iteration env input interval start i w = (o, w')
    /\ grows att lo hi w w'
    /\ ((exists r, o = inr r) \/ sleep_raised env o w').
Proof.
  intros B. destruct (flag_at env w) eqn:Fl.
  - destruct (event_iteration_stopped interval start i w Fl)
      as (w' & E & X & _).
    exists (inr Return), w'. split; [exact E|].
    split; [|left; eexists; reflexivity].
    eapply grows_chunk; [|exact X]. constructor.
  - destruct (event_iteration_runs interval start i w Fl)
      as (w1 & d & o & w' & _ & D & X1 & E & K).
    exists o, w'. split; [exact E|].
    assert (G1 : grows att lo hi w w1).
    { exists ([ReadStop false] ++ d). split; [|exact X1].
      constructor; [constructor|]. apply shaped_one.
      now apply (chunk_attempt att lo hi i). }
    cbv zeta in K. destruct K as [(e & Fp & Se & -> & X2)|(-> & X2 & _)].
    + split.
      * eapply grows_trans; [exact G1|].
        exists ([Monotonic (monotonic_at env (ticks w1))]
                ++ [Sleep (fsub (sleep_until start interval i)
                                (monotonic_at env (ticks w1)))]).
        split; [|exact X2].
        constructor; [constructor|]. apply shaped_one. now constructor.
      * right. destruct X2 as (T & _). exists e. eexists. eexists.
        split; [reflexivity|]. split; [exact Se|].
        rewrite T. change [?a; ?b] with ([a] ++ [b]).
        rewrite app_assoc. reflexivity.
    + split; [|left; eexists; reflexivity].
      eapply grows_trans; [exact G1|]. eexists. split; [|exact X2].
      change (Monotonic ?t :: ?l) with ([Monotonic t] ++ l).
      constructor; [constructor|]. apply shaped_app.
      * unfold pause. destruct (flt _ _) eqn:Fp; [|constructor].
        apply shaped_one. now constructor.
      * apply shaped_one. constructor.
Qed.

Lemma for_range_grows lo hi interval start (n : nat) :
  forall i (w : World F),
    lo <= i -> i + Z.of_nat n <= hi ->
    exists o w',
      for_range n i (event_iteration env input interval start) w = (o, w')
      /\ grows att lo hi w w'
      /\ ((exists r, o = inr r) \/ sleep_raised env o w').
Proof.
  induction n as [|n IH]; intros i w L H.
  - exists (inr Continue), w. split; [reflexivity|].
    split; [apply grows_refl | left; eexists; reflexivity].
  - cbn [for_range]. unfold bind.
    destruct (event_iteration_grows lo hi interval start i w ltac:(lia))
      as (o & w1 & -> & G1 & K).
    destruct o as [e|[|]].
    + exists (inl e), w1. split; [reflexivity|]. split; [exact G1|].
      destruct K as [(r & K)|K]; [discriminate | right; exact K].
    + destruct (IH (i + 1) w1 ltac:(lia) ltac:(lia)) as (o & w' & -> & G2 & K2).
      exists o, w'. split; [reflexivity|]. split; [|exact K2].
      eapply grows_trans; eassumption.
    + exists (inr Return), w1. split; [reflexivity|]. split; [exact G1|].
      left. eexists. reflexivity.
Qed.

Lemma cycle_unfold interval cantidad (w : World F) :
  cycle env input interval cantidad w
  = let start_cycle := monotonic_at env (ticks w) in
    match for_range (Z.to_nat cantidad) 0
                    (event_iteration env input interval start_cycle)
                    (emit_effect (Monotonic start_cycle) (next_tick w))
    with
    | (inr r, w') => (inr (start_cycle, r), w')
    | (inl e, w') => (inl e, w')
    end.
Proof. reflexivity. Qed.

Lemma cycle_grows interval cantidad (w : World F) :
  0 <= cantidad ->
  exists o w',
    cycle env input interval cantidad w = (o, w')
    /\ grows att 0 cantidad w w'
    /\ ((exists r, o = inr r) \/ sleep_raised env o w').
Proof.
  intros C. rewrite cycle_unfold. cbv zeta.
  destruct (for_range_grows 0 cantidad interval (monotonic_at env (ticks w))
              (Z.to_nat cantidad) 0
              (emit_effect (Monotonic (monotonic_at env (ticks w)))
                           (next_tick w)) ltac:(lia) ltac:(lia))
    as (o & w' & -> & G & K).
  assert (G0 : grows att 0 cantidad w w').
  { eapply grows_trans; [|exact G].
    eapply grows_chunk; [|apply extends_clock]. constructor. }
  destruct o as [e|r]; eexists; exists w'; (split; [reflexivity|]);
    (split; [exact G0|]).
  - destruct K as [(r & K)|K]; [discriminate|]. right.
    eapply sleep_raised_map; [reflexivity | exact K].
  - left. eexists. reflexivity.
Qed.

(** The reading of the clock and the idle sleep between two cycles. *)
Lemma idle_grows total start (w : World F) :
  exists o w2,
    (now <- monotonic env ;;
     (let idle := pymax (of_int 0)
                        (fsub (of_int total) (fsub now start)) in
      if flt (of_int 0) idle then sleep env idle else ret tt)) w
    = (o, w2)
    /\ grows att 0 0 w w2
    /\ ticks w2 = S (ticks w) /\ checks w2 = checks w
    /\ stop_requested w2 = stop_requested w
    /\ (o = inr tt \/ sleep_raised env o w2).
Proof.
  rewrite (pace_spec env (fun now => pymax (of_int 0)
                                       (fsub (of_int total) (fsub now start)))).
  cbv zeta.
  set (now := monotonic_at env (ticks w)).
  set (idle := pymax (of_int 0) (fsub (of_int total) (fsub now start))).
  set (wm := emit_effect (Monotonic now) (next_tick w)).
  assert (Gm : grows att 0 0 w wm).
  { eapply grows_chunk; [|apply extends_clock]. constructor. }
  destruct (flt (of_int 0) idle) eqn:Fp.
  - eexists. eexists. split; [reflexivity|]. split.
    + eapply grows_trans; [exact Gm|].
      eapply grows_chunk; [|apply extends_sleep]. now constructor.
    + proj. repeat split.
      destruct (sleep_error env idle) as [e|] eqn:Se; [right | left; reflexivity].
      now apply sleep_raised_last.
  - eexists. eexists. split; [reflexivity|]. split; [exact Gm|].
    proj. repeat split. left. reflexivity.
Qed.

Lemma while_true_step interval total cantidad (fuel : nat) (w : World F) :
  while_true env (S fuel) input interval total cantidad true w
  = match cycle env input interval cantidad w with
    | (inr (start_cycle, Continue), w1) =>
        match (now <- monotonic env ;;
               (let idle := pymax (of_int 0)
                                  (fsub (of_int total)
                                        (fsub now start_cycle)) in
                if flt (of_int 0) idle then sleep env idle else ret tt)) w1
        with
        | (inr _, w2) =>
            while_true env fuel input interval total cantidad true w2
        | (inl e, w2) => (inl e, w2)
        end
    | (inr (_, Return), w1) => (inr Returned, w1)
    | (inl e, w1) => (inl e, w1)
    end.
Proof.
  cbn [while_true]. unfold bind at 1.
  destruct (cycle env input interval cantidad w) as [[e|[st [|]]] w1];
    reflexivity.
Qed.

Lemma while_true_once interval total cantidad (fuel : nat) (w : World F) :
  while_true env (S fuel) input interval total cantidad false w
  = match cycle env input interval cantidad w with
    | (inr _, w') => (inr Returned, w')
    | (inl e, w') => (inl e, w')
    end.
Proof.
  cbn [while_true]. unfold bind.
  destruct (cycle env input interval cantidad w) as [[e|[st r]] w'];
    [reflexivity|]. destruct r; reflexivity.
Qed.

Lemma while_true_grows interval total cantidad (loop : bool) (fuel : nat) :
  0 <= cantidad ->
  forall w : World F,
  exists o w',
    while_true env fuel input interval total cantidad loop w = (o, w')
    /\ grows att 0 cantidad w w'
    /\ ((exists r, o = inr r) \/ sleep_raised env o w').
Proof.
  intros C. induction fuel as [|fuel IH]; intros w.
  - exists (inr OutOfFuel), w. split; [reflexivity|].
    split; [apply grows_refl | left; eexists; reflexivity].
  - destruct (cycle_grows interval cantidad w C) as (o1 & w1 & E1 & G1 & K1).
    destruct loop.
    + rewrite while_true_step, E1.
      destruct o1 as [e|[st [|]]].
      * exists (inl e), w1. split; [reflexivity|]. split; [exact G1|].
        destruct K1 as [(r & K)|K]; [discriminate|]. right.
        eapply sleep_raised_map; [reflexivity | exact K].
      * destruct (idle_grows total st w1) as (o2 & w2 & -> & G2 & _ & _ & _ & K2).
        assert (G12 : grows att 0 cantidad w w2).
        { eapply grows_trans; [exact G1|].
          eapply grows_widen; [| |exact G2]; lia. }
        destruct o2 as [e|u].
        -- exists (inl e), w2. split; [reflexivity|]. split; [exact G12|].
           destruct K2 as [K|K]; [discriminate|]. right.
           eapply sleep_raised_map; [reflexivity | exact K].
        -- destruct (IH w2) as (o & w' & -> & G3 & K3).
           exists o, w'. split; [reflexivity|]. split; [|exact K3].
           eapply grows_trans; eassumption.
      * exists (inr Returned), w1. split; [reflexivity|]. split; [exact G1|].
        left. eexists. reflexivity.
    + rewrite while_true_once, E1.
      destruct o1 as [e|r].
      * exists (inl e), w1. split; [reflexivity|]. split; [exact G1|].
        destruct K1 as [(r & K)|K]; [discriminate|]. right.
        eapply sleep_raised_map; [reflexivity | exact K].
      * exists (inr Returned), w1. split; [reflexivity|]. split; [exact G1|].
        left. eexists. reflexivity.
Qed.

(** **** The schedule the loop follows *)

Lemma for_range_paced interval start (n : nat) :
  forall i (w : World F),
  exists o w' t,
    for_range n i (event_iteration env input interval start) w = (o, w')
    /\ extends w w' t
    /\ paced env att start interval i n t o.
Proof.
  induction n as [|n IH]; intros i w.
  - exists (inr Continue), w, []. split; [reflexivity|].
    split; [apply extends_refl | constructor].
  - cbn [for_range]. unfold bind.
    destruct (flag_at env w) eqn:Fl.
    + destruct (event_iteration_stopped interval start i w Fl)
        as (w' & -> & X & _).
      exists (inr Return), w', [ReadStop true]. split; [reflexivity|].
      split; [exact X | constructor].
    + destruct (event_iteration_runs interval start i w Fl)
        as (w1 & d & o & w' & _ & D & X1 & -> & K).
      cbv zeta in K.
      destruct K as [(e & Fp & Se & -> & X2)|(-> & X2 & _)].
      * exists (inl e), w'. eexists. split; [reflexivity|].
        split; [apply (extends_trans _ _ _ _ _ X1 X2)|].
        cbn [List.app]. now apply paced_refused.
      * destruct (signal_at env (S (checks w))).
        -- exists (inr Return), w'. eexists. split; [reflexivity|].
           split; [apply (extends_trans _ _ _ _ _ X1 X2)|].
           cbn [List.app]. now apply paced_interrupted.
        -- destruct (IH (i + 1) w') as (o & w'' & t & -> & X3 & P).
           exists o, w''. eexists. split; [reflexivity|].
           split; [apply (extends_trans _ _ _ _ _ X1
                            (extends_trans _ _ _ _ _ X2 X3))|].
           cbn [List.app]. rewrite <- app_assoc. cbn [List.app].
           now apply paced_event.
Qed.

Lemma cycle_paced interval cantidad (w : World F) :
  let start_cycle := monotonic_at env (ticks w) in
  exists o w' t,
    cycle env input interval cantidad w
    = (match o with
       | inr r => inr (start_cycle, r)
       | inl e => inl e
       end, w')
    /\ extends w w' (Monotonic start_cycle :: t)
    /\ paced env att start_cycle interval 0 (Z.to_nat cantidad) t o.
Proof.
  cbv zeta. rewrite cycle_unfold. cbv zeta.
  destruct (for_range_paced interval (monotonic_at env (ticks w))
              (Z.to_nat cantidad) 0
              (emit_effect (Monotonic (monotonic_at env (ticks w)))
                           (next_tick w)))
    as (o & w' & t & -> & X & P).
  exists o, w', t. split; [destruct o; reflexivity|]. split; [|exact P].
  apply (extends_trans _ _ _ _ _ (extends_clock w _) X).
Qed.

End Loop.

(** *** What an attempt leaves *)

Section AttemptFacts.

Context {F : Type} {PF : PyFloat F}.

Lemma string_app_assoc (a b c : string) :
  (a ++ (b ++ c) = (a ++ b) ++ c)%string.
Proof. induction a as [|x a IH]; simpl; [reflexivity | now rewrite IH]. Qed.

Lemma tagged_join (input filename : string) :
  tagged filename -> tagged (path_join input filename).
Proof.
  intros (stem & ext & He & ->). unfold path_join.
  destruct (String.eqb input ""); [|destruct (ends_with_slash input)].
  - exists stem, ext. auto.
  - exists (input ++ stem)%string, ext. split; [assumption|].
    apply string_app_assoc.
  - exists (input ++ "/" ++ stem)%string, ext. split; [assumption|].
    now rewrite <- !string_app_assoc.
Qed.

Lemma n_records_cons (e : Effect F) (t : list (Effect F)) :
  n_records (e :: t) = ((if is_record e then 1 else 0) + n_records t)%nat.
Proof. unfold n_records. cbn [filter]. destruct (is_record e); reflexivity. Qed.

Lemma n_created_cons (e : Effect F) (t : list (Effect F)) :
  n_created (e :: t) = ((if is_creation e then 1 else 0) + n_created t)%nat.
Proof.
  unfold n_created. cbn [filter]. destruct (is_creation e); reflexivity.
Qed.

Lemma pause_silent start interval (i : Z) (now : F) :
  n_records (pause start interval i now) = 0%nat
  /\ n_created (pause start interval i now) = 0%nat
  /\ records (pause start interval i now) = [].
Proof. unfold pause. destruct (flt _ _); repeat split. Qed.

(** An attempt leaves one record, the Event record of an artifact it has
    written or an Error record with the index of the event; it makes one
    file at most, in the input directory. *)
Lemma any_attempt_counts input (i : Z) (d : list (Effect F)) :
  any_attempt input i d ->
  n_records d = 1%nat
  /\ (n_created d <= 1)%nat
  /\ n_written d = List.length (metrics_lines d)
  /\ (n_written d <= n_created d)%nat
  /\ (n_created d <= n_written d + List.length (error_rows d))%nat
  /\ (List.length (metrics_lines d) + List.length (error_rows d))%nat = 1%nat
  /\ exists r, records d = [r]
               /\ forall row, r = ErrorsWrite row -> err_index row = i.
Proof.
  intros [(ts & desc & [-> | (fn & _ & ->)])
         |(full & fn & ext & size & t & ts & el & -> & _)]; cbv zeta.
  - repeat (split; [reflexivity || (cbn; lia)|]).
    eexists. split; [reflexivity|]. now intros row [= <-].
  - repeat (split; [reflexivity || (cbn; lia)|]).
    eexists. split; [reflexivity|]. now intros row [= <-].
  - repeat (split; [reflexivity || (cbn; lia)|]).
    eexists. split; [reflexivity|]. intros row. discriminate.
Qed.

Lemma any_attempt_facts input (i : Z) (d : list (Effect F)) :
  any_attempt input i d ->
  Forall effect_ok d
  /\ Forall (fun l => is_event_row l = true) (metrics_lines d)
  /\ Forall (fun r => err_index r = i) (error_rows d)
  /\ Forall sleep_positive d
  /\ (forall full, In (OpenWrite full) d ->
                   exists fn, full = path_join input fn)
  /\ (forall full size, In (WriteFile full size) d ->
                        exists fn, full = path_join input fn)
  /\ (forall ts fn ext size el,
         In (EventRow ts fn ext size el) (metrics_lines d) ->
         In (WriteFile (path_join input fn) size) d).
Proof.
  intros [(ts & desc & [-> | (fn & T & ->)])
         |(full & fn & ext & size & t & ts & el & -> & Hs & He & [stem Hf]
           & ->)]; cbv zeta.
  - split; [repeat constructor|]. split; [constructor|].
    split; [repeat constructor|]. split; [repeat constructor|].
    split; [intros full [H|[]]; discriminate|].
    split; [intros full size [H|[]]; discriminate|].
    intros ? ? ? ? ? [].
  - split; [constructor; [now apply tagged_join | repeat constructor]|].
    split; [constructor|].
    split; [repeat constructor|]. split; [repeat constructor|].
    split.
    { intros full [H|[H|[]]]; [|discriminate].
      injection H as <-. eexists. reflexivity. }
    split; [intros full size [H|[H|[]]]; discriminate|].
    intros ? ? ? ? ? [].
  - assert (T : tagged (path_join input fn))
      by (apply tagged_join; exists stem, ext; auto).
    split.
    { constructor; [exact T|]. constructor; [split; assumption|].
      constructor; [exact I|]. constructor; [|constructor].
      split; [exact Hs|]. split; [exact He|]. exists stem. exact Hf. }
    split; [repeat constructor|]. split; [constructor|].
    split; [repeat constructor|].
    split.
    { intros full [H|[H|[H|[H|[]]]]]; try discriminate.
      injection H as <-. eexists. reflexivity. }
    split.
    { intros full size' [H|[H|[H|[H|[]]]]]; try discriminate.
      injection H as <- _. eexists. reflexivity. }
    intros ts' fn' ext' size' el' [H|[]].
    injection H as _ <- _ <- _. right. left. reflexivity.
Qed.

End AttemptFacts.

(** *** The counts of the loop *)

Section SimulatorFacts.

Context {F : Type} {PF : PyFloat F} (env : Env F).

Lemma trace_of_extends (w w' : World F) (d : list (Effect F)) :
  extends w w' d -> trace w' = trace w ++ d.
Proof. now intros (T & _). Qed.

(** What one iteration does to the counts and to the flag. *)
Lemma event_iteration_step input interval start (i : Z) (w : World F) :
  exists o w',
    event_iteration env input interval start i w = (o, w')
    /\ if flag_at env w
       then o = inr Return
            /\ n_records (trace w') = n_records (trace w)
            /\ n_created (trace w') = n_created (trace w)
            /\ stop_requested w' = true
       else n_records (trace w') = S (n_records (trace w))
            /\ (n_created (trace w') <= S (n_created (trace w)))%nat
            /\ (sleep_raised env o w'
                \/ (o = inr (if signal_at env (S (checks w))
                             then Return else Continue)
                    /\ checks w' = S (S (checks w))
                    /\ stop_requested w' = signal_at env (S (checks w)))).
Proof.
  destruct (flag_at env w) eqn:Fl.
  - destruct (event_iteration_stopped env input interval start i w Fl)
      as (w' & E & X & _ & St).
    exists (inr Return), w'. split; [exact E|].
    rewrite (trace_of_extends _ _ _ X), n_records_app, n_created_app.
    cbn. repeat split; try lia. exact St.
  - destruct (event_iteration_runs env (any_attempt input) input
                (attempt_any env input) interval start i w Fl)
      as (w1 & d & o & w' & _ & D & X1 & E & K).
    exists o, w'. split; [exact E|].
    destruct (any_attempt_counts input i d D) as (NR & NC & _).
    cbv zeta in K. destruct K as [(e & Fp & Se & -> & X2)|(-> & X2 & C & St)].
    + rewrite (trace_of_extends _ _ _ X2), (trace_of_extends _ _ _ X1).
      rewrite !n_records_app, !n_created_app, n_records_cons, n_created_cons.
      cbn. split; [lia|]. split; [lia|]. left.
      exists e. eexists. eexists. split; [reflexivity|]. split; [exact Se|].
      rewrite (trace_of_extends _ _ _ X2).
      change [?a; ?b] with ([a] ++ [b]). rewrite app_assoc. reflexivity.
    + rewrite (trace_of_extends _ _ _ X2), (trace_of_extends _ _ _ X1).
      rewrite !n_records_app, !n_created_app, !n_records_cons,
        !n_created_cons, !n_records_app, !n_created_app.
      destruct (pause_silent start interval i (monotonic_at env (ticks w1)))
        as (-> & -> & _).
      cbn. split; [lia|]. split; [lia|]. right. repeat split; assumption.
Qed.

(** **** The event loop *)

Lemma for_range_total input interval start (n : nat) :
  forall (i : Z) (w : World F),
  exists o w',
    for_range n i (event_iteration env input interval start) w = (o, w')
    /\ (n_records (trace w') <= n_records (trace w) + n)%nat
    /\ (n_created (trace w') <= n_created (trace w) + n)%nat
    /\ match o with
       | inr Continue =>
           checks w' = (checks w + 2 * n)%nat
           /\ (stop_requested w = false \/ (0 < n)%nat ->
               stop_requested w' = false)
           /\ n_records (trace w') = (n_records (trace w) + n)%nat
       | inr Return => stop_requested w' = true
       | inl _ => sleep_raised env o w'
       end.
Proof.
  induction n as [|n IH]; intros i w.
  - exists (inr Continue), w. cbn [for_range]. unfold ret.
    split; [reflexivity|]. repeat split; try lia.
    intros [E|E]; [exact E | lia].
  - cbn [for_range]. unfold bind.
    destruct (event_iteration_step input interval start i w)
      as (o & w1 & -> & St).
    destruct (flag_at env w) eqn:Fl.
    + destruct St as (-> & NR & NC & Sr). exists (inr Return), w1.
      split; [reflexivity|]. repeat split; try lia. exact Sr.
    + destruct St as (NR & NC & [K|(-> & C & Sr)]).
      * destruct K as (e & d & t & -> & Se & T).
        exists (inl e), w1. split; [reflexivity|].
        split; [lia|]. split; [lia|]. exists e, d, t. auto.
      * destruct (signal_at env (S (checks w))) eqn:Sg.
        -- exists (inr Return), w1. split; [reflexivity|].
           repeat split; try lia. exact Sr.
        -- destruct (IH (i + 1) w1) as (o & w' & -> & NR' & NC' & K).
           exists o, w'. split; [reflexivity|].
           split; [lia|]. split; [lia|].
           destruct o as [e|[|]]; [exact K| |exact K].
           destruct K as (K1 & K2 & K3).
           split; [lia|]. split; [|lia].
           intros _. apply K2. left. exact Sr.
Qed.

Lemma for_range_stop input interval start (n : nat) :
  forall (i : Z) (w : World F) (c m : nat),
    (c < 2 * n)%nat -> (c <= 2 * m)%nat -> flagged_by env w c ->
    exists o w',
      for_range n i (event_iteration env input interval start) w = (o, w')
      /\ (o = inr Return \/ sleep_raised env o w')
      /\ (n_records (trace w') <= n_records (trace w) + m)%nat
      /\ (n_created (trace w') <= n_created (trace w) + m)%nat.
Proof.
  induction n as [|n IH]; intros i w c m Hc Hm Hf; [lia|].
  cbn [for_range]. unfold bind.
  destruct (event_iteration_step input interval start i w)
    as (o & w1 & -> & St).
  destruct (flag_at env w) eqn:Fl.
  - destruct St as (-> & NR & NC & _). exists (inr Return), w1.
    split; [reflexivity|]. split; [left; reflexivity | lia].
  - destruct St as (NR & NC & K).
    unfold flag_at in Fl. apply orb_false_iff in Fl. destruct Fl as [F1 F2].
    assert (Hs : signal_at env (checks w + c) = true).
    { destruct Hf as [Hf|Hf]; [congruence | exact Hf]. }
    assert (c <> 0)%nat.
    { intros ->. rewrite Nat.add_0_r in Hs. congruence. }
    destruct K as [K|(-> & C & Sr)].
    + destruct K as (e & d & t & -> & Se & T).
      exists (inl e), w1. split; [reflexivity|].
      split; [right; exists e, d, t; auto | lia].
    + destruct (signal_at env (S (checks w))) eqn:Sg.
      * exists (inr Return), w1. split; [reflexivity|].
        split; [left; reflexivity | lia].
      * assert (c <> 1)%nat.
        { intros ->. rewrite Nat.add_1_r in Hs. congruence. }
        destruct (IH (i + 1) w1 (c - 2)%nat (m - 1)%nat)
          as (o & w' & -> & K & NR' & NC').
        -- lia.
        -- lia.
        -- right. rewrite C. replace (S (S (checks w)) + (c - 2))%nat
             with (checks w + c)%nat by lia. exact Hs.
        -- exists o, w'. split; [reflexivity|]. split; [exact K | lia].
Qed.

(** No flag, no signal: the loop runs its [n] events, unless [time.sleep]
    raises. *)
Lemma for_range_quiet input interval start (n : nat) :
  forall (i : Z) (w : World F),
    stop_requested w = false ->
    (forall j, (j < 2 * n)%nat -> signal_at env (checks w + j) = false) ->
    exists o w',
      for_range n i (event_iteration env input interval start) w = (o, w')
      /\ ((o = inr Continue
           /\ n_records (trace w') = (n_records (trace w) + n)%nat)
          \/ sleep_raised env o w').
Proof.
  induction n as [|n IH]; intros i w Hs Hq.
  - exists (inr Continue), w. split; [reflexivity|]. left. split; [reflexivity | lia].
  - cbn [for_range]. unfold bind.
    destruct (event_iteration_step input interval start i w)
      as (o & w1 & -> & St).
    assert (Fl : flag_at env w = false).
    { unfold flag_at. rewrite Hs. cbn [orb].
      rewrite <- (Nat.add_0_r (checks w)). apply Hq. lia. }
    rewrite Fl in St. destruct St as (NR & NC & [K|(-> & C & Sr)]).
    + destruct K as (e & d & t & -> & Se & T).
      exists (inl e), w1. split; [reflexivity|]. right. exists e, d, t. auto.
    + assert (Sg : signal_at env (S (checks w)) = false).
      { rewrite <- Nat.add_1_r. apply Hq. lia. }
      rewrite Sg in *.
      destruct (IH (i + 1) w1 Sr) as (o & w' & -> & K).
      * intros j Hj. rewrite C.
        replace (S (S (checks w)) + j)%nat with (checks w + (2 + j))%nat by lia.
        apply Hq. lia.
      * exists o, w'. split; [reflexivity|].
        destruct K as [(-> & NR')|K]; [left; split; [reflexivity | lia]
                                      | right; exact K].
Qed.

(** **** The cycles *)

Lemma cycle_total input interval cantidad (w : World F) :
  exists o w',
    for_range (Z.to_nat cantidad) 0
              (event_iteration env input interval
                               (monotonic_at env (ticks w)))
              (emit_effect (Monotonic (monotonic_at env (ticks w)))
                           (next_tick w)) = (o, w')
    /\ cycle env input interval cantidad w
       = (match o with
          | inr r => inr (monotonic_at env (ticks w), r)
          | inl e => inl e
          end, w')
    /\ (n_records (trace w') <= n_records (trace w) + Z.to_nat cantidad)%nat
    /\ (n_created (trace w') <= n_created (trace w) + Z.to_nat cantidad)%nat
    /\ match o with
       | inr Continue =>
           checks w' = (checks w + 2 * Z.to_nat cantidad)%nat
           /\ (stop_requested w = false \/ (0 < Z.to_nat cantidad)%nat ->
               stop_requested w' = false)
           /\ n_records (trace w')
              = (n_records (trace w) + Z.to_nat cantidad)%nat
       | inr Return => stop_requested w' = true
       | inl _ => sleep_raised env o w'
       end.
Proof.
  destruct (for_range_total input interval (monotonic_at env (ticks w))
              (Z.to_nat cantidad) 0
              (emit_effect (Monotonic (monotonic_at env (ticks w)))
                           (next_tick w)))
    as (o & w' & E & NR & NC & K).
  exists o, w'. split; [exact E|].
  split; [rewrite cycle_unfold; cbv zeta; rewrite E; destruct o; reflexivity|].
  revert NR NC K. proj. rewrite n_records_app, n_created_app. cbn.
  rewrite !Nat.add_0_r. intros NR NC K.
  split; [exact NR|]. split; [exact NC|]. exact K.
Qed.

Lemma cycle_quiet input interval cantidad (w : World F) :
  stop_requested w = false ->
  (forall j, (j < 2 * Z.to_nat cantidad)%nat ->
             signal_at env (checks w + j) = false) ->
  exists o w',
    cycle env input interval cantidad w = (o, w')
    /\ ((o = inr (monotonic_at env (ticks w), Continue)
         /\ n_records (trace w')
            = (n_records (trace w) + Z.to_nat cantidad)%nat)
        \/ sleep_raised env o w').
Proof.
  intros Hs Hq. rewrite cycle_unfold. cbv zeta.
  destruct (for_range_quiet input interval (monotonic_at env (ticks w))
              (Z.to_nat cantidad) 0
              (emit_effect (Monotonic (monotonic_at env (ticks w)))
                           (next_tick w)) Hs Hq)
    as (o & w' & -> & [(-> & NR)|K]).
  - eexists. exists w'. split; [reflexivity|]. left. split; [reflexivity|].
    rewrite NR. proj. rewrite n_records_app. cbn. lia.
  - destruct K as (e & d & t & -> & Se & T).
    exists (inl e), w'. split; [reflexivity|]. right. exists e, d, t. auto.
Qed.

(** The reading of the clock and the idle sleep between two cycles. *)
Lemma idle_spec total start (w : World F) :
  let now := monotonic_at env (ticks w) in
  let idle := pymax (of_int 0) (fsub (of_int total) (fsub now start)) in
  exists w2,
    (now <- monotonic env ;;
     (let idle := pymax (of_int 0)
                        (fsub (of_int total) (fsub now start)) in
      if flt (of_int 0) idle then sleep env idle else ret tt)) w
    = (match (if flt (of_int 0) idle then sleep_error env idle else None)
       with
       | Some e => inl e
       | None => inr tt
       end, w2)
    /\ trace w2 = trace w
                  ++ Monotonic now
                  :: (if flt (of_int 0) idle then [Sleep idle] else [])
    /\ ticks w2 = S (ticks w) /\ checks w2 = checks w
    /\ stop_requested w2 = stop_requested w.
Proof.
  cbv zeta.
  rewrite (pace_spec env (fun now => pymax (of_int 0)
                                       (fsub (of_int total) (fsub now start)))).
  cbv zeta. destruct (flt (of_int 0) _).
  - eexists. split; [reflexivity|]. proj. rewrite <- app_assoc.
    repeat split.
  - eexists. split; [reflexivity|]. proj. repeat split.
Qed.

Lemma while_true_again input interval total cantidad (fuel : nat)
      (w w1 : World F) (start_cycle : F) :
  cycle env input interval cantidad w = (inr (start_cycle, Continue), w1) ->
  let now := monotonic_at env (ticks w1) in
  let idle := pymax (of_int 0)
                    (fsub (of_int total) (fsub now start_cycle)) in
  exists w2,
    trace w2 = trace w1
               ++ Monotonic now
               :: (if flt (of_int 0) idle then [Sleep idle] else [])
    /\ ticks w2 = S (ticks w1) /\ checks w2 = checks w1
    /\ stop_requested w2 = stop_requested w1
    /\ while_true env (S fuel) input interval total cantidad true w
       = match (if flt (of_int 0) idle then sleep_error env idle else None)
         with
         | Some e => (inl e, w2)
         | None => while_true env fuel input interval total cantidad true w2
         end.
Proof.
  intros H. cbv zeta. rewrite while_true_step, H.
  destruct (idle_spec total start_cycle w1) as (w2 & -> & T & Ti & C & St).
  exists w2. split; [exact T|]. split; [exact Ti|]. split; [exact C|].
  split; [exact St|].
  destruct (flt (of_int 0) _); [destruct (sleep_error env _)|]; reflexivity.
Qed.

Lemma while_true_stop input interval total cantidad (loop : bool) (fuel : nat)
      (w : World F) (k c : nat) :
  ((if loop then 2 else 1) <= fuel)%nat ->
  (k < Z.to_nat cantidad)%nat -> (c <= 2 * k + 2)%nat -> flagged_by env w c ->
  exists o w',
    while_true env fuel input interval total cantidad loop w = (o, w')
    /\ (o = inr Returned \/ sleep_raised env o w')
    /\ (n_records (trace w') <= n_records (trace w) + (k + 1))%nat
    /\ (n_created (trace w') <= n_created (trace w) + (k + 1))%nat.
Proof.
  intros Hfuel Hk Hc Hf.
  destruct fuel as [|fuel]; [destruct loop; lia|].
  set (start := monotonic_at env (ticks w)).
  set (w0 := emit_effect (Monotonic start) (next_tick w)).
  assert (R0 : n_records (trace w0) = n_records (trace w)).
  { subst w0. proj. rewrite n_records_app. cbn. lia. }
  assert (C0 : n_created (trace w0) = n_created (trace w)).
  { subst w0. proj. rewrite n_created_app. cbn. lia. }
  assert (Hf0 : flagged_by env w0 c) by exact Hf.
  assert (Stop : forall c' m',
             (c' < 2 * Z.to_nat cantidad)%nat -> (c' <= 2 * m')%nat ->
             (m' <= k + 1)%nat -> flagged_by env w0 c' ->
             exists o w',
               while_true env (S fuel) input interval total cantidad loop w
               = (o, w')
               /\ (o = inr Returned \/ sleep_raised env o w')
               /\ (n_records (trace w') <= n_records (trace w) + (k + 1))%nat
               /\ (n_created (trace w') <= n_created (trace w) + (k + 1))%nat).
  { intros c' m' L1 L2 L3 Hf'.
    destruct (for_range_stop input interval start (Z.to_nat cantidad) 0 w0 c'
                             m' L1 L2 Hf')
      as (o & w' & E & K & NR & NC).
    assert (Cy : cycle env input interval cantidad w
                 = (match o with
                    | inr r => inr (start, r)
                    | inl e => inl e
                    end, w')).
    { rewrite cycle_unfold. cbv zeta. fold start. fold w0. rewrite E.
      destruct o; reflexivity. }
    destruct K as [->|K].
    - exists (inr Returned), w'. split.
      + destruct loop; [rewrite while_true_step | rewrite while_true_once];
          rewrite Cy; reflexivity.
      + split; [left; reflexivity | lia].
    - destruct K as (e & d & t & -> & Se & T).
      exists (inl e), w'. split.
      + destruct loop; [rewrite while_true_step | rewrite while_true_once];
          rewrite Cy; reflexivity.
      + split; [right; exists e, d, t; auto | lia]. }
  destruct (Nat.lt_ge_cases c (2 * Z.to_nat cantidad)) as [Hlt|Hge].
  { apply (Stop c (k + 1)%nat); [exact Hlt | lia | lia | exact Hf0]. }
  destruct Hf0 as [Hs|Hs].
  { apply (Stop 0%nat 0%nat); [lia | lia | lia | left; exact Hs]. }
  destruct (cycle_total input interval cantidad w)
    as (o & w1 & _ & Cy & NR & NC & K).
  fold start in Cy.
  destruct o as [e|[|]].
  - destruct K as (e' & d & t & E' & Se & T). injection E' as <-.
    exists (inl e), w1. split.
    + destruct loop; [rewrite while_true_step | rewrite while_true_once];
        rewrite Cy; reflexivity.
    + split; [right; exists e, d, t; auto | lia].
  - destruct K as (K1 & _ & _).
    destruct loop.
    + destruct fuel as [|fuel]; [cbn in Hfuel; lia|].
      destruct (while_true_again input interval total cantidad (S fuel)
                  w w1 start Cy) as (w2 & T2 & Ti2 & C2 & S2 & ->).
      set (idle := pymax (of_int 0)
                         (fsub (of_int total)
                               (fsub (monotonic_at env (ticks w1)) start)))
        in *.
      assert (N2 : n_records (trace w2) = n_records (trace w1)
                   /\ n_created (trace w2) = n_created (trace w1)).
      { rewrite T2, !n_records_app, !n_created_app, n_records_cons,
          n_created_cons.
        destruct (flt (of_int 0) idle); cbn; lia. }
      destruct (if flt (of_int 0) idle then sleep_error env idle else None)
        as [e|] eqn:Id.
      * exists (inl e), w2. split; [reflexivity|].
        destruct (flt (of_int 0) idle); [|discriminate]. split; [|lia].
        right. exists e, idle. eexists. split; [reflexivity|].
        split; [exact Id|]. rewrite T2.
        change (?a :: [?b]) with ([a] ++ [b]). rewrite app_assoc.
        reflexivity.
      * set (start2 := monotonic_at env (ticks w2)).
        set (w3 := emit_effect (Monotonic start2) (next_tick w2)).
        destruct (for_range_stop input interval start2 (Z.to_nat cantidad) 0
                                 w3 0%nat 0%nat)
          as (o & w' & E & K & NR' & NC').
        { lia. }
        { lia. }
        { right. subst w3. proj. rewrite Nat.add_0_r, C2, K1.
          replace (checks w + 2 * Z.to_nat cantidad)%nat
            with (checks w + c)%nat by lia.
          exact Hs. }
        assert (Cy2 : cycle env input interval cantidad w2
                      = (match o with
                         | inr r => inr (start2, r)
                         | inl e => inl e
                         end, w')).
        { rewrite cycle_unfold. cbv zeta. fold start2. fold w3. rewrite E.
          destruct o; reflexivity. }
        assert (N3 : n_records (trace w3) = n_records (trace w1)
                     /\ n_created (trace w3) = n_created (trace w1)).
        { subst w3. proj. rewrite !n_records_app, !n_created_app. cbn. lia. }
        destruct K as [->|K].
        -- exists (inr Returned), w'. split.
           ++ rewrite while_true_step, Cy2. reflexivity.
           ++ split; [left; reflexivity | lia].
        -- destruct K as (e & d & t & -> & Se & T).
           exists (inl e), w'. split.
           ++ rewrite while_true_step, Cy2. reflexivity.
           ++ split; [right; exists e, d, t; auto | lia].
    + exists (inr Returned), w1. split.
      * rewrite while_true_once, Cy. reflexivity.
      * split; [left; reflexivity | lia].
  - exists (inr Returned), w1. split.
    + destruct loop; [rewrite while_true_step | rewrite while_true_once];
        rewrite Cy; reflexivity.
    + split; [left; reflexivity | lia].
Qed.

(** **** Before the first cycle *)

Lemma setup_effects_count base_path (w : World F) :
  n_records (setup_effects base_path w) = 0%nat
  /\ n_created (setup_effects base_path w) = 0%nat
  /\ n_written (setup_effects base_path w) = 0%nat
  /\ Forall effect_ok (setup_effects base_path w)
  /\ Forall sleep_positive (setup_effects base_path w).
Proof.
  unfold setup_effects.
  destruct (metrics_log w (metrics_file_of base_path)) as [[|l ls]|];
    repeat split; repeat constructor.
Qed.

Lemma setup_world_spec base_path (w : World F) :
  trace (setup_world base_path w) = trace w ++ setup_effects base_path w
  /\ ticks (setup_world base_path w) = ticks w
  /\ checks (setup_world base_path w) = checks w
  /\ stop_requested (setup_world base_path w) = stop_requested w
  /\ metrics_handlers (setup_world base_path w)
     = metrics_handlers w ++ [metrics_file_of base_path]
  /\ errors_handlers (setup_world base_path w)
     = errors_handlers w ++ [errors_file_of base_path]
  /\ errors_log (setup_world base_path w) (errors_file_of base_path)
     = Some (rows (errors_log w (errors_file_of base_path)))
  /\ (forall q, rows (errors_log (setup_world base_path w) q)
                = rows (errors_log w q))
  /\ rows (metrics_log (setup_world base_path w) (metrics_file_of base_path))
     = metrics_after_setup w (metrics_file_of base_path).
Proof.
  unfold setup_world, _ensure_dirs, _setup_logging, setup_effects,
    metrics_after_setup, metrics_file_of, errors_file_of.
  exec. proj. rewrite open_append_same.
  destruct (metrics_log w _) as [[|l ls]|] eqn:Em; cbn [rows]; proj;
    rewrite <- ?app_assoc;
    (split; [reflexivity|]); (split; [reflexivity|]);
    (split; [reflexivity|]); (split; [reflexivity|]);
    (split; [reflexivity|]); (split; [reflexivity|]);
    (split; [apply open_append_same|]);
    (split; [intros q; apply open_append_rows|]);
    rewrite ?handle_rows, ?open_append_same, ?copies_last, ?Em; reflexivity.
Qed.

Lemma run_simulator_unfold fuel tiempo cantidad base_path loop (w : World F) :
  run_simulator env fuel tiempo cantidad base_path loop w
  = match _parse_tiempo tiempo with
    | inl e => (inl e, setup_world base_path w)
    | inr total_seconds =>
        if cantidad <=? 0 then (inl InvalidCount, setup_world base_path w)
        else while_true env fuel (path_join base_path "input")
                        (interval_of total_seconds cantidad)
                        total_seconds cantidad loop
                        (setup_world base_path w)
    end.
Proof.
  unfold run_simulator, setup_world, _ensure_dirs, _setup_logging.
  exec. proj.
  destruct (open_append _ _ _) as [[|l ls]|]; proj;
    (destruct (_parse_tiempo tiempo); [reflexivity|]);
    destruct (cantidad <=? 0); reflexivity.
Qed.

Lemma flagged_by_frame (w w0 : World F) (c : nat) :
  stop_requested w0 = stop_requested w -> checks w0 = checks w ->
  flagged_by env w c -> flagged_by env w0 c.
Proof. unfold flagged_by. now intros -> ->. Qed.

Lemma pymax_clamped (a : F) : flt (pymax a (of_int 0)) (of_int 0) = false.
Proof.
  unfold pymax. destruct (flt a (of_int 0)) eqn:E;
    [apply flt_irrefl | exact E].
Qed.

(** The interval the two assignments compute is the one of the spec. *)
Lemma interval_of_spec (total cantidad : Z) :
  0 < cantidad -> interval_of total cantidad = spec_interval total cantidad.
Proof.
  intros C. unfold interval_of, spec_interval, pymax.
  destruct (Z.ltb_spec 0 cantidad); [reflexivity | lia].
Qed.

Lemma spec_interval_clamped (total cantidad : Z) :
  flt (spec_interval total cantidad) (of_int 0) = false.
Proof.
  unfold spec_interval. cbv zeta.
  destruct (flt (truediv total cantidad) (of_int 0)) eqn:E;
    [apply flt_irrefl | exact E].
Qed.

(** What a run that passes the checks before the first cycle adds to the
    world the setup has left; it ends without an exception unless
    [time.sleep] raises. *)
Lemma run_simulator_grows (att : Z -> list (Effect F) -> Prop)
      fuel tiempo total cantidad base_path loop (w : World F) :
  (forall start i (wx : World F),
      exists w1 d,
        attempt env (path_join base_path "input") start i wx = (inr tt, w1)
        /\ att i d
        /\ extends wx w1 d
        /\ checks w1 = checks wx
        /\ stop_requested w1 = stop_requested wx) ->
  _parse_tiempo tiempo = inr total -> 0 < cantidad ->
  exists o w',
    run_simulator env fuel tiempo cantidad base_path loop w = (o, w')
    /\ grows att 0 cantidad (setup_world base_path w) w'
    /\ ((exists r, o = inr r) \/ sleep_raised env o w').
Proof.
  intros A P C. rewrite run_simulator_unfold, P.
  destruct (Z.leb_spec cantidad 0) as [L|L]; [lia|].
  apply (while_true_grows env att _ A); lia.
Qed.

(** The pieces a property of a trace is made of. *)
Lemma shaped_any_ok input lo hi (d : list (Effect F)) :
  shaped (any_attempt input) lo hi d ->
  Forall effect_ok d /\ Forall sleep_positive d.
Proof.
  intros S. split.
  - apply (shaped_Forall (any_attempt input) _ lo hi d); try exact S;
      try (intros; exact I).
    intros i x _ X. apply (any_attempt_facts input i x X).
  - apply (shaped_Forall (any_attempt input) _ lo hi d); try exact S;
      try (intros; exact I).
    + intros s P. exact P.
    + intros i x _ X. apply (any_attempt_facts input i x X).
Qed.

(** Every execution: what it adds to the trace. *)
Lemma run_simulator_trace fuel tiempo cantidad base_path loop (w : World F) :
  exists d,
    trace (snd (run_simulator env fuel tiempo cantidad base_path loop w))
    = trace w ++ setup_effects base_path w ++ d
    /\ shaped (any_attempt (path_join base_path "input")) 0 cantidad d.
Proof.
  rewrite run_simulator_unfold.
  destruct (setup_world_spec base_path w) as (T0 & _).
  assert (N : exists d,
             trace (setup_world base_path w)
             = trace w ++ setup_effects base_path w ++ d
             /\ shaped (any_attempt (path_join base_path "input")) 0
                       cantidad d).
  { exists []. rewrite app_nil_r. split; [exact T0 | constructor]. }
  destruct (_parse_tiempo tiempo) as [e|total]; [exact N|].
  destruct (Z.leb_spec cantidad 0) as [L|L]; [exact N|].
  destruct (while_true_grows env (any_attempt (path_join base_path "input"))
              _ (attempt_any env _) (interval_of total cantidad) total
              cantidad loop fuel ltac:(lia) (setup_world base_path w))
    as (o & w' & -> & (d & S & X) & _).
  exists d. cbn [snd]. rewrite (trace_of_extends _ _ _ X), T0, <- app_assoc.
  split; [reflexivity | exact S].
Qed.

(** *** The claims on the loop *)

(** C2, amended.  With a duration that parses and [cantidad <= 0],
    [run_simulator] raises [InvalidCount] before any cycle begins: no
    clock is read, the flag is not read, no artifact is created and no
    Event or Error record is emitted.  By then [_ensure_dirs] and
    [_setup_logging] have run: both directories are made, both log files
    are opened, and the header row is written when the metrics file is
    empty. *)
Theorem run_simulator_invalid_count fuel tiempo total cantidad base_path
        loop (w : World F) :
  _parse_tiempo tiempo = inr total ->
  cantidad <= 0 ->
  exists w',
    run_simulator env fuel tiempo cantidad base_path loop w
    = (inl InvalidCount, w')
    /\ trace w' = trace w ++ setup_effects base_path w
    /\ ticks w' = ticks w /\ checks w' = checks w
    /\ n_records (trace w') = n_records (trace w)
    /\ n_created (trace w') = n_created (trace w)
    /\ errors_log w' (errors_file_of base_path)
       = Some (rows (errors_log w (errors_file_of base_path))).
Proof.
  intros P C. rewrite run_simulator_unfold, P.
  destruct (Z.leb_spec cantidad 0) as [L|L]; [|lia].
  exists (setup_world base_path w). split; [reflexivity|].
  destruct (setup_world_spec base_path w) as (T & K & Ch & _ & _ & _ & E & _).
  destruct (setup_effects_count base_path w) as (NR & NC & _).
  rewrite T, n_records_app, n_created_app, NR, NC.
  repeat split; auto.
Qed.

(** C3.  The reads of the flag are numbered from the call on: reads
    [2 * i] and [2 * i + 1] of the first cycle are the one at the start of
    event [i] and the one after its sleep.  If the flag is up by read
    [2 * k + 2], that is, it is set after event [k] at the latest, with
    [k < N], then the run ends with at most [k + 1] records and at most
    [k + 1] artifacts: it returns, unless [time.sleep] has raised before.
    In every iteration the flag is read first, and the iteration returns
    at once when it is up; otherwise it is read again as the last thing
    after the sleep, and the run returns when it is up then. *)
Theorem run_simulator_stop fuel tiempo total cantidad base_path
        (loop : bool) (w : World F) (k c : nat) :
  _parse_tiempo tiempo = inr total ->
  (k < Z.to_nat cantidad)%nat ->
  (c <= 2 * k + 2)%nat ->
  flagged_by env w c ->
  ((if loop then 2 else 1) <= fuel)%nat ->
  (exists o w',
      run_simulator env fuel tiempo cantidad base_path loop w = (o, w')
      /\ (o = inr Returned \/ sleep_raised env o w')
      /\ (n_records (trace w') <= n_records (trace w) + (k + 1))%nat
      /\ (n_created (trace w') <= n_created (trace w) + (k + 1))%nat)
  /\ (forall input interval start i (w1 : World F),
         flag_at env w1 = true ->
         exists w2,
           event_iteration env input interval start i w1 = (inr Return, w2)
           /\ trace w2 = trace w1 ++ [ReadStop true])
  /\ (forall input interval start i (w1 : World F),
         flag_at env w1 = false ->
         exists wa o w2 now,
           attempt env input start i
                   (emit_effect (ReadStop false) (next_check w1))
           = (inr tt, wa)
           /\ event_iteration env input interval start i w1 = (o, w2)
           /\ ((o = inr (if signal_at env (S (checks w1))
                         then Return else Continue)
                /\ exists sleeps,
                    trace w2 = trace wa ++ Monotonic now :: sleeps
                               ++ [ReadStop (signal_at env (S (checks w1)))]
                    /\ (sleeps = [] \/ exists d, sleeps = [Sleep d]))
               \/ (sleep_raised env o w2
                   /\ exists d, trace w2
                                = trace wa ++ [Monotonic now; Sleep d]))).
Proof.
  intros P Hk Hc Hf Hfuel. split; [|split].
  - rewrite run_simulator_unfold, P.
    destruct (Z.leb_spec cantidad 0) as [L|L].
    { lia. }
    destruct (setup_world_spec base_path w) as (T & _ & Ch & St & _).
    destruct (setup_effects_count base_path w) as (NR & NC & _).
    destruct (while_true_stop (path_join base_path "input")
                (interval_of total cantidad) total cantidad loop fuel
                (setup_world base_path w) k c Hfuel Hk Hc)
      as (o & w' & -> & K & NR' & NC').
    { apply (flagged_by_frame w); assumption. }
    exists o, w'. split; [reflexivity|]. split; [exact K|].
    rewrite T, n_records_app, n_created_app, NR, NC in *. lia.
  - intros input interval start i w1 Fl.
    destruct (event_iteration_stopped env input interval start i w1 Fl)
      as (w2 & E & X & _).
    exists w2. split; [exact E | exact (trace_of_extends _ _ _ X)].
  - intros input interval start i w1 Fl.
    destruct (event_iteration_runs env (any_attempt input) input
                (attempt_any env input) interval start i w1 Fl)
      as (wa & d & o & w2 & A & _ & _ & E & K).
    exists wa, o, w2, (monotonic_at env (ticks wa)).
    split; [exact A|]. split; [exact E|].
    cbv zeta in K. destruct K as [(e & Fp & Se & -> & X2)|(-> & X2 & _)].
    + right. rewrite (trace_of_extends _ _ _ X2). split.
      * exists e. eexists. eexists. split; [reflexivity|].
        split; [exact Se|]. rewrite (trace_of_extends _ _ _ X2).
        change [?a; ?b] with ([a] ++ [b]). rewrite app_assoc. reflexivity.
      * eexists. reflexivity.
    + left. split; [reflexivity|].
      exists (pause start interval i (monotonic_at env (ticks wa))).
      split; [exact (trace_of_extends _ _ _ X2)|].
      unfold pause. destruct (flt _ _);
        [right; eexists; reflexivity | left; reflexivity].
Qed.

(** C4.  The run computes the interval of the spec, [total_seconds /
    cantidad], or 0 when that is below 0, and every cycle follows the
    schedule of the spec with it: the cycle reads the clock at its start,
    and the events are attempted in the order of their indices, from 0;
    when event [i] is over the clock is read ([now]), and
    [start_cycle + (i + 1) * interval - now] is slept when that is
    positive, nothing otherwise: the time aimed at depends on the start of
    the cycle, not on the events before. *)
Theorem event_pacing fuel tiempo total cantidad base_path (loop : bool)
        (w : World F) :
  _parse_tiempo tiempo = inr total -> 0 < cantidad ->
  let input := path_join base_path "input" in
  let interval := spec_interval total cantidad in
  flt interval (of_int 0) = false
  /\ run_simulator env fuel tiempo cantidad base_path loop w
     = while_true env fuel input interval total cantidad loop
                  (setup_world base_path w)
  /\ (forall wc : World F,
         let start_cycle := monotonic_at env (ticks wc) in
         exists o wc' t,
           cycle env input interval cantidad wc
           = (match o with
              | inr r => inr (start_cycle, r)
              | inl e => inl e
              end, wc')
           /\ trace wc' = trace wc ++ Monotonic start_cycle :: t
           /\ paced env (any_attempt input) start_cycle interval
                    0 (Z.to_nat cantidad) t o)
  /\ (let start_cycle := monotonic_at env (ticks w) in
      exists o w' t,
        run_simulator env (S fuel) tiempo cantidad base_path false w
        = (match o with
           | inr _ => inr Returned
           | inl e => inl e
           end, w')
        /\ trace w' = trace w ++ setup_effects base_path w
                      ++ Monotonic start_cycle :: t
        /\ paced env (any_attempt input) start_cycle interval
                 0 (Z.to_nat cantidad) t o).
Proof.
  intros P C. cbv zeta.
  assert (R : forall fuel' loop',
             run_simulator env fuel' tiempo cantidad base_path loop' w
             = while_true env fuel' (path_join base_path "input")
                          (spec_interval total cantidad) total cantidad
                          loop' (setup_world base_path w)).
  { intros fuel' loop'. rewrite run_simulator_unfold, P.
    destruct (Z.leb_spec cantidad 0) as [L|L]; [lia|].
    now rewrite interval_of_spec. }
  split; [apply spec_interval_clamped|]. split; [apply R|]. split.
  - intros wc.
    destruct (cycle_paced env (any_attempt (path_join base_path "input"))
                _ (attempt_any env _) (spec_interval total cantidad)
                cantidad wc) as (o & wc' & t & E & X & Pc).
    exists o, wc', t. split; [exact E|].
    split; [exact (trace_of_extends _ _ _ X) | exact Pc].
  - rewrite R, while_true_once.
    destruct (setup_world_spec base_path w) as (T & Ti & _).
    destruct (cycle_paced env (any_attempt (path_join base_path "input"))
                _ (attempt_any env _) (spec_interval total cantidad)
                cantidad (setup_world base_path w))
      as (o & w' & t & -> & X & Pc).
    rewrite Ti in *.
    exists o, w', t. split; [destruct o; reflexivity|].
    split; [|exact Pc].
    rewrite (trace_of_extends _ _ _ X), T, <- app_assoc. reflexivity.
Qed.



(** C7.  In every execution, every artifact made or written and every
    Event record emitted has a size from 1 to [MAX_SIZE] and an extension
    of [EXTENSIONS]; and [_random_size] returns a size from 1 to the
    maximum it is given. *)
Theorem artifacts_within_bounds fuel tiempo cantidad base_path loop
        (w : World F) :
  Forall effect_ok (trace w) ->
  Forall effect_ok
         (trace (snd (run_simulator env fuel tiempo cantidad base_path
                                    loop w)))
  /\ (forall max_size (wx : World F), 1 <= max_size ->
        exists size wy,
          _random_size env max_size wx = (inr size, wy)
          /\ 1 <= size <= max_size).
Proof.
  intros O. split.
  - destruct (run_simulator_trace fuel tiempo cantidad base_path loop w)
      as (d & -> & S).
    rewrite !Forall_app. split; [exact O|]. split.
    + apply setup_effects_count.
    + apply (shaped_any_ok _ _ _ _ S).
  - intros max_size wx M. unfold _random_size.
    destruct (Z.ltb_spec 1 max_size) as [L|L].
    + exec. eexists. eexists. split; [reflexivity|].
      pose proof (Z.mod_pos_bound (random_at env (ticks wx))
                                  (max_size - 1 + 1)). lia.
    + exists 1, wx. split; [reflexivity | lia].
Qed.

End SimulatorFacts.
(** ** Identifiers of artifacts *)

Section Identifiers.

Lemma string_of_uint_digits (d : uint) :
  digits_only (NilEmpty.string_of_uint d) = true.
Proof. induction d; simpl; auto. Qed.

Lemma str_int_digits (n : Z) : 0 <= n -> digits_only (str_int n) = true.
Proof.
  intros H. unfold str_int. destruct n as [|p|p]; [reflexivity| |lia].
  cbn [Z.to_int NilZero.string_of_int]. unfold NilZero.string_of_uint.
  pose proof (Unsigned.to_uint_nonnil p) as NN.
  destruct (Pos.to_uint p) eqn:E; [congruence|..];
    rewrite <- E; apply string_of_uint_digits.
Qed.

Lemma str_int_inj (a b : Z) : str_int a = str_int b -> a = b.
Proof.
  unfold str_int. intros H.
  assert (N : forall z, Z.to_int z <> Pos Nil /\ Z.to_int z <> Neg Nil).
  { intros [|p|p]; cbn [Z.to_int]; split; try discriminate;
      intros [= E]; exact (Unsigned.to_uint_nonnil p E). }
  pose proof (NilZero.isi (Z.to_int a) (proj1 (N a)) (proj2 (N a))) as Ia.
  pose proof (NilZero.isi (Z.to_int b) (proj1 (N b)) (proj2 (N b))) as Ib.
  rewrite H in Ia. rewrite Ia in Ib. injection Ib as Ib.
  now apply DecimalZ.to_int_inj.
Qed.

(** Two strings that start with digits up to a character that is not a
    digit agree piece by piece. *)
Lemma digits_split (d1 d2 : string) (c1 c2 : ascii) (r1 r2 : string) :
  digits_only d1 = true -> digits_only d2 = true ->
  PyStr.is_digit c1 = false -> PyStr.is_digit c2 = false ->
  (d1 ++ String c1 r1 = d2 ++ String c2 r2)%string ->
  d1 = d2 /\ c1 = c2 /\ r1 = r2.
Proof.
  revert d2. induction d1 as [|x d1 IH]; intros [|y d2] D1 D2 N1 N2 E;
    cbn [append digits_only] in *.
  - injection E as -> ->. auto.
  - injection E as -> _. apply andb_true_iff in D2. destruct D2. congruence.
  - injection E as -> _. apply andb_true_iff in D1. destruct D1. congruence.
  - injection E as -> E. apply andb_true_iff in D1, D2.
    destruct D1 as [_ D1], D2 as [_ D2].
    destruct (IH d2 D1 D2 N1 N2 E) as (-> & -> & ->). auto.
Qed.

Lemma extension_shape (ext : string) :
  In ext EXTENSIONS -> exists r, ext = String "."%char r.
Proof.
  unfold EXTENSIONS. simpl.
  intros [<-|[<-|[<-|[<-|[<-|[]]]]]]; eexists; reflexivity.
Qed.

Lemma identifier_inj (t1 t2 pid b1 b2 : Z) (e1 e2 : string) :
  0 <= t1 -> 0 <= t2 -> 0 <= pid -> 0 <= b1 -> 0 <= b2 ->
  In e1 EXTENSIONS -> In e2 EXTENSIONS ->
  identifier t1 pid b1 e1 = identifier t2 pid b2 e2 ->
  t1 = t2 /\ b1 = b2 /\ e1 = e2.
Proof.
  intros T1 T2 P B1 B2 E1 E2. unfold identifier.
  rewrite <- !string_app_assoc. cbn [append].
  destruct (extension_shape e1 E1) as (r1 & R1).
  destruct (extension_shape e2 E2) as (r2 & R2).
  intros H.
  apply digits_split in H; try (now apply str_int_digits); try reflexivity.
  destruct H as (Ht & _ & H). apply str_int_inj in Ht.
  apply digits_split in H; try (now apply str_int_digits); try reflexivity.
  destruct H as (_ & _ & H).
  rewrite R1, R2 in H.
  apply digits_split in H; try (now apply str_int_digits); try reflexivity.
  destruct H as (Hb & _ & Hr). apply str_int_inj in Hb.
  subst. auto.
Qed.

Context {F : Type} {PF : PyFloat F} (env : Env F).

Lemma create_file_returns path ext size (w w' : World F) fn full :
  _create_file env path ext size w = (inr (fn, full), w') ->
  fn = identifier (time_ms_at env (ticks w)) (getpid env)
                  (random_at env (S (ticks w)) mod 2 ^ 20) ext
  /\ full = path_join path fn.
Proof.
  unfold _create_file, getrandbits, random_raw, write_random_bytes, identifier.
  cbv [bind ret tick raise emit].
  cbn [ticks next_tick].
  destruct (io_error_at env (S (S (ticks w)))) as [[e|e]|];
    [discriminate | discriminate |].
  intros [= <- <- _]. split; reflexivity.
Qed.

(** C9, amended.  The identifiers returned by two calls of [_create_file]
    are equal exactly when the two calls read the same millisecond
    timestamp, draw the same 20 random bits and are given the same
    extension (the process identifier is the same throughout a run):
    calls that differ in one of the three return different identifiers. *)
Theorem create_file_identifier path ext1 ext2 size1 size2
        (w1 w1' w2 w2' : World F) (fn1 full1 fn2 full2 : string) :
  _create_file env path ext1 size1 w1 = (inr (fn1, full1), w1') ->
  _create_file env path ext2 size2 w2 = (inr (fn2, full2), w2') ->
  In ext1 EXTENSIONS -> In ext2 EXTENSIONS ->
  0 <= time_ms_at env (ticks w1) -> 0 <= time_ms_at env (ticks w2) ->
  0 <= getpid env ->
  fn1 = fn2
  <-> (time_ms_at env (ticks w1) = time_ms_at env (ticks w2)
       /\ random_at env (S (ticks w1)) mod 2 ^ 20
          = random_at env (S (ticks w2)) mod 2 ^ 20
       /\ ext1 = ext2).
Proof.
  intros C1 C2 E1 E2 T1 T2 P.
  apply create_file_returns in C1, C2.
  destruct C1 as [-> _], C2 as [-> _].
  split.
  - apply identifier_inj; auto; apply Z.mod_pos_bound; reflexivity.
  - intros (-> & -> & ->). reflexivity.
Qed.

End Identifiers.

(** ** Repetition *)

Lemma Qlt_bool_spec (a b : Q) : Qlt_bool a b = true <-> (a < b)%Q.
Proof.
  unfold Qlt_bool. rewrite negb_true_iff. split.
  - intros H. apply Qnot_le_lt. intros L.
    apply Qle_bool_iff in L. congruence.
  - intros H. destruct (Qle_bool b a) eqn:E; [|reflexivity].
    apply Qle_bool_iff in E. exfalso. exact (Qlt_not_le _ _ H E).
Qed.

(** With exact arithmetic, the idle sleep ends [total] after the start of the
    cycle when the cycle has not overrun. *)
Lemma idle_sleep_exact (total : Z) (start now next : Q) :
  let idle := pymax (of_int 0) (fsub (of_int total) (fsub now start)) in
  let slept := if flt (of_int 0) idle then idle else 0%Q in
  (now - start <= inject_Z total)%Q ->
  (next == now + slept)%Q ->
  (next == start + inject_Z total)%Q.
Proof.
  cbv zeta. unfold pymax. cbn [flt fsub of_int PyFloat_Q].
  change (inject_Z 0) with 0%Q.
  destruct (Qlt_bool 0 (inject_Z total - (now - start))) eqn:E.
  - rewrite E. intros _ H. rewrite H. ring.
  - rewrite Qlt_bool_irrefl. intros L H. rewrite H.
    assert (N : ~ (0 < inject_Z total - (now - start))%Q).
    { intros X. apply Qlt_bool_spec in X. congruence. }
    apply Qnot_lt_le in N. lra.
Qed.

(** C8.  Without [loop], the run is one cycle, whatever the fuel, and a
    cycle that no signal interrupts emits one record per event,
    [cantidad] in all, unless [time.sleep] raises in it.  With [loop], a
    cycle that ran to its end is followed by a reading of the clock and a
    sleep of [max(0, total_seconds - elapsed_cycle)] when that is positive,
    and then by the next cycle, unless that sleep raises.  With exact
    arithmetic and a clock that advances by exactly the time slept, the
    next cycle starts [total_seconds] after the previous one when this one
    has not overrun. *)
Theorem repeat_cadence :
  (forall F (PF : PyFloat F) (env : Env F) input interval total cantidad fuel
          (w : World F),
      while_true env (S fuel) input interval total cantidad false w
      = match cycle env input interval cantidad w with
        | (inr _, w') => (inr Returned, w')
        | (inl e, w') => (inl e, w')
        end)
  /\ (forall F (PF : PyFloat F) (env : Env F) input interval cantidad
             (w : World F),
         stop_requested w = false ->
         (forall j, (j < 2 * Z.to_nat cantidad)%nat ->
                    signal_at env (checks w + j) = false) ->
         exists o w',
           cycle env input interval cantidad w = (o, w')
           /\ ((o = inr (monotonic_at env (ticks w), Continue)
                /\ n_records (trace w')
                   = (n_records (trace w) + Z.to_nat cantidad)%nat)
               \/ sleep_raised env o w'))
  /\ (forall F (PF : PyFloat F) (env : Env F) input interval total cantidad
             fuel (w w1 : World F) (start_cycle : F),
         cycle env input interval cantidad w
         = (inr (start_cycle, Continue), w1) ->
         let now := monotonic_at env (ticks w1) in
         let idle := pymax (of_int 0)
                           (fsub (of_int total) (fsub now start_cycle)) in
         exists w2,
           trace w2 = trace w1
                      ++ Monotonic now
                      :: (if flt (of_int 0) idle then [Sleep idle] else [])
           /\ ticks w2 = S (ticks w1) /\ checks w2 = checks w1
           /\ stop_requested w2 = stop_requested w1
           /\ while_true env (S fuel) input interval total cantidad true w
              = match (if flt (of_int 0) idle
                       then sleep_error env idle else None)
                with
                | Some e => (inl e, w2)
                | None =>
                    while_true env fuel input interval total cantidad true w2
                end)
  /\ (forall (env : Env Q) input interval total cantidad
             (w w1 w2 w3 : World Q) (start_cycle next_start : Q) (r : Flow),
         cycle env input interval cantidad w
         = (inr (start_cycle, Continue), w1) ->
         ticks w2 = S (ticks w1) ->
         cycle env input interval cantidad w2 = (inr (next_start, r), w3) ->
         let now := monotonic_at env (ticks w1) in
         let idle := pymax (of_int 0)
                           (fsub (of_int total) (fsub now start_cycle)) in
         let slept := if flt (of_int 0) idle then idle else 0%Q in
         (now - start_cycle <= inject_Z total)%Q ->
         (monotonic_at env (S (ticks w1)) == now + slept)%Q ->
         (next_start == start_cycle + inject_Z total)%Q).
Proof.
  split; [|split; [|split]].
  - intros. apply while_true_once.
  - intros. now apply cycle_quiet.
  - intros. now apply while_true_again.
  - intros env input interval total cantidad w w1 w2 w3 start_cycle
           next_start r C1 T2 C2 now idle slept L I.
    assert (N : next_start = monotonic_at env (S (ticks w1))).
    { rewrite cycle_unfold in C2. cbv zeta in C2. rewrite T2 in C2.
      destruct (for_range _ _ _ _) as [[e|r0] wz]; [discriminate|].
      now injection C2 as <- _ _. }
    rewrite N. exact (idle_sleep_exact total start_cycle now _ L I).
Qed.

(** ** Runs of the model *)

(** C2, as stated: with [cantidad <= 0] the run raises before a directory is
    made or a header row is written.  On a call with "10min" and 0 in an
    empty place the error is [InvalidCount], but both directories are made
    and the header row is in the metrics file by then. *)
Lemma run_simulator_zero_count_counterexample :
  let r := run_simulator (quiet_env 0) 1 "10min" 0 "recepcion" false
                         fresh_world in
  ~ (0 <= 0 ->
     fst r = inl InvalidCount
     /\ trace (snd r) = trace (@fresh_world Q)
     /\ metrics_log (snd r) (metrics_file_of "recepcion")
        = metrics_log (@fresh_world Q) (metrics_file_of "recepcion")).
Proof.
  cbv zeta. intros H. destruct (H (Z.le_refl 0)) as (_ & T & _).
  vm_compute in T. discriminate.
Qed.

Example run_simulator_zero_count_run :
  let r := run_simulator (quiet_env 0) 1 "10min" 0 "recepcion" false
                         fresh_world in
  fst r = inl InvalidCount
  /\ trace (snd r)
     = [Makedirs "recepcion/input"; Makedirs "recepcion/logs";
        OpenAppend "recepcion/logs/metrics.log";
        OpenAppend "recepcion/logs/errors.log";
        MetricsWrite Header]
  /\ metrics_log (snd r) "recepcion/logs/metrics.log" = Some [Header]
  /\ errors_log (snd r) "recepcion/logs/errors.log" = Some []
  /\ ticks (snd r) = 0%nat /\ checks (snd r) = 0%nat.
Proof. vm_compute. repeat split. Qed.

(** With a duration that does not parse, the error of the parser comes
    first. *)
Example run_simulator_bad_duration_run :
  fst (run_simulator (quiet_env 0) 1 "abc" 0 "recepcion" false fresh_world)
  = inl InvalidFormat.
Proof. reflexivity. Qed.

Lemma run_simulator_invalid_count_witness :
  _parse_tiempo "10min" = inr 600
  /\ 0 <= 0
  /\ exists w',
      run_simulator (quiet_env 0) 1 "10min" 0 "recepcion" false fresh_world
      = (inl InvalidCount, w')
      /\ n_created (trace w') = 0%nat.
Proof.
  split; [reflexivity|]. split; [exact (Z.le_refl 0)|].
  destruct (run_simulator_invalid_count (quiet_env 0) 1 "10min" 600 0
              "recepcion" false fresh_world eq_refl (Z.le_refl 0))
    as (w' & H & _ & _ & _ & _ & NC & _).
  exists w'. split; [exact H | exact NC].
Defined.

(** C9, as stated: two creation calls of a run never return the same
    identifier.  In a burst of events within one millisecond in which the
    generator gives the same 20 bits twice, the two artifacts of the run
    get the same path, and the second overwrites the first. *)
Lemma create_file_collision_counterexample :
  let r := run_simulator (burst_env 3) 1 "1m" 100000 "recepcion" false
                         fresh_world in
  ~ NoDup (creation_paths (trace (snd r))).
Proof.
  cbv zeta.
  assert (E : creation_paths
                (trace (snd (run_simulator (burst_env 3) 1 "1m" 100000
                                           "recepcion" false fresh_world)))
              = ["recepcion/input/1704067200000-4242-0.deb";
                 "recepcion/input/1704067200000-4242-0.deb"]).
  { vm_compute. reflexivity. }
  rewrite E. intros ND. inversion ND as [|x l NI _]. apply NI. left. reflexivity.
Qed.

Lemma create_file_identifier_witness :
  let env := burst_env 3 in
  let w1 := @fresh_world Q in
  let w2 := snd (_create_file env "recepcion/input" ".deb" 10 w1) in
  "1704067200000-4242-0.deb" = "1704067200000-4242-0.deb"
  <-> (time_ms_at env (ticks w1) = time_ms_at env (ticks w2)
       /\ random_at env (S (ticks w1)) mod 2 ^ 20
          = random_at env (S (ticks w2)) mod 2 ^ 20
       /\ ".deb" = ".deb").
Proof.
  cbv zeta.
  apply (create_file_identifier (burst_env 3) "recepcion/input" ".deb" ".deb"
           10 10 fresh_world
           (snd (_create_file (burst_env 3) "recepcion/input" ".deb" 10
                              fresh_world))
           (snd (_create_file (burst_env 3) "recepcion/input" ".deb" 10
                              fresh_world))
           (snd (_create_file (burst_env 3) "recepcion/input" ".deb" 10
                   (snd (_create_file (burst_env 3) "recepcion/input" ".deb"
                                      10 fresh_world))))
           "1704067200000-4242-0.deb"
           "recepcion/input/1704067200000-4242-0.deb"
           "1704067200000-4242-0.deb"
           "recepcion/input/1704067200000-4242-0.deb").
  - reflexivity.
  - reflexivity.
  - right. left. reflexivity.
  - right. left. reflexivity.
  - discriminate.
  - discriminate.
  - discriminate.
Defined.

Lemma run_simulator_stop_witness :
  _parse_tiempo "1m" = inr 60
  /\ (1 < Z.to_nat 5)%nat
  /\ (3 <= 2 * 1 + 2)%nat
  /\ flagged_by (burst_env 3) fresh_world 3
  /\ exists o w',
      run_simulator (burst_env 3) 1 "1m" 5 "recepcion" false fresh_world
      = (o, w')
      /\ (o = inr Returned \/ sleep_raised (burst_env 3) o w')
      /\ (n_records (trace w') <= 2)%nat.
Proof.
  assert (K : (1 < Z.to_nat 5)%nat) by (apply Nat.leb_le; reflexivity).
  assert (C : (3 <= 2 * 1 + 2)%nat) by (apply Nat.leb_le; reflexivity).
  assert (Fl : flagged_by (burst_env 3) (@fresh_world Q) 3)
    by (right; reflexivity).
  assert (Fu : ((if false then 2 else 1) <= 1)%nat) by (apply Nat.le_refl).
  split; [reflexivity|]. split; [exact K|]. split; [exact C|].
  split; [exact Fl|].
  destruct (run_simulator_stop (burst_env 3) 1 "1m" 60 5 "recepcion" false
              fresh_world 1 3 eq_refl K C Fl Fu)
    as ((o & w' & H & R & NR & _) & _).
  exists o, w'. split; [exact H|]. split; [exact R | exact NR].
Defined.

(** The run the witness speaks of returns, with the two records of its
    first two events. *)
Example run_simulator_stop_run :
  let r := run_simulator (burst_env 3) 1 "1m" 5 "recepcion" false
                         fresh_world in
  fst r = inr Returned /\ n_records (trace (snd r)) = 2%nat.
Proof. vm_compute. split; reflexivity. Qed.

Lemma event_pacing_witness :
  _parse_tiempo "1m" = inr 60 /\ 0 < 2
  /\ exists o w' t,
      run_simulator (quiet_env (2 ^ 52)) 1 "1m" 2 "recepcion" false
                    fresh_world
      = (match o with
         | inr _ => inr Returned
         | inl e => inl e
         end, w')
      /\ trace w' = setup_effects "recepcion" (@fresh_world Q)
                    ++ Monotonic 0%Q :: t
      /\ paced (quiet_env (2 ^ 52)) (any_attempt "recepcion/input")
               0%Q (spec_interval 60 2) 0 2 t o.
Proof.
  split; [reflexivity|]. split; [reflexivity|].
  exact (proj2 (proj2 (proj2
           (event_pacing (quiet_env (2 ^ 52)) 0 "1m" 60 2 "recepcion" false
                         fresh_world eq_refl eq_refl)))).
Defined.

(** The two events of that run: each is over before its time, and what is
    left of it is slept; the second wake-up is 60 seconds after the start
    of the cycle, whatever the first event took. *)
Example event_pacing_run :
  filter (fun e => match e with Sleep _ | Monotonic _ => true | _ => false end)
         (trace (snd (run_simulator (quiet_env (2 ^ 52)) 1 "1m" 2
                                    "recepcion" false fresh_world)))
  = [Monotonic 0%Q; Monotonic 7%Q; Monotonic 9%Q; Sleep (0 + 1 * (60 / 2) - 9)%Q;
     Monotonic 16%Q; Monotonic 18%Q; Sleep (0 + 2 * (60 / 2) - 18)%Q].
Proof. vm_compute. reflexivity. Qed.


Example event_failure_propagates_run :
  let r := run_simulator (quiet_env (2 ^ 52)) 1 "3000000h" 1 "recepcion"
                         false fresh_world in
  fst r = inl SleepOverflow
  /\ n_records (trace (snd r)) = 1%nat
  /\ last (trace (snd r)) (ReadStop false)
     = Sleep (0 + 1 * (10800000000 / 1) - 9)%Q.
Proof. vm_compute. repeat split. Qed.


(** A cycle of three events that all fail, the second and third after
    [open] has made the file: three Error records, with the indices 0, 1
    and 2. *)
Example event_failure_indices_run :
  let env := {| monotonic_at := fun n => inject_Z (Z.of_nat n);
                utcnow_at := fun _ => "2024-01-01T00:00:00";
                time_ms_at := fun _ => 1704067200000;
                getpid := 4242;
                random_at := fun n => if Nat.eqb n 1 then 0 else 2 ^ 52;
                io_error_at :=
                  fun _ => Some (WriteFails (OSError "No space left on device"));
                sleep_error := timer_error;
                signal_at := fun _ => false |} in
  map err_index
      (error_rows (trace (snd (cycle env "recepcion/input" 1%Q 3
                                     fresh_world))))
  = [0; 1; 2]
  /\ n_created (trace (snd (cycle env "recepcion/input" 1%Q 3 fresh_world)))
     = 2%nat
  /\ n_written (trace (snd (cycle env "recepcion/input" 1%Q 3 fresh_world)))
     = 0%nat.
Proof. vm_compute. repeat split. Qed.

Lemma artifacts_within_bounds_witness :
  Forall effect_ok (trace (@fresh_world Q))
  /\ Forall effect_ok
       (trace (snd (run_simulator (quiet_env (2 ^ 52)) 1 "1m" 2 "recepcion"
                                  false fresh_world))).
Proof.
  split; [constructor|].
  exact (proj1 (artifacts_within_bounds (quiet_env (2 ^ 52)) 1 "1m" 2
                  "recepcion" false fresh_world (Forall_nil _))).
Defined.

Lemma repeat_cadence_witness :
  stop_requested (@fresh_world Q) = false
  /\ exists o w',
      cycle (quiet_env 0) "recepcion/input" 30%Q 2 fresh_world = (o, w')
      /\ ((o = inr (0%Q, Continue) /\ n_records (trace w') = 2%nat)
          \/ sleep_raised (quiet_env 0) o w').
Proof.
  split; [reflexivity|].
  destruct (proj1 (proj2 repeat_cadence) Q PyFloat_Q (quiet_env 0)
              "recepcion/input" 30%Q 2 fresh_world eq_refl
              (fun j _ => eq_refl))
    as (o & w' & H & K).
  exists o, w'. split; [exact H | exact K].
Defined.

(** The cycle the witness speaks of runs to its end. *)
Example repeat_cadence_run :
  fst (cycle (quiet_env 0) "recepcion/input" 30%Q 2 fresh_world)
  = inr (0%Q, Continue).
Proof. vm_compute. reflexivity. Qed.
(** * Further properties *)

(** ** More on the duration parser *)

Section ParserMore.

Import PyStr Regex.

Lemma list_ascii_of_string_app (a b : string) :
  list_ascii_of_string (a ++ b)%string
  = list_ascii_of_string a ++ list_ascii_of_string b.
Proof. induction a as [|x a IH]; simpl; [reflexivity | now rewrite IH]. Qed.

Lemma normalize_app (a b : string) :
  normalize (a ++ b)%string = normalize a ++ normalize b.
Proof.
  unfold normalize, lower, remove_spaces.
  now rewrite list_ascii_of_string_app, map_app, filter_app.
Qed.

Lemma lower_char_idem (c : ascii) : lower_char (lower_char c) = lower_char c.
Proof. destruct c as [[] [] [] [] [] [] [] []]; reflexivity. Qed.

Lemma normalize_lower (s : string) :
  normalize (string_of_list_ascii (lower (list_ascii_of_string s)))
  = normalize s.
Proof.
  unfold normalize. rewrite list_ascii_of_string_of_list_ascii.
  f_equal. unfold lower. rewrite map_map.
  apply map_ext. intros c. apply lower_char_idem.
Qed.

(** X1.  The parser does not tell the letter cases apart: lowering the whole
    expression first does not change what it returns. *)
Theorem parse_tiempo_case_insensitive (tiempo_str : string) :
  _parse_tiempo (string_of_list_ascii
                   (lower (list_ascii_of_string tiempo_str)))
  = _parse_tiempo tiempo_str.
Proof. unfold _parse_tiempo. now rewrite normalize_lower. Qed.

(** X2.  Spaces do not count, wherever they are: an expression parses as the same
    expression without one of its spaces (so "1 0 min" is ten minutes). *)
Theorem parse_tiempo_space_irrelevant (a b : string) :
  _parse_tiempo (a ++ " " ++ b)%string = _parse_tiempo (a ++ b)%string.
Proof.
  unfold _parse_tiempo. now rewrite !normalize_app.
Qed.

Lemma parse_tiempo_positive (tiempo_str : string) (n : Z) :
  _parse_tiempo tiempo_str = inr n -> 0 < n.
Proof.
  rewrite parse_by_tokens.
  destruct (sum_seconds_60 tiempo_str) as (k & Hk & Hs & _). rewrite Hs.
  destruct (Z.eqb_spec (60 * k) 0) as [E|E]; [discriminate|].
  intros H. assert (Hn : n = 60 * k) by congruence. lia.
Qed.

(** *** Parts separated by a character that is no word character and no
    white space *)

Lemma separator_not_digit (c : ascii) : separator c -> is_digit c = false.
Proof.
  intros [W _]. unfold is_word in W.
  destruct (is_digit c); [discriminate | reflexivity].
Qed.

Lemma run_length_sep (p : ascii -> bool) (a b : list ascii) (c : ascii) :
  p c = false -> run_length p (a ++ c :: b) = run_length p a.
Proof.
  intros H. induction a as [|x a IH]; cbn [List.app run_length].
  - now rewrite H.
  - now rewrite IH.
Qed.

Lemma lit_then_boundary_sep (key : list ascii) (c : ascii) (b : list ascii) :
  all_word key -> is_word c = false ->
  forall prev a,
    lit_then_boundary key prev (a ++ c :: b) = lit_then_boundary key prev a.
Proof.
  intros K C. induction K as [|k key Hk _ IH]; intros prev a;
    cbn [lit_then_boundary].
  - destruct a as [|x a]; cbn [List.app hd_error]; [|reflexivity].
    unfold word_boundary. cbn [opt_word]. now rewrite C.
  - destruct a as [|x a]; cbn [List.app].
    + destruct (Ascii.eqb_spec k c) as [->|_]; [congruence | reflexivity].
    + now rewrite IH.
Qed.

Lemma skipn_app_le {A} (k : nat) (a b : list A) :
  (k <= List.length a)%nat -> skipn k (a ++ b) = skipn k a ++ b.
Proof.
  revert a. induction k as [|k IH]; intros a L; [reflexivity|].
  destruct a as [|x a]; [simpl in L; lia|]. apply IH. simpl in L. lia.
Qed.

Lemma firstn_app_le {A} (k : nat) (a b : list A) :
  (k <= List.length a)%nat -> firstn k (a ++ b) = firstn k a.
Proof.
  revert a. induction k as [|k IH]; intros a L; [reflexivity|].
  destruct a as [|x a]; [simpl in L; lia|].
  cbn [List.app firstn]. f_equal. apply IH. simpl in L. lia.
Qed.

Lemma nth_error_app_lt {A} (k : nat) (a b : list A) :
  (k < List.length a)%nat -> nth_error (a ++ b) k = nth_error a k.
Proof.
  revert a. induction k as [|k IH]; intros a L;
    (destruct a as [|x a]; [simpl in L; lia|]); [reflexivity|].
  apply IH. simpl in L. lia.
Qed.

Lemma try_spaces_sep (key : list ascii) (c : ascii) (b : list ascii) :
  all_word key -> is_word c = false ->
  forall prev r j, (j <= List.length r)%nat ->
    try_spaces key prev (r ++ c :: b) j = try_spaces key prev r j.
Proof.
  intros K C prev r j. induction j as [|j IH]; intros L; cbn [try_spaces].
  - change (skipn 0 (r ++ c :: b)) with (r ++ c :: b).
    change (skipn 0 r) with r. now rewrite lit_then_boundary_sep.
  - rewrite skipn_app_le by exact L.
    rewrite nth_error_app_lt by lia.
    rewrite lit_then_boundary_sep by assumption.
    rewrite IH by lia. reflexivity.
Qed.

Lemma try_digits_sep (key : list ascii) (c : ascii) (b : list ascii) :
  all_word key -> separator c ->
  forall s k, (k <= List.length s)%nat ->
    try_digits key (s ++ c :: b) k = try_digits key s k.
Proof.
  intros K [C Sp] s k. induction k as [|k IH]; intros L; cbn [try_digits];
    [reflexivity|].
  rewrite skipn_app_le by exact L.
  rewrite run_length_sep by exact Sp.
  rewrite nth_error_app_lt by lia.
  rewrite try_spaces_sep by (try assumption; apply run_length_le).
  rewrite firstn_app_le by exact L.
  rewrite IH by lia. reflexivity.
Qed.

Lemma match_here_sep (key : list ascii) (c : ascii) (a b : list ascii) :
  all_word key -> separator c ->
  match_here key (a ++ c :: b) = match_here key a.
Proof.
  intros K C. unfold match_here.
  rewrite run_length_sep by (now apply separator_not_digit).
  apply try_digits_sep; [assumption | assumption | apply run_length_le].
Qed.

(** A match does not reach beyond the string. *)
Lemma lit_then_boundary_length (key : list ascii) :
  forall prev s n, lit_then_boundary key prev s = Some n ->
                   (n <= List.length s)%nat.
Proof.
  induction key as [|k key IH]; intros prev s n; cbn [lit_then_boundary].
  - destruct (word_boundary _ _); [|discriminate]. intros [= <-]. lia.
  - destruct s as [|x s]; [discriminate|].
    destruct (Ascii.eqb k x); [|discriminate].
    destruct (lit_then_boundary key (Some x) s) as [m|] eqn:E; [|discriminate].
    intros [= <-]. apply IH in E. simpl. lia.
Qed.

Lemma try_spaces_length (key : list ascii) prev r j n :
  (j <= List.length r)%nat -> try_spaces key prev r j = Some n ->
  (n <= List.length r)%nat.
Proof.
  induction j as [|j IH]; intros L; cbn [try_spaces].
  - destruct (lit_then_boundary key prev (skipn 0 r)) as [m|] eqn:E;
      [|discriminate].
    intros [= <-]. apply lit_then_boundary_length in E. exact E.
  - destruct (lit_then_boundary key (nth_error r j) (skipn (S j) r))
      as [m|] eqn:E.
    + intros [= <-]. apply lit_then_boundary_length in E.
      rewrite length_skipn in E. lia.
    + intros H. apply IH; [lia | exact H].
Qed.

Lemma match_here_length (key s : list ascii) v n :
  match_here key s = Some (v, n) -> (1 <= n <= List.length s)%nat.
Proof.
  unfold match_here. pose proof (run_length_le is_digit s) as L.
  revert L. generalize (run_length is_digit s) as k.
  induction k as [|k IH]; intros L; cbn [try_digits]; [discriminate|].
  destruct (try_spaces key (nth_error s k) (skipn (S k) s)
                       (run_length is_space (skipn (S k) s))) as [m|] eqn:E.
  - intros [= _ <-]. apply try_spaces_length in E; [|apply run_length_le].
    rewrite length_skipn in E. lia.
  - intros H. apply IH; [lia | exact H].
Qed.

Lemma findall_from_sep (key : list ascii) (c : ascii) (b : list ascii) :
  all_word key -> separator c ->
  forall a skip, (skip <= List.length a)%nat ->
    findall_from key skip (a ++ c :: b)
    = findall_from key skip a ++ findall_from key 0 b.
Proof.
  intros K C a. induction a as [|x a IH]; intros skip L.
  - assert (skip = 0%nat) by (simpl in L; lia). subst skip.
    cbn [List.app findall_from].
    unfold match_here. cbn [run_length].
    rewrite (separator_not_digit c C). reflexivity.
  - cbn [List.app findall_from]. destruct skip as [|k].
    + change (x :: a ++ c :: b) with ((x :: a) ++ c :: b).
      rewrite match_here_sep by assumption.
      destruct (match_here key (x :: a)) as [[v n]|] eqn:E.
      * apply match_here_length in E. simpl in E.
        rewrite IH by lia. reflexivity.
      * apply IH. lia.
    + apply IH. simpl in L. lia.
Qed.

Lemma patterns_keys_words (p : string * Z) :
  In p patterns -> all_word (list_ascii_of_string (fst p)).
Proof.
  unfold patterns. simpl.
  intros [<-|[<-|[<-|[<-|[]]]]]; repeat constructor.
Qed.

Lemma add_matches_sep (c : ascii) (a b : list ascii) (p : string * Z) :
  In p patterns -> separator c ->
  forall total,
    add_matches (a ++ c :: b) total p
    = add_matches b (add_matches a total p) p.
Proof.
  intros P C total. unfold add_matches, findall.
  rewrite findall_from_sep;
    [|apply patterns_keys_words, P | exact C | lia].
  apply fold_left_app.
Qed.

Lemma total_of_sep (c : ascii) (a b : list ascii) :
  separator c -> total_of (a ++ c :: b) = total_of a + total_of b.
Proof.
  intros C. unfold total_of.
  assert (G : forall ps, incl ps patterns -> forall x y,
             fold_left (add_matches (a ++ c :: b)) ps (x + y)
             = fold_left (add_matches a) ps x + fold_left (add_matches b) ps y).
  { induction ps as [|p ps IH]; intros I x y; cbn [fold_left]; [reflexivity|].
    rewrite add_matches_sep; [|apply I; left; reflexivity | exact C].
    rewrite !fold_left_add_matches.
    rewrite <- IH by (intros q Q; apply I; right; exact Q).
    f_equal. lia. }
  rewrite <- (G patterns (incl_refl _) 0 0). reflexivity.
Qed.

Lemma separator_lower (c : ascii) :
  separator c -> lower_char c = c /\ negb (code c =? 32) = true.
Proof.
  unfold separator.
  destruct c as [[] [] [] [] [] [] [] []]; vm_compute; intuition congruence.
Qed.

Lemma normalize_sep (a b : string) (c : ascii) :
  separator c ->
  normalize (a ++ String c b)%string = normalize a ++ c :: normalize b.
Proof.
  intros C. rewrite normalize_app. f_equal.
  unfold normalize, lower, remove_spaces.
  cbn [list_ascii_of_string map filter].
  destruct (separator_lower c C) as [-> ->]. reflexivity.
Qed.

Lemma parse_tiempo_total (tiempo_str : string) :
  (_parse_tiempo tiempo_str = inl InvalidFormat
   /\ total_of (normalize tiempo_str) = 0)
  \/ (_parse_tiempo tiempo_str = inr (total_of (normalize tiempo_str))
      /\ 0 < total_of (normalize tiempo_str)).
Proof.
  destruct (_parse_tiempo tiempo_str) as [e|n] eqn:P.
  - left. revert P. unfold _parse_tiempo. cbv zeta.
    destruct (Z.eqb_spec (total_of (normalize tiempo_str)) 0) as [E|E];
      [|discriminate].
    intros [= <-]. split; [reflexivity | exact E].
  - right. pose proof (parse_tiempo_positive _ _ P) as Pos.
    revert P. unfold _parse_tiempo. cbv zeta.
    destruct (total_of (normalize tiempo_str) =? 0); [discriminate|].
    intros [= <-]. split; [reflexivity | exact Pos].
Qed.

(** X4.  The totals of two parts separated by a character that is neither a
    word character nor white space (a comma, a colon, a slash, a sign) add
    up, whatever the parts are.  So the whole parses to the sum when both
    parts parse, to what the one part gives when the other has no token
    that counts ("abc,5m" is 300), and raises when neither parses. *)
Theorem parse_tiempo_separated_parts (a b : string) (c : ascii) :
  separator c ->
  total_of (normalize (a ++ String c b)%string)
  = total_of (normalize a) + total_of (normalize b)
  /\ (forall x y,
         _parse_tiempo a = inr x -> _parse_tiempo b = inr y ->
         _parse_tiempo (a ++ String c b)%string = inr (x + y))
  /\ (forall x,
         _parse_tiempo a = inr x -> _parse_tiempo b = inl InvalidFormat ->
         _parse_tiempo (a ++ String c b)%string = inr x)
  /\ (forall y,
         _parse_tiempo a = inl InvalidFormat -> _parse_tiempo b = inr y ->
         _parse_tiempo (a ++ String c b)%string = inr y)
  /\ (_parse_tiempo a = inl InvalidFormat ->
      _parse_tiempo b = inl InvalidFormat ->
      _parse_tiempo (a ++ String c b)%string = inl InvalidFormat).
Proof.
  intros C.
  assert (T : total_of (normalize (a ++ String c b)%string)
              = total_of (normalize a) + total_of (normalize b)).
  { rewrite normalize_sep by exact C. now apply total_of_sep. }
  split; [exact T|].
  assert (W : _parse_tiempo (a ++ String c b)%string
              = if total_of (normalize a) + total_of (normalize b) =? 0
                then inl InvalidFormat
                else inr (total_of (normalize a) + total_of (normalize b))).
  { unfold _parse_tiempo. cbv zeta. now rewrite T. }
  rewrite W.
  destruct (parse_tiempo_total a) as [[Pa Ta]|[Pa Ta]];
    destruct (parse_tiempo_total b) as [[Pb Tb]|[Pb Tb]];
    rewrite Pa, Pb;
    (split; [intros x y Hx Hy|split; [intros x Hx Hy|split;
       [intros y Hx Hy|intros Hx Hy]]]); try discriminate;
    try (injection Hx as <-); try (injection Hy as <-);
    rewrite ?Ta, ?Tb;
    try (destruct (Z.eqb_spec (total_of (normalize a)
                               + total_of (normalize b)) 0); [lia|]);
    try (destruct (Z.eqb_spec (total_of (normalize a) + 0) 0); [lia|]);
    try (destruct (Z.eqb_spec (0 + total_of (normalize b)) 0); [lia|]);
    try reflexivity; f_equal; lia.
Qed.

(** *** One token *)

Lemma digits_are_words (ds : list ascii) :
  Forall (fun c => is_digit c = true) ds -> all_word ds.
Proof.
  intros H. eapply Forall_impl; [|exact H].
  intros c Hc. unfold is_word. now rewrite Hc.
Qed.

Lemma digit_normal (c : ascii) :
  is_digit c = true -> lower_char c = c /\ negb (code c =? 32) = true.
Proof.
  destruct c as [[] [] [] [] [] [] [] []]; vm_compute; intuition congruence.
Qed.

Lemma digits_normal (ds : list ascii) :
  Forall (fun c => is_digit c = true) ds ->
  remove_spaces (lower ds) = ds.
Proof.
  induction 1 as [|c ds Hc _ IH]; [reflexivity|].
  unfold remove_spaces, lower in *. cbn [map filter].
  destruct (digit_normal c Hc) as [-> ->]. now rewrite IH.
Qed.

Lemma run_length_all (p : ascii -> bool) (ds rest : list ascii) :
  Forall (fun c => p c = true) ds ->
  run_length p rest = 0%nat ->
  run_length p (ds ++ rest) = List.length ds.
Proof.
  intros H R. induction H as [|c ds Hc _ IH]; [exact R|].
  cbn [List.app run_length List.length]. now rewrite Hc, IH.
Qed.

(** On the digits followed by the unit, the pattern of the unit finds the
    digits, all of them. *)
Lemma findall_single (p : string * Z) (ds : list ascii) :
  In p patterns -> ds <> [] ->
  Forall (fun c => is_digit c = true) ds ->
  findall (fst p) (ds ++ list_ascii_of_string (fst p)) = [ds].
Proof.
  intros P N D. unfold findall.
  set (key := list_ascii_of_string (fst p)).
  assert (K : run_length is_digit key = 0%nat
              /\ run_length is_space key = 0%nat
              /\ forall prev, lit_then_boundary key prev key
                              = Some (List.length key)).
  { subst key. unfold patterns in P. simpl in P.
    destruct P as [<-|[<-|[<-|[<-|[]]]]]; repeat split. }
  destruct K as (K1 & K2 & K3).
  destruct ds as [|d ds]; [congruence|].
  cbn [List.app findall_from].
  change (d :: ds ++ key) with ((d :: ds) ++ key).
  assert (M : match_here key ((d :: ds) ++ key)
              = Some (d :: ds, (List.length (d :: ds) + List.length key)%nat)).
  { unfold match_here. rewrite (run_length_all _ _ _ D K1).
    cbn [List.length try_digits].
    rewrite skipn_app_le by (simpl; lia).
    replace (skipn (S (List.length ds)) (d :: ds)) with (@nil ascii)
      by (symmetry; apply skipn_all2; simpl; lia).
    rewrite app_nil_l, K2. cbn [try_spaces].
    change (skipn 0 key) with key. rewrite K3.
    rewrite firstn_app_le by (simpl; lia).
    rewrite firstn_all2 by (simpl; lia). rewrite Nat.add_0_l. reflexivity. }
  rewrite M. f_equal.
  apply findall_from_skip_all. cbn [List.length Nat.add Nat.pred].
  rewrite length_app. lia.
Qed.

(** X3.  A quantity followed by a unit, the unit in any letter case, is the
    quantity times the multiplier of the unit; a quantity of zero is
    [InvalidFormat]. *)
Theorem parse_tiempo_single_token (ds : list ascii) (unit : string)
        (p : string * Z) :
  In p patterns -> ds <> [] ->
  Forall (fun c => is_digit c = true) ds ->
  lower (list_ascii_of_string unit) = list_ascii_of_string (fst p) ->
  _parse_tiempo (string_of_list_ascii ds ++ unit)%string
  = if int_of_digits ds * snd p =? 0 then inl InvalidFormat
    else inr (int_of_digits ds * snd p).
Proof.
  intros P N D U.
  assert (Nz : normalize (string_of_list_ascii ds ++ unit)%string
               = ds ++ list_ascii_of_string (fst p)).
  { rewrite normalize_app. unfold normalize at 1.
    rewrite list_ascii_of_string_of_list_ascii, (digits_normal ds D).
    f_equal. unfold normalize. rewrite U.
    unfold patterns in P. simpl in P.
    destruct P as [<-|[<-|[<-|[<-|[]]]]]; reflexivity. }
  assert (W : all_word (normalize (string_of_list_ascii ds ++ unit)%string)).
  { rewrite Nz. apply Forall_app. split; [now apply digits_are_words|].
    now apply patterns_keys_words. }
  pose proof (spaced_expression_one_token _ W) as One.
  pose proof (findall_single p ds P N D) as Fs. rewrite <- Nz in Fs.
  rewrite parse_by_tokens.
  assert (T : tokens (string_of_list_ascii ds ++ unit)%string
              = [(ds, snd p)]).
  { revert One. unfold tokens, patterns in *. cbn [flat_map].
    simpl in P.
    destruct P as [<-|[<-|[<-|[<-|[]]]]]; cbn [fst snd] in *;
      rewrite Fs; rewrite !length_app, !length_map; cbn [List.length map];
      repeat match goal with
             | |- context [findall ?k ?s] =>
                 destruct (findall k s); cbn [List.length map List.app];
                 try lia
             end; reflexivity. }
  rewrite T. unfold sum_seconds, token_seconds. cbn [fold_right fst snd].
  now rewrite Z.add_0_r.
Qed.

(** X5.  Of an expression of letters, digits and spaces the parser counts one
    token at most: it raises [InvalidFormat], or returns the seconds of the
    single token its patterns recognize, however many quantities and units
    the expression has. *)
Theorem parse_tiempo_spaced_one_token (tiempo_str : string) :
  all_word (normalize tiempo_str) ->
  _parse_tiempo tiempo_str = inl InvalidFormat
  \/ exists t, tokens tiempo_str = [t]
               /\ _parse_tiempo tiempo_str = inr (token_seconds t).
Proof.
  intros W. pose proof (spaced_expression_one_token tiempo_str W) as One.
  rewrite parse_by_tokens.
  destruct (tokens tiempo_str) as [|t [|t' l]]; cbn [List.length] in One.
  - left. reflexivity.
  - unfold sum_seconds. cbn [fold_right]. rewrite Z.add_0_r.
    destruct (token_seconds t =? 0); [left; reflexivity|].
    right. exists t. split; reflexivity.
  - lia.
Qed.

End ParserMore.

(** ** What the steps of the loop add up to *)

Section RunFacts.

Context {F : Type} {PF : PyFloat F} (env : Env F).

Lemma shaped_any_counts input lo hi (d : list (Effect F)) :
  shaped (any_attempt input) lo hi d ->
  n_written d = List.length (metrics_lines d)
  /\ n_records d
     = (List.length (metrics_lines d) + List.length (error_rows d))%nat
  /\ (n_written d <= n_created d)%nat
  /\ (n_created d <= n_written d + List.length (error_rows d))%nat.
Proof.
  induction 1 as [|c d C _ (I1 & I2 & I3 & I4)].
  - repeat split; cbn; lia.
  - rewrite n_written_app, n_records_app, n_created_app, metrics_lines_app,
      error_rows_app, !length_app.
    destruct C as [b|t|s P|i x B X].
    + cbn. repeat split; lia.
    + cbn. repeat split; lia.
    + cbn. repeat split; lia.
    + destruct (any_attempt_counts input i x X)
        as (A1 & A2 & A3 & A4 & A5 & A6 & _).
      repeat split; lia.
Qed.

Lemma Forall_flat_map_lines (P : MetricsLine F -> Prop)
      (d : list (Effect F)) :
  Forall (fun e => match e with MetricsWrite l => P l | _ => True end) d ->
  Forall P (metrics_lines d).
Proof.
  induction 1 as [|e d He _ IH]; [constructor|].
  unfold metrics_lines in *. cbn [flat_map].
  destruct e; cbn [List.app]; try exact IH. constructor; assumption.
Qed.

Lemma Forall_flat_map_rows (P : ErrorRow -> Prop) (d : list (Effect F)) :
  Forall (fun e => match e with ErrorsWrite r => P r | _ => True end) d ->
  Forall P (error_rows d).
Proof.
  induction 1 as [|e d He _ IH]; [constructor|].
  unfold error_rows in *. cbn [flat_map].
  destruct e; cbn [List.app]; try exact IH. constructor; assumption.
Qed.

Lemma Forall_lines_flat_map (P : MetricsLine F -> Prop)
      (d : list (Effect F)) :
  Forall P (metrics_lines d) ->
  Forall (fun e => match e with MetricsWrite l => P l | _ => True end) d.
Proof.
  induction d as [|e d IH]; [constructor|].
  unfold metrics_lines in *. cbn [flat_map].
  destruct e; cbn [List.app]; intros H; try (constructor; [exact I | auto]).
  inversion H; subst. constructor; auto.
Qed.

Lemma Forall_rows_flat_map (P : ErrorRow -> Prop) (d : list (Effect F)) :
  Forall P (error_rows d) ->
  Forall (fun e => match e with ErrorsWrite r => P r | _ => True end) d.
Proof.
  induction d as [|e d IH]; [constructor|].
  unfold error_rows in *. cbn [flat_map].
  destruct e; cbn [List.app]; intros H; try (constructor; [exact I | auto]).
  inversion H; subst. constructor; auto.
Qed.

Lemma shaped_any_rows input lo hi (d : list (Effect F)) :
  shaped (any_attempt input) lo hi d ->
  Forall (fun l => is_event_row l = true) (metrics_lines d)
  /\ Forall (fun r => lo <= err_index r < hi) (error_rows d).
Proof.
  intros S. split.
  - apply Forall_flat_map_lines.
    apply (shaped_Forall (any_attempt input) _ lo hi d); try exact S;
      try (intros; exact I).
    intros i x _ X. apply Forall_lines_flat_map.
    apply (any_attempt_facts input i x X).
  - apply Forall_flat_map_rows.
    apply (shaped_Forall (any_attempt input) _ lo hi d); try exact S;
      try (intros; exact I).
    intros i x B X. apply Forall_rows_flat_map.
    eapply Forall_impl; [|apply (any_attempt_facts input i x X)].
    cbn beta. intros r ->. exact B.
Qed.

Lemma shaped_any_files input lo hi (d : list (Effect F)) :
  shaped (any_attempt input) lo hi d ->
  (forall full, In (OpenWrite full) d ->
                exists fn, full = path_join input fn)
  /\ (forall full size, In (WriteFile full size) d ->
                        exists fn, full = path_join input fn)
  /\ (forall ts fn ext size el,
         In (EventRow ts fn ext size el) (metrics_lines d) ->
         In (WriteFile (path_join input fn) size) d).
Proof.
  induction 1 as [|c d C _ (IH0 & IH1 & IH2)].
  - split; [intros ? [] | split; [intros ? ? [] | intros ? ? ? ? ? []]].
  - assert (K : (forall full, In (OpenWrite full) c ->
                              exists fn, full = path_join input fn)
                /\ (forall full size, In (WriteFile full size) c ->
                                      exists fn, full = path_join input fn)
                /\ (forall ts fn ext size el,
                       In (EventRow ts fn ext size el) (metrics_lines c) ->
                       In (WriteFile (path_join input fn) size) c)).
    { destruct C as [b|t|s P|i x B X].
      - split; [intros ? [H|[]]; discriminate|].
        split; [intros ? ? [H|[]]; discriminate | intros ? ? ? ? ? []].
      - split; [intros ? [H|[]]; discriminate|].
        split; [intros ? ? [H|[]]; discriminate | intros ? ? ? ? ? []].
      - split; [intros ? [H|[]]; discriminate|].
        split; [intros ? ? [H|[]]; discriminate | intros ? ? ? ? ? []].
      - destruct (any_attempt_facts input i x X)
          as (_ & _ & _ & _ & K0 & K1 & K2).
        split; [exact K0|]. split; [exact K1 | exact K2]. }
    destruct K as (K0 & K1 & K2). split; [|split].
    + intros full H. apply in_app_or in H. destruct H; eauto.
    + intros full size H. apply in_app_or in H. destruct H; eauto.
    + intros ts fn ext size el H. rewrite metrics_lines_app in H.
      apply in_app_or in H. apply in_or_app. destruct H; eauto.
Qed.

(** Attempts that all succeed leave no Error record, and an artifact for
    each Event record. *)
Lemma shaped_all_events input lo hi (d : list (Effect F)) :
  shaped (fun _ x => event_effects input x) lo hi d ->
  error_rows d = []
  /\ n_created d = List.length (metrics_lines d).
Proof.
  induction 1 as [|c d C _ (I1 & I2)]; [split; reflexivity|].
  rewrite error_rows_app, n_created_app, metrics_lines_app, length_app, I1,
    I2, app_nil_r.
  destruct C as [b|t|s P|i x B X]; try (split; reflexivity).
  destruct X as (full & fn & ext & size & t & ts & el & -> & _).
  split; reflexivity.
Qed.




End RunFacts.

(** ** Paths *)

Section Paths.

Lemma append_cancel (p a b : string) :
  (p ++ a = p ++ b)%string -> a = b.
Proof. induction p as [|c p IH]; simpl; [auto | intros [= H]; auto]. Qed.

Lemma ends_with_slash_app (p : string) (c : ascii) (s : string) :
  ends_with_slash (p ++ s ++ String c "")%string = Ascii.eqb c "/"%char.
Proof.
  unfold ends_with_slash.
  rewrite !list_ascii_of_string_app, !rev_app_distr. reflexivity.
Qed.

(** The two directories of [_ensure_dirs] behind one prefix. *)
Lemma ensure_dirs_prefix (base_path : string) :
  exists p,
    path_join base_path "input" = (p ++ "input")%string
    /\ path_join base_path "logs" = (p ++ "logs")%string.
Proof.
  unfold path_join. destruct (String.eqb_spec base_path "") as [->|_].
  - exists "". split; reflexivity.
  - destruct (ends_with_slash base_path).
    + exists base_path. split; reflexivity.
    + exists (base_path ++ "/")%string.
      rewrite <- !string_app_assoc. split; reflexivity.
Qed.

Lemma join_under (p dir : string) (c : ascii) (fn : string) :
  Ascii.eqb c "/"%char = false ->
  path_join (p ++ dir ++ String c "")%string fn
  = (p ++ dir ++ String c (String "/" fn))%string.
Proof.
  intros C. unfold path_join.
  assert (E : String.eqb (p ++ dir ++ String c "")%string "" = false).
  { destruct p; [|reflexivity]. destruct dir; reflexivity. }
  rewrite E, ends_with_slash_app, C.
  rewrite <- !string_app_assoc. reflexivity.
Qed.

(** No artifact is written over a log file: a path in the input directory is
    neither the metrics file nor the error file. *)
Lemma artifact_not_log (base_path fn : string) :
  let input_path := path_join base_path "input" in
  path_join input_path fn <> metrics_file_of base_path
  /\ path_join input_path fn <> errors_file_of base_path
  /\ input_path <> path_join base_path "logs".
Proof.
  cbv zeta. unfold metrics_file_of, errors_file_of.
  destruct (ensure_dirs_prefix base_path) as (p & -> & ->).
  change "input" with ("inpu" ++ "t")%string.
  change "logs" with ("log" ++ "s")%string.
  rewrite !join_under by reflexivity.
  repeat split; intros H; apply append_cancel in H; discriminate.
Qed.

End Paths.

(** ** Whole runs *)

Section Runs.

Context {F : Type} {PF : PyFloat F} (env : Env F).

(** What a run that passes the checks before the first cycle adds to its
    world: the effects of the setup and of the steps of the loop, and in
    its two log files the records of these steps, each as often as the
    logger has handlers on the file. *)
Lemma run_simulator_shaped (att : Z -> list (Effect F) -> Prop)
      fuel tiempo total cantidad base_path loop (w : World F) :
  (forall start i (wx : World F),
      exists w1 d,
        attempt env (path_join base_path "input") start i wx = (inr tt, w1)
        /\ att i d
        /\ extends wx w1 d
        /\ checks w1 = checks wx
        /\ stop_requested w1 = stop_requested wx) ->
  _parse_tiempo tiempo = inr total -> 0 < cantidad ->
  exists o w' d,
    run_simulator env fuel tiempo cantidad base_path loop w = (o, w')
    /\ ((exists r, o = inr r) \/ sleep_raised env o w')
    /\ shaped att 0 cantidad d
    /\ trace w' = trace w ++ setup_effects base_path w ++ d
    /\ rows (metrics_log w' (metrics_file_of base_path))
       = metrics_after_setup w (metrics_file_of base_path)
         ++ copied (S (copies (metrics_file_of base_path)
                              (metrics_handlers w)))
                   (metrics_lines d)
    /\ (forall q, rows (errors_log w' q)
                  = rows (errors_log w q)
                    ++ copied (copies q (errors_handlers w
                                         ++ [errors_file_of base_path]))
                              (error_rows d)).
Proof.
  intros A P C.
  destruct (run_simulator_grows env att fuel tiempo total cantidad base_path
              loop w A P C)
    as (o & w' & R & (d & S & T & _ & _ & M & E) & K).
  destruct (setup_world_spec base_path w)
    as (T0 & _ & _ & _ & Hm & He & _ & E0 & M0).
  exists o, w', d. split; [exact R|]. split; [exact K|]. split; [exact S|].
  split; [rewrite T, T0, <- app_assoc; reflexivity|]. split.
  - rewrite M, M0, Hm, copies_last. reflexivity.
  - intros q. rewrite E, E0, He. reflexivity.
Qed.

Lemma run_simulator_delta fuel tiempo total cantidad base_path loop
      (w : World F) :
  _parse_tiempo tiempo = inr total -> 0 < cantidad ->
  exists o w' d,
    run_simulator env fuel tiempo cantidad base_path loop w = (o, w')
    /\ ((exists r, o = inr r) \/ sleep_raised env o w')
    /\ shaped (any_attempt (path_join base_path "input")) 0 cantidad d
    /\ trace w' = trace w ++ setup_effects base_path w ++ d
    /\ rows (metrics_log w' (metrics_file_of base_path))
       = metrics_after_setup w (metrics_file_of base_path)
         ++ copied (S (copies (metrics_file_of base_path)
                              (metrics_handlers w)))
                   (metrics_lines d)
    /\ rows (errors_log w' (errors_file_of base_path))
       = rows (errors_log w (errors_file_of base_path))
         ++ copied (S (copies (errors_file_of base_path)
                              (errors_handlers w)))
                   (error_rows d).
Proof.
  intros P C.
  destruct (run_simulator_shaped (any_attempt (path_join base_path "input"))
              fuel tiempo total cantidad base_path loop w
              (attempt_any env _) P C)
    as (o & w' & d & R & K & S & T & M & E).
  exists o, w', d. repeat (split; [assumption|]).
  rewrite E, copies_last. reflexivity.
Qed.

(** X8.  The log files are only appended to.  After a run the metrics file is
    what it was, or the header row when it was missing or empty, followed by
    Event rows only; the error file is what it was followed by the Error
    rows of the run. *)
Theorem run_simulator_appends fuel tiempo total cantidad base_path loop
        (w : World F) :
  _parse_tiempo tiempo = inr total -> 0 < cantidad ->
  exists o w' ms es,
    run_simulator env fuel tiempo cantidad base_path loop w = (o, w')
    /\ ((exists r, o = inr r) \/ sleep_raised env o w')
    /\ rows (metrics_log w' (metrics_file_of base_path))
       = metrics_after_setup w (metrics_file_of base_path) ++ ms
    /\ rows (errors_log w' (errors_file_of base_path))
       = rows (errors_log w (errors_file_of base_path)) ++ es
    /\ Forall (fun l => is_event_row l = true) ms
    /\ (metrics_log w (metrics_file_of base_path) = None ->
        ~ In (metrics_file_of base_path) (metrics_handlers w) ->
        rows (metrics_log w' (metrics_file_of base_path)) = Header :: ms).
Proof.
  intros P C.
  destruct (run_simulator_delta fuel tiempo total cantidad base_path loop w
                                P C) as (o & w' & d & R & K & S & _ & M & E).
  eexists o, w', _, _.
  split; [exact R|]. split; [exact K|]. split; [exact M|]. split; [exact E|].
  split; [apply copied_Forall, (shaped_any_rows _ _ _ _ S)|].
  intros N Hn. rewrite M. unfold metrics_after_setup.
  now rewrite N, (copies_none _ _ Hn).
Qed.

(** X9.  Every Error row a run writes carries the index of an event of the cycle:
    from 0 up to, and not including, [cantidad]. *)
Theorem run_simulator_error_indices fuel tiempo total cantidad base_path loop
        (w : World F) :
  _parse_tiempo tiempo = inr total -> 0 < cantidad ->
  exists o w' es,
    run_simulator env fuel tiempo cantidad base_path loop w = (o, w')
    /\ ((exists r, o = inr r) \/ sleep_raised env o w')
    /\ rows (errors_log w' (errors_file_of base_path))
       = rows (errors_log w (errors_file_of base_path)) ++ es
    /\ Forall (fun r => 0 <= err_index r < cantidad) es.
Proof.
  intros P C.
  destruct (run_simulator_delta fuel tiempo total cantidad base_path loop w
                                P C) as (o & w' & d & R & K & S & _ & _ & E).
  eexists o, w', _. split; [exact R|]. split; [exact K|]. split; [exact E|].
  apply copied_Forall, (shaped_any_rows _ _ _ _ S).
Qed.

(** X10.  The sinks account for the run: as many artifacts are written as
    Event records are emitted, the records of the run are its Event and
    its Error records, a file is made for every artifact written and, for
    the rest, at most one for each Error record; and each log file gets
    every record of its logger once for each handler the logger has on
    it. *)
Theorem run_simulator_accounts fuel tiempo total cantidad base_path loop
        (w : World F) :
  _parse_tiempo tiempo = inr total -> 0 < cantidad ->
  exists o w' evs errs,
    run_simulator env fuel tiempo cantidad base_path loop w = (o, w')
    /\ ((exists r, o = inr r) \/ sleep_raised env o w')
    /\ rows (metrics_log w' (metrics_file_of base_path))
       = metrics_after_setup w (metrics_file_of base_path)
         ++ copied (S (copies (metrics_file_of base_path)
                              (metrics_handlers w))) evs
    /\ rows (errors_log w' (errors_file_of base_path))
       = rows (errors_log w (errors_file_of base_path))
         ++ copied (S (copies (errors_file_of base_path)
                              (errors_handlers w))) errs
    /\ n_written (trace w') = (n_written (trace w) + List.length evs)%nat
    /\ n_records (trace w')
       = (n_records (trace w) + List.length evs + List.length errs)%nat
    /\ (n_created (trace w) + List.length evs <= n_created (trace w'))%nat
    /\ (n_created (trace w')
        <= n_created (trace w) + List.length evs + List.length errs)%nat.
Proof.
  intros P C.
  destruct (run_simulator_delta fuel tiempo total cantidad base_path loop w
                                P C) as (o & w' & d & R & K & S & T & M & E).
  exists o, w', (metrics_lines d), (error_rows d).
  split; [exact R|]. split; [exact K|]. split; [exact M|]. split; [exact E|].
  destruct (shaped_any_counts _ _ _ _ S) as (NW & NR & L1 & L2).
  destruct (setup_effects_count base_path w) as (SR & SC & SW & _).
  rewrite T, !n_created_app, !n_records_app, !n_written_app, SR, SC, SW.
  repeat split; lia.
Qed.

(** X11.  Every Event row of a run names an artifact the run wrote: a file of that
    name in the input directory, of the size the row gives. *)
Theorem run_simulator_rows_name_artifacts fuel tiempo total cantidad
        base_path loop (w : World F) :
  _parse_tiempo tiempo = inr total -> 0 < cantidad ->
  exists o w' ms,
    run_simulator env fuel tiempo cantidad base_path loop w = (o, w')
    /\ ((exists r, o = inr r) \/ sleep_raised env o w')
    /\ rows (metrics_log w' (metrics_file_of base_path))
       = metrics_after_setup w (metrics_file_of base_path) ++ ms
    /\ forall ts fn ext size el,
         In (EventRow ts fn ext size el) ms ->
         In (WriteFile (path_join (path_join base_path "input") fn) size)
            (trace w').
Proof.
  intros P C.
  destruct (run_simulator_delta fuel tiempo total cantidad base_path loop w
                                P C) as (o & w' & d & R & K & S & T & M & E).
  eexists o, w', _. split; [exact R|]. split; [exact K|]. split; [exact M|].
  intros ts fn ext size el H. apply copied_In in H. rewrite T.
  apply in_or_app. right. apply in_or_app. right.
  apply (proj2 (proj2 (shaped_any_files _ _ _ _ S)) ts fn ext size el H).
Qed.

Lemma setup_effects_no_file base_path (w : World F) (full : string) :
  ~ In (OpenWrite full) (setup_effects base_path w)
  /\ forall size, ~ In (WriteFile full size) (setup_effects base_path w).
Proof.
  unfold setup_effects.
  destruct (metrics_log w (metrics_file_of base_path)) as [[|l ls]|];
    cbn; split; try intros size; intuition discriminate.
Qed.

(** X12.  A run writes its artifacts in the input directory and nowhere else; none
    of them is written over one of the two log files.  The same holds of
    the files it makes without writing them to the end. *)
Theorem run_simulator_writes_in_input fuel tiempo total cantidad base_path
        loop (w : World F) (full : string) (size : Z) :
  _parse_tiempo tiempo = inr total -> 0 < cantidad ->
  (In (WriteFile full size)
      (trace (snd (run_simulator env fuel tiempo cantidad base_path loop w)))
   ->
   In (WriteFile full size) (trace w)
   \/ (exists fn, full = path_join (path_join base_path "input") fn)
      /\ full <> metrics_file_of base_path
      /\ full <> errors_file_of base_path)
  /\ (In (OpenWrite full)
         (trace (snd (run_simulator env fuel tiempo cantidad base_path loop
                                    w)))
      ->
      In (OpenWrite full) (trace w)
      \/ (exists fn, full = path_join (path_join base_path "input") fn)
         /\ full <> metrics_file_of base_path
         /\ full <> errors_file_of base_path).
Proof.
  intros P C.
  destruct (run_simulator_trace env fuel tiempo cantidad base_path loop w)
    as (d & -> & S).
  destruct (shaped_any_files _ _ _ _ S) as (K0 & K1 & _).
  destruct (setup_effects_no_file base_path w full) as (N0 & N1).
  split; intros H.
  - apply in_app_or in H. destruct H as [H|H]; [left; exact H|].
    apply in_app_or in H. destruct H as [H|H]; [exfalso; exact (N1 _ H)|].
    right. destruct (K1 full size H) as (fn & ->).
    split; [eexists; reflexivity|].
    destruct (artifact_not_log base_path fn) as (A & B & _). split; assumption.
  - apply in_app_or in H. destruct H as [H|H]; [left; exact H|].
    apply in_app_or in H. destruct H as [H|H]; [exfalso; exact (N0 H)|].
    right. destruct (K0 full H) as (fn & ->).
    split; [eexists; reflexivity|].
    destruct (artifact_not_log base_path fn) as (A & B & _). split; assumption.
Qed.

(** X13.  [time.sleep] is never called with a time that is not positive. *)
Theorem run_simulator_sleeps_positive fuel tiempo cantidad base_path loop
        (w : World F) :
  Forall sleep_positive (trace w) ->
  Forall sleep_positive
         (trace (snd (run_simulator env fuel tiempo cantidad base_path
                                    loop w))).
Proof.
  intros O.
  destruct (run_simulator_trace env fuel tiempo cantidad base_path loop w)
    as (d & -> & S).
  rewrite !Forall_app. split; [exact O|]. split.
  - apply setup_effects_count.
  - apply (shaped_any_ok _ _ _ _ S).
Qed.

End Runs.

(** ** How runs end *)

Section Endings.

Context {F : Type} {PF : PyFloat F} (env : Env F).

(** X14.  The flag is up before the first read: the run makes its two directories
    and sets up its sinks, reads the clock once, reads the flag and returns;
    nothing is created, nothing is slept, and the flag stays up. *)
Theorem run_simulator_already_stopped fuel tiempo total cantidad base_path
        loop (w : World F) :
  _parse_tiempo tiempo = inr total -> 0 < cantidad ->
  flag_at env w = true ->
  exists w',
    run_simulator env (S fuel) tiempo cantidad base_path loop w
    = (inr Returned, w')
    /\ trace w' = trace w ++ setup_effects base_path w
                  ++ [Monotonic (monotonic_at env (ticks w)); ReadStop true]
    /\ stop_requested w' = true.
Proof.
  intros P C Fl. rewrite run_simulator_unfold, P.
  destruct (Z.leb_spec cantidad 0) as [L|L]; [lia|].
  destruct (setup_world_spec base_path w) as (T & Ti & Ch & St & _).
  cbn [while_true]. unfold bind at 1. rewrite cycle_unfold. cbv zeta.
  destruct (Z.to_nat cantidad) as [|n] eqn:N; [lia|].
  cbn [for_range]. unfold bind at 1.
  set (w0 := emit_effect _ (next_tick (setup_world base_path w))).
  assert (Fl0 : flag_at env w0 = true).
  { unfold flag_at in *. subst w0. proj. now rewrite St, Ch. }
  destruct (event_iteration_stopped env (path_join base_path "input")
              (interval_of total cantidad)
              (monotonic_at env (ticks (setup_world base_path w))) 0 w0 Fl0)
    as (w1 & -> & X1 & _ & S1).
  exists w1. split; [reflexivity|]. split; [|exact S1].
  rewrite (trace_of_extends _ _ _ X1). subst w0. proj.
  rewrite T, Ti, <- !app_assoc. reflexivity.
Qed.

Lemma while_true_ends input interval total cantidad (loop : bool)
      (fuel : nat) :
  forall w w' : World F,
    while_true env fuel input interval total cantidad loop w
    = (inr Returned, w') ->
    stop_requested w' = true
    \/ (loop = false
        /\ n_records (trace w')
           = (n_records (trace w) + Z.to_nat cantidad)%nat).
Proof.
  induction fuel as [|fuel IH]; intros w w'; [cbn; discriminate|].
  destruct (cycle_total env input interval cantidad w)
    as (o & w1 & _ & Cy & _ & _ & K).
  destruct loop.
  - rewrite while_true_step, Cy. destruct o as [e|[|]].
    + discriminate.
    + destruct (idle_spec env total (monotonic_at env (ticks w)) w1)
        as (w2 & -> & _).
      destruct (if flt (of_int 0) _ then _ else _); [discriminate|].
      intros H. destruct (IH _ _ H) as [S|[X _]]; [left; exact S | discriminate].
    + intros [= <-]. left. exact K.
  - rewrite while_true_once, Cy. destruct o as [e|[|]].
    + discriminate.
    + intros [= <-]. right. split; [reflexivity | apply K].
    + intros [= <-]. left. exact K.
Qed.

(** X15.  A run ends in one of two ways only: the flag is up, or it is a run
    without [loop] that has made its one full cycle, one record per
    event. *)
Theorem run_simulator_ends fuel tiempo total cantidad base_path
        (loop : bool) (w w' : World F) :
  _parse_tiempo tiempo = inr total ->
  run_simulator env fuel tiempo cantidad base_path loop w
  = (inr Returned, w') ->
  stop_requested w' = true
  \/ (loop = false
      /\ n_records (trace w')
         = (n_records (trace w) + Z.to_nat cantidad)%nat).
Proof.
  intros P. rewrite run_simulator_unfold, P.
  destruct (cantidad <=? 0); [discriminate|].
  intros H. apply while_true_ends in H. destruct H as [S|[L NR]]; [now left|].
  right. split; [exact L|]. rewrite NR.
  destruct (setup_world_spec base_path w) as (-> & _).
  destruct (setup_effects_count base_path w) as (SR & _).
  rewrite n_records_app, SR. lia.
Qed.

Lemma while_true_forever input interval total cantidad (fuel : nat) :
  no_signal env ->
  forall w : World F,
    stop_requested w = false ->
    exists o w',
      while_true env fuel input interval total cantidad true w = (o, w')
      /\ ((o = inr OutOfFuel
           /\ stop_requested w' = false
           /\ n_records (trace w')
              = (n_records (trace w) + fuel * Z.to_nat cantidad)%nat)
          \/ sleep_raised env o w').
Proof.
  intros Q. induction fuel as [|fuel IH]; intros w St.
  - exists (inr OutOfFuel), w. split; [reflexivity|]. left.
    split; [reflexivity|]. split; [exact St | lia].
  - destruct (cycle_total env input interval cantidad w)
      as (o & w1 & _ & Cy & _ & _ & K).
    destruct (cycle_quiet env input interval cantidad w St (fun j _ => Q _))
      as (o' & w1' & Cy' & K').
    rewrite Cy in Cy'. injection Cy' as Ho <-.
    destruct K' as [(-> & _)|K'].
    + destruct o as [e|[|]]; try discriminate.
      destruct K as (_ & S1 & NR). specialize (S1 (or_introl St)).
      destruct (while_true_again env input interval total cantidad fuel
                  w w1 _ Cy) as (w2 & T2 & _ & _ & S2 & ->).
      set (idle := pymax (of_int 0) _) in *.
      assert (N2 : n_records (trace w2) = n_records (trace w1)).
      { rewrite T2, n_records_app, n_records_cons.
        destruct (flt (of_int 0) idle); cbn; lia. }
      destruct (if flt (of_int 0) idle then sleep_error env idle else None)
        as [e|] eqn:Id.
      * exists (inl e), w2. split; [reflexivity|]. right.
        destruct (flt (of_int 0) idle); [|discriminate].
        exists e, idle. eexists. split; [reflexivity|]. split; [exact Id|].
        rewrite T2. change (?a :: [?b]) with ([a] ++ [b]).
        rewrite app_assoc. reflexivity.
      * destruct (IH w2) as (o & w' & -> & [(-> & S' & NR')|K2]).
        { now rewrite S2. }
        -- exists (inr OutOfFuel), w'. split; [reflexivity|]. left.
           split; [reflexivity|]. split; [exact S'|].
           rewrite NR', N2, NR. lia.
        -- exists o, w'. split; [reflexivity|]. right. exact K2.
    + destruct K' as (e & d & t & -> & Se & T).
      destruct o as [e'|r]; [|discriminate]. injection Ho as ->.
      exists (inl e), w1. split.
      * rewrite while_true_step, Cy. reflexivity.
      * right. exists e, d, t. auto.
Qed.

(** X16.  With [loop] and no signal the run does not return: whatever the number
    of cycles it is given, it uses them all, with one record per event in
    each cycle, unless [time.sleep] raises. *)
Theorem run_simulator_loops_until_signal fuel tiempo total cantidad
        base_path (w : World F) :
  no_signal env -> stop_requested w = false ->
  _parse_tiempo tiempo = inr total -> 0 < cantidad ->
  exists o w',
    run_simulator env fuel tiempo cantidad base_path true w = (o, w')
    /\ ((o = inr OutOfFuel
         /\ n_records (trace w')
            = (n_records (trace w) + fuel * Z.to_nat cantidad)%nat)
        \/ sleep_raised env o w').
Proof.
  intros Q St P C. rewrite run_simulator_unfold, P.
  destruct (Z.leb_spec cantidad 0) as [L|L]; [lia|].
  destruct (setup_world_spec base_path w) as (T & _ & _ & S0 & _).
  destruct (while_true_forever (path_join base_path "input")
              (interval_of total cantidad) total cantidad fuel Q
              (setup_world base_path w)) as (o & w' & -> & K).
  { now rewrite S0. }
  exists o, w'. split; [reflexivity|].
  destruct K as [(-> & _ & NR)|K]; [left | right; exact K].
  split; [reflexivity|]. rewrite NR, T, n_records_app.
  destruct (setup_effects_count base_path w) as (-> & _). lia.
Qed.

End Endings.

(** ** Undisturbed cycles *)

Section Undisturbed.

Context {F : Type} {PF : PyFloat F} (env : Env F).

(** A run without [loop] that no signal disturbs: one cycle, one record per
    event, whatever the attempts do. *)
Lemma run_simulator_undisturbed (att : Z -> list (Effect F) -> Prop)
      fuel tiempo total cantidad base_path (w : World F) :
  (forall i x, att i x -> any_attempt (path_join base_path "input") i x) ->
  (forall start i (wx : World F),
      exists w1 d,
        attempt env (path_join base_path "input") start i wx = (inr tt, w1)
        /\ att i d
        /\ extends wx w1 d
        /\ checks w1 = checks wx
        /\ stop_requested w1 = stop_requested wx) ->
  no_signal env -> stop_requested w = false ->
  _parse_tiempo tiempo = inr total -> 0 < cantidad ->
  exists o w' d,
    run_simulator env (S fuel) tiempo cantidad base_path false w = (o, w')
    /\ ((o = inr Returned
         /\ (List.length (metrics_lines d) + List.length (error_rows d))%nat
            = Z.to_nat cantidad)
        \/ sleep_raised env o w')
    /\ shaped att 0 cantidad d
    /\ trace w' = trace w ++ setup_effects base_path w ++ d
    /\ rows (metrics_log w' (metrics_file_of base_path))
       = metrics_after_setup w (metrics_file_of base_path)
         ++ copied (S (copies (metrics_file_of base_path)
                              (metrics_handlers w)))
                   (metrics_lines d)
    /\ (forall q, rows (errors_log w' q)
                  = rows (errors_log w q)
                    ++ copied (copies q (errors_handlers w
                                         ++ [errors_file_of base_path]))
                              (error_rows d)).
Proof.
  intros Sub A Q St P C.
  destruct (run_simulator_shaped env att (S fuel) tiempo total cantidad
              base_path false w A P C)
    as (o & w' & d & R & _ & S & T & M & E).
  exists o, w', d. split; [exact R|].
  split; [|split; [exact S|split; [exact T|split; [exact M | exact E]]]].
  destruct (setup_world_spec base_path w) as (T0 & _ & _ & S0 & _).
  destruct (setup_effects_count base_path w) as (SR & _).
  assert (R' := R). rewrite run_simulator_unfold, P in R'.
  destruct (Z.leb_spec cantidad 0) as [L|L]; [lia|].
  rewrite while_true_once in R'.
  destruct (cycle_quiet env (path_join base_path "input")
              (interval_of total cantidad) cantidad
              (setup_world base_path w)) as (o1 & w1 & Cy & K).
  { now rewrite S0. }
  { intros j _. apply Q. }
  rewrite Cy in R'. destruct K as [(-> & NR)|K].
  - injection R' as <- <-. left. split; [reflexivity|].
    destruct (shaped_any_counts _ _ _ _ (shaped_mono _ _ _ _ _ Sub S))
      as (_ & NRd & _).
    rewrite T, T0, !n_records_app, SR, NRd in NR. lia.
  - destruct K as (e & dd & t & -> & Se & Tt). injection R' as <- <-.
    right. exists e, dd, t. auto.
Qed.

(** X17.  When no attempt fails and no signal arrives, a run without [loop] writes
    one artifact and one Event row per event, [cantidad] of each, and no
    Error row, unless [time.sleep] raises before the end. *)
Theorem run_simulator_all_succeed fuel tiempo total cantidad base_path
        (w : World F) :
  never_fails env -> no_signal env -> stop_requested w = false ->
  _parse_tiempo tiempo = inr total -> 0 < cantidad ->
  exists o w' evs,
    run_simulator env (S fuel) tiempo cantidad base_path false w = (o, w')
    /\ ((o = inr Returned /\ List.length evs = Z.to_nat cantidad)
        \/ sleep_raised env o w')
    /\ rows (metrics_log w' (metrics_file_of base_path))
       = metrics_after_setup w (metrics_file_of base_path)
         ++ copied (S (copies (metrics_file_of base_path)
                              (metrics_handlers w))) evs
    /\ (~ In (metrics_file_of base_path) (metrics_handlers w) ->
        rows (metrics_log w' (metrics_file_of base_path))
        = metrics_after_setup w (metrics_file_of base_path) ++ evs)
    /\ Forall (fun l => is_event_row l = true) evs
    /\ (forall q, rows (errors_log w' q) = rows (errors_log w q))
    /\ n_created (trace w') = (n_created (trace w) + List.length evs)%nat
    /\ n_written (trace w') = (n_written (trace w) + List.length evs)%nat.
Proof.
  intros N Q St P C.
  destruct (run_simulator_undisturbed
              (fun _ x => event_effects (path_join base_path "input") x)
              fuel tiempo total cantidad base_path w
              (fun i x H => or_intror H)
              (fun start i wx => attempt_succeeds env _ start i wx N)
              Q St P C)
    as (o & w' & d & R & K & S & T & M & E).
  destruct (shaped_all_events _ _ _ _ S) as (Z0 & NC).
  assert (Sa : shaped (any_attempt (path_join base_path "input")) 0 cantidad d).
  { eapply shaped_mono; [|exact S]. intros i x H. right. exact H. }
  destruct (shaped_any_counts _ _ _ _ Sa) as (NW & _).
  destruct (setup_effects_count base_path w) as (_ & SC & SW & _).
  exists o, w', (metrics_lines d). split; [exact R|].
  split.
  { destruct K as [(-> & Len)|K]; [left | right; exact K].
    split; [reflexivity|]. rewrite Z0 in Len. cbn in Len. lia. }
  split; [exact M|].
  split.
  { intros Hn. rewrite M, (copies_none _ _ Hn), copied_once. reflexivity. }
  split; [apply (shaped_any_rows _ _ _ _ Sa)|].
  split.
  { intros q. rewrite E, Z0. cbn. apply app_nil_r. }
  rewrite T, !n_created_app, !n_written_app, SC, SW, NC, NW. split; lia.
Qed.


(** X7.  A duration that does not parse is reported first, whatever the count:
    the run raises [InvalidFormat] once the directories and the sinks are set
    up, and begins no cycle. *)
Theorem run_simulator_invalid_format fuel tiempo cantidad base_path loop
        (w : World F) (e : exn) :
  _parse_tiempo tiempo = inl e ->
  exists w',
    run_simulator env fuel tiempo cantidad base_path loop w
    = (inl InvalidFormat, w')
    /\ trace w' = trace w ++ setup_effects base_path w
    /\ ticks w' = ticks w /\ checks w' = checks w.
Proof.
  intros P. rewrite run_simulator_unfold.
  assert (E : e = InvalidFormat).
  { revert P. unfold _parse_tiempo. cbv zeta.
    destruct (total_of (normalize tiempo) =? 0); [|discriminate].
    now intros [= <-]. }
  rewrite P, E. exists (setup_world base_path w). split; [reflexivity|].
  destruct (setup_world_spec base_path w) as (T & Ti & Ch & _).
  repeat split; assumption.
Qed.

Lemma repeat_not_nil {A} (x : A) (n : nat) : repeat x (S n) <> [].
Proof. discriminate. Qed.

(** X6.  [_setup_logging] writes the header row only to a metrics file that is
    missing or empty: afterwards the file is not empty, what rows it had are
    kept, and setting up again over the same file, as a later run in the
    process does, writes no header and changes nothing in the file; what
    it does is to give the logger a second handler on the file. *)
Theorem setup_logging_header_once (logs_path : string) (w : World F) :
  let p := path_join logs_path "metrics.log" in
  exists w1 w2,
    _setup_logging logs_path w = (inr tt, w1)
    /\ _setup_logging logs_path w1 = (inr tt, w2)
    /\ rows (metrics_log w1 p) = metrics_after_setup w p
    /\ metrics_after_setup w p <> []
    /\ (forall l ls,
           metrics_log w p = Some (l :: ls) ->
           rows (metrics_log w1 p) = l :: ls
           /\ metrics_lines (trace w1) = metrics_lines (trace w))
    /\ (rows (metrics_log w p) = [] ->
        metrics_lines (trace w1) = metrics_lines (trace w) ++ [Header])
    /\ rows (metrics_log w2 p) = rows (metrics_log w1 p)
    /\ metrics_lines (trace w2) = metrics_lines (trace w1)
    /\ metrics_handlers w1 = metrics_handlers w ++ [p]
    /\ metrics_handlers w2 = metrics_handlers w ++ [p; p].
Proof.
  cbv zeta. set (p := path_join logs_path "metrics.log").
  assert (Ne : metrics_after_setup w p <> []).
  { unfold metrics_after_setup.
    destruct (metrics_log w p) as [[|l ls]|]; discriminate. }
  assert (S1 : exists w1,
             _setup_logging logs_path w = (inr tt, w1)
             /\ rows (metrics_log w1 p) = metrics_after_setup w p
             /\ metrics_lines (trace w1)
                = metrics_lines (trace w)
                  ++ match metrics_log w p with
                     | Some (_ :: _) => []
                     | _ => [Header]
                     end
             /\ metrics_handlers w1 = metrics_handlers w ++ [p]).
  { unfold _setup_logging, metrics_after_setup. fold p. exec. proj.
    rewrite open_append_same.
    destruct (metrics_log w p) as [[|l ls]|] eqn:Em; cbn [rows]; proj;
      (eexists; split; [reflexivity|]); proj;
      rewrite ?handle_rows, ?open_append_same, ?copies_last, ?Em,
        !metrics_lines_app; cbn [rows];
      (split; [reflexivity|]); (split; [|reflexivity]);
      cbn; now rewrite ?app_nil_r. }
  destruct S1 as (w1 & E1 & M1 & L1 & H1).
  assert (S2 : exists w2,
             _setup_logging logs_path w1 = (inr tt, w2)
             /\ rows (metrics_log w2 p) = rows (metrics_log w1 p)
             /\ metrics_lines (trace w2) = metrics_lines (trace w1)
             /\ metrics_handlers w2 = metrics_handlers w1 ++ [p]).
  { unfold _setup_logging. fold p. exec. proj.
    rewrite open_append_same, M1.
    destruct (metrics_after_setup w p) as [|l ls] eqn:Ea; [congruence|].
    eexists. split; [reflexivity|]. proj.
    rewrite ?open_append_same, !metrics_lines_app. cbn [rows].
    split; [now rewrite M1|]. split; [|reflexivity].
    cbn. now rewrite !app_nil_r. }
  destruct S2 as (w2 & E2 & M2 & L2 & H2).
  exists w1, w2. split; [exact E1|]. split; [exact E2|].
  split; [exact M1|]. split; [exact Ne|].
  split.
  { intros l ls Em. rewrite M1, L1. unfold metrics_after_setup.
    rewrite Em. split; [reflexivity | apply app_nil_r]. }
  split.
  { intros Hr. rewrite L1.
    destruct (metrics_log w p) as [[|l ls]|]; try reflexivity.
    discriminate. }
  split; [exact M2|]. split; [exact L2|]. split; [exact H1|].
  rewrite H2, H1, <- app_assoc. reflexivity.
Qed.

End Undisturbed.

(** ** Further runs of the model *)

Lemma parse_tiempo_spaced_one_token_witness :
  all_word (normalize "1hr 30m")
  /\ (_parse_tiempo "1hr 30m" = inl InvalidFormat
      \/ exists t, tokens "1hr 30m" = [t]
                   /\ _parse_tiempo "1hr 30m" = inr (token_seconds t)).
Proof.
  assert (W : all_word (normalize "1hr 30m")) by (repeat constructor).
  split; [exact W|]. exact (parse_tiempo_spaced_one_token "1hr 30m" W).
Defined.

Lemma parse_tiempo_separated_parts_witness :
  separator ","%char
  /\ _parse_tiempo "1hr" = inr 3600
  /\ _parse_tiempo "30m" = inr 1800
  /\ _parse_tiempo "abc" = inl InvalidFormat
  /\ _parse_tiempo "1hr,30m" = inr (3600 + 1800)
  /\ _parse_tiempo "abc,30m" = inr 1800
  /\ _parse_tiempo "1hr,abc" = inr 3600
  /\ _parse_tiempo "abc,abc" = inl InvalidFormat.
Proof.
  assert (S : separator ","%char) by (split; reflexivity).
  split; [exact S|]. split; [reflexivity|]. split; [reflexivity|].
  split; [reflexivity|].
  split.
  { exact (proj1 (proj2 (parse_tiempo_separated_parts "1hr" "30m" ","%char S))
             3600 1800 eq_refl eq_refl). }
  split.
  { exact (proj1 (proj2 (proj2 (proj2
             (parse_tiempo_separated_parts "abc" "30m" ","%char S))))
             1800 eq_refl eq_refl). }
  split.
  { exact (proj1 (proj2 (proj2
             (parse_tiempo_separated_parts "1hr" "abc" ","%char S)))
             3600 eq_refl eq_refl). }
  exact (proj2 (proj2 (proj2 (proj2
           (parse_tiempo_separated_parts "abc" "abc" ","%char S))))
           eq_refl eq_refl).
Defined.

(** The expression of the doc comment, and one with a part that has a token
    of quantity 0. *)
Example parse_tiempo_separated_parts_run :
  _parse_tiempo "abc,5m" = inr 300
  /\ _parse_tiempo "0h:45min" = inr 2700
  /\ _parse_tiempo "0h/0m" = inl InvalidFormat.
Proof. repeat split. Qed.

Lemma parse_tiempo_single_token_witness :
  In ("min", 60) patterns
  /\ _parse_tiempo "45MIN" = inr 2700.
Proof.
  assert (P : In ("min", 60) patterns) by (right; right; left; reflexivity).
  assert (N : list_ascii_of_string "45" <> []) by discriminate.
  assert (D : Forall (fun c => PyStr.is_digit c = true)
                     (list_ascii_of_string "45")) by (repeat constructor).
  split; [exact P|].
  exact (parse_tiempo_single_token (list_ascii_of_string "45") "MIN"
           ("min", 60) P N D eq_refl).
Defined.

(** [_setup_logging] for a second directory in the same process: the two
    loggers keep the handlers of the first, so the header row the second
    call writes goes to the metrics file of the first directory too. *)
Example setup_logging_second_directory_run :
  let w2 := snd (_setup_logging "b/logs"
                   (snd (_setup_logging "a/logs" (@fresh_world Q)))) in
  metrics_handlers w2 = ["a/logs/metrics.log"; "b/logs/metrics.log"]
  /\ metrics_log w2 "a/logs/metrics.log" = Some [Header; Header]
  /\ metrics_log w2 "b/logs/metrics.log" = Some [Header]
  /\ metrics_lines (trace w2) = [Header; Header].
Proof. vm_compute. repeat split. Qed.

(** A second run in the same directory and process: there is one header
    row, and each Event row of the second run is written twice. *)
Example run_simulator_second_run :
  let w1 := snd (run_simulator (quiet_env (2 ^ 52)) 1 "1m" 1 "recepcion"
                               false fresh_world) in
  let w2 := snd (run_simulator (quiet_env (2 ^ 52)) 1 "1m" 1 "recepcion"
                               false w1) in
  map is_event_row (rows (metrics_log w1 "recepcion/logs/metrics.log"))
  = [false; true]
  /\ map is_event_row (rows (metrics_log w2 "recepcion/logs/metrics.log"))
     = [false; true; true; true]
  /\ List.length (metrics_lines (trace w2)) = 3%nat
  /\ n_written (trace w2) = 2%nat.
Proof. vm_compute. repeat split. Qed.

Lemma run_simulator_appends_witness :
  _parse_tiempo "1m" = inr 60 /\ 0 < 2
  /\ exists o w' ms,
      run_simulator (quiet_env (2 ^ 52)) 1 "1m" 2 "recepcion" false
                    fresh_world = (o, w')
      /\ rows (metrics_log w' (metrics_file_of "recepcion")) = Header :: ms
      /\ Forall (fun l => is_event_row l = true) ms.
Proof.
  split; [reflexivity|]. split; [reflexivity|].
  destruct (run_simulator_appends (quiet_env (2 ^ 52)) 1 "1m" 60 2
              "recepcion" false fresh_world eq_refl eq_refl)
    as (o & w' & ms & es & R & _ & _ & _ & Ev & H).
  exists o, w', ms. split; [exact R|].
  split; [exact (H eq_refl (fun f => f)) | exact Ev].
Defined.

Lemma run_simulator_error_indices_witness :
  _parse_tiempo "1m" = inr 60 /\ 0 < 2
  /\ exists o w' es,
      run_simulator (quiet_env 0) 1 "1m" 2 "recepcion" false fresh_world
      = (o, w')
      /\ rows (errors_log w' (errors_file_of "recepcion")) = es
      /\ Forall (fun r => 0 <= err_index r < 2) es.
Proof.
  split; [reflexivity|]. split; [reflexivity|].
  destruct (run_simulator_error_indices (quiet_env 0) 1 "1m" 60 2
              "recepcion" false fresh_world eq_refl eq_refl)
    as (o & w' & es & R & _ & E & I).
  exists o, w', es. split; [exact R|]. split; [exact E | exact I].
Defined.

Lemma run_simulator_accounts_witness :
  _parse_tiempo "1m" = inr 60 /\ 0 < 2
  /\ exists o w' (evs : list (MetricsLine Q)) (errs : list ErrorRow),
      run_simulator (failing_env (2 ^ 52)) 1 "1m" 2 "recepcion" false
                    fresh_world = (o, w')
      /\ n_written (trace w') = List.length evs
      /\ n_records (trace w')
         = (List.length evs + List.length errs)%nat
      /\ (List.length evs <= n_created (trace w'))%nat
      /\ (n_created (trace w') <= List.length evs + List.length errs)%nat.
Proof.
  split; [reflexivity|]. split; [reflexivity|].
  destruct (run_simulator_accounts (failing_env (2 ^ 52)) 1 "1m" 60 2
              "recepcion" false fresh_world eq_refl eq_refl)
    as (o & w' & evs & errs & R & _ & _ & _ & NW & NR & L1 & L2).
  exists o, w', evs, errs. split; [exact R|]. split; [exact NW|].
  split; [exact NR|]. split; [exact L1 | exact L2].
Defined.

(** On a full disk each event leaves the file [open] has made, and an Error
    row: two files, no artifact written, no Event row. *)
Example run_simulator_accounts_run :
  let r := run_simulator (failing_env (2 ^ 52)) 1 "1m" 2 "recepcion" false
                         fresh_world in
  fst r = inr Returned
  /\ n_created (trace (snd r)) = 2%nat
  /\ n_written (trace (snd r)) = 0%nat
  /\ n_records (trace (snd r)) = 2%nat
  /\ rows (metrics_log (snd r) "recepcion/logs/metrics.log") = [Header]
  /\ map err_index (rows (errors_log (snd r) "recepcion/logs/errors.log"))
     = [0; 1]
  /\ map err_description
         (rows (errors_log (snd r) "recepcion/logs/errors.log"))
     = ["No space left on device"; "No space left on device"].
Proof. vm_compute. repeat split. Qed.

Lemma run_simulator_rows_name_artifacts_witness :
  _parse_tiempo "1m" = inr 60 /\ 0 < 2
  /\ exists o w' ms,
      run_simulator (quiet_env (2 ^ 52)) 1 "1m" 2 "recepcion" false
                    fresh_world = (o, w')
      /\ rows (metrics_log w' (metrics_file_of "recepcion"))
         = metrics_after_setup fresh_world (metrics_file_of "recepcion")
           ++ ms
      /\ forall ts fn ext size el,
           In (EventRow ts fn ext size el) ms ->
           In (WriteFile (path_join (path_join "recepcion" "input") fn) size)
              (trace w').
Proof.
  split; [reflexivity|]. split; [reflexivity|].
  destruct (run_simulator_rows_name_artifacts (quiet_env (2 ^ 52)) 1 "1m" 60
              2 "recepcion" false fresh_world eq_refl eq_refl)
    as (o & w' & ms & R & _ & M & H).
  exists o, w', ms. split; [exact R|]. split; [exact M | exact H].
Defined.

Lemma run_simulator_writes_in_input_witness :
  let r := run_simulator (quiet_env (2 ^ 52)) 1 "1m" 2 "recepcion" false
                         fresh_world in
  _parse_tiempo "1m" = inr 60 /\ 0 < 2
  /\ In (WriteFile "recepcion/input/1704067200000-4242-0.deb" 4097)
        (trace (snd r))
  /\ "recepcion/input/1704067200000-4242-0.deb"
     <> metrics_file_of "recepcion".
Proof.
  cbv zeta.
  assert (I : In (WriteFile "recepcion/input/1704067200000-4242-0.deb" 4097)
                 (trace (snd (run_simulator (quiet_env (2 ^ 52)) 1 "1m" 2
                                 "recepcion" false (@fresh_world Q))))).
  { vm_compute. do 8 right. left. reflexivity. }
  split; [reflexivity|]. split; [reflexivity|]. split; [exact I|].
  destruct (proj1 (run_simulator_writes_in_input (quiet_env (2 ^ 52)) 1 "1m"
                     60 2 "recepcion" false fresh_world _ _ eq_refl eq_refl)
                  I)
    as [[]|(_ & H & _)].
  exact H.
Defined.

Lemma run_simulator_sleeps_positive_witness :
  Forall sleep_positive (trace (@fresh_world Q))
  /\ Forall sleep_positive
       (trace (snd (run_simulator (quiet_env (2 ^ 52)) 1 "1m" 2 "recepcion"
                                  false fresh_world))).
Proof.
  split; [constructor|].
  exact (run_simulator_sleeps_positive (quiet_env (2 ^ 52)) 1 "1m" 2
           "recepcion" false fresh_world (Forall_nil _)).
Defined.

Lemma run_simulator_already_stopped_witness :
  _parse_tiempo "1m" = inr 60 /\ 0 < 5
  /\ flag_at (burst_env 0) (@fresh_world Q) = true
  /\ exists w',
      run_simulator (burst_env 0) 1 "1m" 5 "recepcion" true fresh_world
      = (inr Returned, w')
      /\ stop_requested w' = true.
Proof.
  split; [reflexivity|]. split; [reflexivity|]. split; [reflexivity|].
  destruct (run_simulator_already_stopped (burst_env 0) 0 "1m" 60 5
              "recepcion" true fresh_world eq_refl eq_refl eq_refl)
    as (w' & R & _ & S).
  exists w'. split; [exact R | exact S].
Defined.

Lemma run_simulator_ends_witness :
  let r := run_simulator (burst_env 3) 1 "1m" 5 "recepcion" true
                         fresh_world in
  _parse_tiempo "1m" = inr 60
  /\ r = (inr Returned, snd r)
  /\ stop_requested (snd r) = true.
Proof.
  cbv zeta.
  assert (R : run_simulator (burst_env 3) 1 "1m" 5 "recepcion" true
                            (@fresh_world Q)
              = (inr Returned,
                 snd (run_simulator (burst_env 3) 1 "1m" 5 "recepcion" true
                                    fresh_world)))
    by (vm_compute; reflexivity).
  split; [reflexivity|]. split; [exact R|].
  destruct (run_simulator_ends (burst_env 3) 1 "1m" 60 5 "recepcion" true
              fresh_world _ eq_refl R) as [S|[L _]];
    [exact S | discriminate L].
Defined.

Lemma run_simulator_loops_until_signal_witness :
  no_signal (quiet_env (2 ^ 52))
  /\ stop_requested (@fresh_world Q) = false
  /\ _parse_tiempo "1m" = inr 60 /\ 0 < 2
  /\ exists o w',
      run_simulator (quiet_env (2 ^ 52)) 3 "1m" 2 "recepcion" true
                    fresh_world = (o, w')
      /\ ((o = inr OutOfFuel /\ n_records (trace w') = 6%nat)
          \/ sleep_raised (quiet_env (2 ^ 52)) o w').
Proof.
  assert (Q0 : no_signal (quiet_env (2 ^ 52))) by (intros n; reflexivity).
  split; [exact Q0|]. split; [reflexivity|]. split; [reflexivity|].
  split; [reflexivity|].
  exact (run_simulator_loops_until_signal (quiet_env (2 ^ 52)) 3 "1m" 60
           2 "recepcion" fresh_world Q0 eq_refl eq_refl eq_refl).
Defined.

(** Three cycles of two events at one minute per cycle: the timer refuses
    no sleep, and the three cycles are used. *)
Example run_simulator_loops_until_signal_run :
  let r := run_simulator (quiet_env (2 ^ 52)) 3 "1m" 2 "recepcion" true
                         fresh_world in
  fst r = inr OutOfFuel /\ n_records (trace (snd r)) = 6%nat.
Proof. vm_compute. split; reflexivity. Qed.

Lemma run_simulator_all_succeed_witness :
  never_fails (quiet_env (2 ^ 52))
  /\ no_signal (quiet_env (2 ^ 52))
  /\ stop_requested (@fresh_world Q) = false
  /\ _parse_tiempo "1m" = inr 60 /\ 0 < 2
  /\ exists o w' evs,
      run_simulator (quiet_env (2 ^ 52)) 1 "1m" 2 "recepcion" false
                    fresh_world = (o, w')
      /\ ((o = inr Returned /\ List.length evs = 2%nat)
          \/ sleep_raised (quiet_env (2 ^ 52)) o w')
      /\ rows (metrics_log w' (metrics_file_of "recepcion"))
         = metrics_after_setup fresh_world (metrics_file_of "recepcion")
           ++ evs
      /\ rows (errors_log w' (errors_file_of "recepcion")) = [].
Proof.
  assert (N0 : never_fails (quiet_env (2 ^ 52)))
    by (intros n; split; reflexivity).
  assert (Q0 : no_signal (quiet_env (2 ^ 52))) by (intros n; reflexivity).
  split; [exact N0|]. split; [exact Q0|]. split; [reflexivity|].
  split; [reflexivity|]. split; [reflexivity|].
  destruct (run_simulator_all_succeed (quiet_env (2 ^ 52)) 0 "1m" 60 2
              "recepcion" fresh_world N0 Q0 eq_refl eq_refl eq_refl)
    as (o & w' & evs & R & K & _ & M & _ & E & _).
  exists o, w', evs. split; [exact R|]. split; [exact K|].
  split; [exact (M (fun f => f)) | exact (E _)].
Defined.

Example run_simulator_all_succeed_run :
  let r := run_simulator (quiet_env (2 ^ 52)) 1 "1m" 2 "recepcion" false
                         fresh_world in
  fst r = inr Returned
  /\ map is_event_row
         (rows (metrics_log (snd r) "recepcion/logs/metrics.log"))
     = [false; true; true]
  /\ rows (errors_log (snd r) "recepcion/logs/errors.log") = []
  /\ n_created (trace (snd r)) = 2%nat
  /\ n_written (trace (snd r)) = 2%nat.
Proof. vm_compute. repeat split. Qed.


(** In a directory that cannot be written to, each event leaves an Error
    row and nothing else. *)
Example run_simulator_all_fail_run :
  let r := run_simulator (closed_env (2 ^ 52)) 1 "1m" 2 "recepcion" false
                         fresh_world in
  fst r = inr Returned
  /\ n_created (trace (snd r)) = 0%nat
  /\ n_written (trace (snd r)) = 0%nat
  /\ rows (metrics_log (snd r) "recepcion/logs/metrics.log") = [Header]
  /\ map err_index (rows (errors_log (snd r) "recepcion/logs/errors.log"))
     = [0; 1]
  /\ map err_description
         (rows (errors_log (snd r) "recepcion/logs/errors.log"))
     = ["Permission denied"; "Permission denied"].
Proof. vm_compute. repeat split. Qed.

Lemma run_simulator_invalid_format_witness :
  _parse_tiempo "abc" = inl InvalidFormat
  /\ exists w',
      run_simulator (quiet_env 0) 1 "abc" 0 "recepcion" false fresh_world
      = (inl InvalidFormat, w')
      /\ checks w' = 0%nat.
Proof.
  split; [reflexivity|].
  destruct (run_simulator_invalid_format (quiet_env 0) 1 "abc" 0 "recepcion"
              false fresh_world InvalidFormat eq_refl)
    as (w' & R & _ & _ & C).
  exists w'. split; [exact R | exact C].
Defined.
